(** * The rundown watcher of the iNews FTP gateway

    A shallow embedding of [RundownWatcher] (classes/RundownWatcher.ts):
    the caches it owns, [ResyncRundown], one poll of one queue
    ([checkINewsRundownById] / [processUpdatedRundown]) and the poll cycle
    ([checkINewsRundowns] / [watch]).

    JavaScript [Map]s used as dictionaries are [gmap]s, the [Set] of armed
    rundowns is a [gset]; collections whose iteration order reaches the
    event stream or a request stay lists.  Everything the watcher says to
    the outside is returned explicitly: the emitted events, the
    [logger.error] lines, the requests sent to iNews and to Core, and the
    status reports.

    [ResyncRundown] and [processUpdatedRundown] run under the mutex
    [processingRundown], so each is one step on the watcher's fields.  The
    poll timer, the [info] and [debug] log lines, and listeners or
    [setStatus] throwing are left out. *)

From stdpp Require Import gmap strings list fin_maps.
From Stdlib Require Import QArith Ascii.
From Stdlib Require Import Sorting.Sorted.

Local Open Scope string_scope.
Local Open Scope list_scope.

(** ** Identifiers and numbers *)

Abbreviation PlaylistId := string (only parsing).
Abbreviation RundownId := string (only parsing).
Abbreviation SegmentId := string (only parsing).

(** Ranks are JavaScript numbers.  The watcher never computes with them, it
    only stores them, passes them on and substitutes the literal [0]. *)
Abbreviation number := Q (only parsing).

(** ** Data structures *)

(** The iNews story is opaque to the watcher except for [meta.float]. *)
Record INewsStory := mkINewsStory {
  meta_float : option string;
  story_body : string;
}.

(** [!!story.meta.float]: a missing or empty value is falsy. *)
Definition truthy (v : option string) : bool :=
  match v with
  | Some s => negb (String.eqb s "")
  | None => false
  end.

(** [ReducedSegment = Pick<ISegment, externalId | modified | rank | name | locator>] *)
Record ReducedSegment := mkReducedSegment {
  rs_externalId : SegmentId;
  rs_modified : Z;
  rs_rank : number;
  rs_name : string;
  rs_locator : string;
}.

(** [ReducedRundown]: the queue listing returned by [downloadRundown]. *)
Record ReducedRundown := mkReducedRundown {
  rr_externalId : string;
  rr_name : string;
  rr_gatewayVersion : string;
  rr_segments : list ReducedSegment;
}.

(** [UnrankedSegment = Omit<ISegment, rank | float>] *)
Record UnrankedSegment := mkUnrankedSegment {
  us_externalId : SegmentId;
  us_rundownId : RundownId;
  us_name : string;
  us_modified : Z;
  us_locator : string;
  us_iNewsStory : INewsStory;
}.

(** [new RundownSegment(rundownId, iNewsStory, modified, locator, externalId, rank, name)] *)
Record RundownSegment := mkRundownSegment {
  seg_rundownId : RundownId;
  seg_iNewsStory : INewsStory;
  seg_modified : Z;
  seg_locator : string;
  seg_externalId : SegmentId;
  seg_rank : number;
  seg_name : string;
}.

(** [new INewsRundown(externalId, name, gatewayVersion, segments, backTime)] *)
Record INewsRundown := mkINewsRundown {
  inr_externalId : RundownId;
  inr_name : string;
  inr_gatewayVersion : string;
  inr_segments : list RundownSegment;
  inr_backTime : option string;
}.

(** One entry of a [ResolvedPlaylist]. *)
Record ResolvedRundown := mkResolvedRundown {
  rundownId : RundownId;
  res_segments : list SegmentId;
  backTime : option string;
}.

Abbreviation ResolvedPlaylist := (list ResolvedRundown) (only parsing).

(** [SegmentRankingsInner = { rank: number }] *)
Record SegmentRankingsInner := mkSegmentRankingsInner { rank : number }.

(** [MutatedSegment], the payload of an ingest segment. *)
Record MutatedSegment := mkMutatedSegment {
  ms_modified : Z;
  ms_locator : string;
  ms_rundownId : RundownId;
  ms_iNewsStory : INewsStory;
  ms_float : bool;
}.

(** [IngestSegment]; [parts] is always the empty array and is left out. *)
Record IngestSegment := mkIngestSegment {
  is_externalId : SegmentId;
  is_name : string;
  is_rank : number;
  is_payload : MutatedSegment;
}.

Record IngestRundown := mkIngestRundown {
  ir_externalId : RundownId;
  ir_name : string;
  ir_type : string;
  ir_segments : list IngestSegment;
  ir_playlistExternalId : PlaylistId;
  ir_backTime : option string;
}.

(** [INewsQueue]: only the queue name [queues] is read. *)
Record INewsQueue := mkINewsQueue { queues : string }.

(** ** The change list of the playlist differ

    [PlaylistChange] is a tagged union; the rundown-level variants carry
    [rundownExternalId], the segment-level ones also [segmentExternalId]. *)
Inductive PlaylistChange :=
| PlaylistChangeRundownCreated (rundownExternalId : RundownId)
| PlaylistChangeRundownDeleted (rundownExternalId : RundownId)
| PlaylistChangeRundownUpdated (rundownExternalId : RundownId)
| PlaylistChangeSegmentChanged (rundownExternalId : RundownId) (segmentExternalId : SegmentId)
| PlaylistChangeSegmentCreated (rundownExternalId : RundownId) (segmentExternalId : SegmentId)
| PlaylistChangeSegmentDeleted (rundownExternalId : RundownId) (segmentExternalId : SegmentId)
| PlaylistChangeSegmentMoved (rundownExternalId : RundownId) (segmentExternalId : SegmentId).

(** A segment-level change after the cast that follows each [filter]. *)
Record SegmentChange := mkSegmentChange {
  rundownExternalId : RundownId;
  segmentExternalId : SegmentId;
}.

(** ** What the watcher emits *)

Inductive Event :=
| rundown_delete (rundownId : RundownId)
| rundown_create (rundownId : RundownId) (rundown : IngestRundown)
| rundown_update (rundownId : RundownId) (rundown : IngestRundown)
| segment_delete (rundownId : RundownId) (segmentId : SegmentId)
| segment_create (rundownId : RundownId) (segmentId : SegmentId) (newSegment : IngestSegment)
| segment_update (rundownId : RundownId) (segmentId : SegmentId) (newSegment : IngestSegment)
| segment_ranks_update (rundownId : RundownId) (newRanks : gmap string Q).

(** The rundown an event is addressed to. *)
Definition eventRundownId (e : Event) : RundownId :=
  match e with
  | rundown_delete r | rundown_create r _ | rundown_update r _
  | segment_delete r _ | segment_create r _ _ | segment_update r _ _
  | segment_ranks_update r _ => r
  end.

(** The place of each kind of event in the order of emission. *)
Definition phase (e : Event) : nat :=
  match e with
  | rundown_delete _ => 0
  | segment_delete _ _ => 1
  | rundown_create _ _ => 2
  | rundown_update _ _ => 3
  | segment_update _ _ _ => 4
  | segment_create _ _ _ => 5
  | segment_ranks_update _ _ => 6
  end.

Definition isRundownCreateOrUpdate (e : Event) : bool :=
  match e with
  | rundown_create _ _ | rundown_update _ _ => true
  | _ => false
  end.

Definition isRundownLevel (e : Event) : bool :=
  match e with
  | rundown_delete _ | rundown_create _ _ | rundown_update _ _ => true
  | _ => false
  end.

(** Segment-level events other than deletes; a ranks update counts for
    every segment in its payload. *)
Definition isSegmentLevel (e : Event) : bool :=
  match e with
  | segment_create _ _ _ | segment_update _ _ _ | segment_ranks_update _ _ => true
  | _ => false
  end.

(** An event carries a segment when it is that segment's create or update,
    a ranks update with the segment in its payload, or a rundown create or
    update with the segment among the rundown's segments. *)
Definition carriesSegment (segmentId : SegmentId) (e : Event) : bool :=
  match e with
  | segment_create _ s _ | segment_update _ s _ => bool_decide (s = segmentId)
  | segment_ranks_update _ newRanks => bool_decide (is_Some (newRanks !! segmentId))
  | rundown_create _ rundown | rundown_update _ rundown =>
      bool_decide (segmentId ∈ map is_externalId (ir_segments rundown))
  | rundown_delete _ | segment_delete _ _ => false
  end.

(** The ranks updates among some events. *)
Definition ranksUpdates (events : list Event) : list (RundownId * gmap string Q) :=
  omap (fun e => match e with
                 | segment_ranks_update r newRanks => Some (r, newRanks)
                 | _ => None
                 end) events.

(** The [logger.error] call sites, each with the values its message shows. *)
Inductive LogEntry :=
| ErrRundownNotInPlaylist (rundownExternalId : RundownId) (playlistExternalId : PlaylistId)
| ErrProcessingFailed (playlistId : PlaylistId) (* the error caught at line 333 *)
| ErrNoINewsDataInRundown (segmentId : SegmentId) (playlistId : PlaylistId)
| ErrFailedToAssign (segmentId : SegmentId) (rundownId : RundownId)
| ErrNoSegmentsForRundown (rundownId : RundownId)
| ErrSegmentChangeWithoutData (segmentId : SegmentId)
| ErrCreatedSegmentWithoutData (segmentId : SegmentId)
| ErrCouldNotAssignRank (segmentId : SegmentId)
| ErrNoINewsDataFor (segmentId : SegmentId)
| ErrNoRankDataFor (segmentId : SegmentId)
| ErrDroppingSegment (segmentId : SegmentId) (rundownId : RundownId)
| ErrQueueLength (len : nat)
| ErrCheckFailed.

(** Requests to the collaborators, in the order they are issued. *)
Inductive Request :=
| ReqDownloadRundown (queue : string)
| ReqFetchINewsStoriesById (playlistId : PlaylistId) (segmentIds : list SegmentId)
| ReqGetSegmentsCacheById (rundownId : RundownId) (segmentIds : list SegmentId).

Inductive StatusCode := GOOD | WARNING_MINOR | WARNING_MAJOR.

(** ** The watcher's fields *)

Record RundownWatcher := mkRundownWatcher {
  gatewayVersion : string;
  iNewsQueue : list INewsQueue;
  previousRanks : gmap string (gmap string SegmentRankingsInner);
  lastForcedRankRecalculation : gmap string Z;
  cachedINewsData : gmap string UnrankedSegment;
  cachedPlaylistAssignments : gmap string (list ResolvedRundown);
  cachedAssignedRundowns : gmap string (list INewsRundown);
  skipCacheForRundown : gset string;
  playlists : gmap string (list RundownId);
  rundowns : gmap string (list SegmentId);
  segments : gmap string ReducedSegment;
}.

(** ** [ResyncRundown] *)

(** [\d] *)
Definition is_digit (c : Ascii.ascii) : bool :=
  let n := Ascii.nat_of_ascii c in (48 <=? n)%nat && (n <=? 57)%nat.

(** The longest prefix of a list whose elements all pass [p]. *)
Fixpoint take_while {A} (p : A -> bool) (l : list A) : list A :=
  match l with
  | x :: l' => if p x then x :: take_while p l' else []
  | [] => []
  end.

(** [id.replace(/_\d+$/, '')]: a trailing underscore followed by one or
    more digits is removed; any other string is returned as it is.  The
    match is found from the end of the string, where [$] anchors it. *)
Definition playlistIdOfRundown (rundownExternalId : string) : string :=
  let r := reverse (String.list_ascii_of_string rundownExternalId) in
  let digits := take_while is_digit r in
  match digits, drop (length digits) r with
  | _ :: _, "_"%char :: rest => String.string_of_list_ascii (reverse rest)
  | _, _ => rundownExternalId
  end.

(** [this.segments.delete(id)] for each id of the rundown. *)
Definition deleteAll {V} (ids : list string) (m : gmap string V) : gmap string V :=
  foldl (fun acc id => delete id acc) m ids.

Definition ResyncRundown (w : RundownWatcher) (rundownExternalId : string)
  : RundownWatcher * list LogEntry :=
  let playlistExternalId := playlistIdOfRundown rundownExternalId in
  match playlists w !! playlistExternalId, rundowns w !! rundownExternalId with
  | Some playlist, Some rundown =>
      let cachedPlaylistAssignments' :=
        match cachedPlaylistAssignments w !! playlistExternalId with
        | Some cachedPlaylist =>
            <[playlistExternalId :=
                filter (fun p => rundownId p <> rundownExternalId) cachedPlaylist]>
              (cachedPlaylistAssignments w)
        | None => cachedPlaylistAssignments w
        end in
      ({| gatewayVersion := gatewayVersion w;
          iNewsQueue := iNewsQueue w;
          previousRanks := previousRanks w;
          lastForcedRankRecalculation :=
            delete rundownExternalId (lastForcedRankRecalculation w);
          cachedINewsData := deleteAll rundown (cachedINewsData w);
          cachedPlaylistAssignments := cachedPlaylistAssignments';
          cachedAssignedRundowns := cachedAssignedRundowns w;
          skipCacheForRundown := {[rundownExternalId]} ∪ skipCacheForRundown w;
          playlists :=
            <[playlistExternalId :=
                filter (fun r => r <> rundownExternalId) playlist]> (playlists w);
          rundowns := delete rundownExternalId (rundowns w);
          segments := deleteAll rundown (segments w) |}, [])
  | _, _ =>
      (w, [ErrRundownNotInPlaylist rundownExternalId playlistExternalId])
  end.

(** ** Collaborators

    The NRCS client, the Core client and the clock answer from outside the
    process.  One value of [Collaborators] fixes their answers for one poll;
    a rejected promise is [None]. *)
Record Collaborators := mkCollaborators {
  downloadRundown : string -> option ReducedRundown;
  fetchINewsStoriesById : PlaylistId -> list SegmentId -> option (gmap string UnrankedSegment);
  GetSegmentsCacheById : RundownId -> list SegmentId -> option (gmap string RundownSegment);
  queueLength : nat;
  isConnected : bool;
  now : Z;
}.

(** One element of the array returned by [AssignRanksToSegments]. *)
Record RundownRanks := mkRundownRanks {
  rk_rundownId : RundownId;
  rk_assignedRanks : gmap string Q;
  rk_recalculatedAsIntegers : bool;
}.

(** ** Small containers with insertion order *)

(** [Set.add] on a [Set] kept in insertion order. *)
Definition setAdd (x : string) (s : list string) : list string :=
  if decide (x ∈ s) then s else s ++ [x].

(** A loop that adds [key a] to the set for every [a] that passes [test]. *)
Definition addWhere {A} (test : A -> bool) (key : A -> string)
    (l : list A) (s : list string) : list string :=
  foldl (fun acc a => if test a then setAdd (key a) acc else acc) s l.

(** [Map.get] and [Map.set] on a [Map] kept in insertion order. *)
Fixpoint mapGet {V} (k : string) (m : list (string * V)) : option V :=
  match m with
  | [] => None
  | (k', v) :: m' => if decide (k' = k) then Some v else mapGet k m'
  end.

Fixpoint mapSet {V} (k : string) (v : V) (m : list (string * V)) : list (string * V) :=
  match m with
  | [] => [(k, v)]
  | (k', v') :: m' =>
      if decide (k' = k) then (k, v) :: m' else (k', v') :: mapSet k v m'
  end.

(** [for (const [k, v] of src) dst.set(k, v)]: entries of [src] win. *)
Definition setAll {V} (src dst : gmap string V) : gmap string V := src ∪ dst.

(** ** The steps of [processUpdatedRundown] that only read the caches *)

(** Lines 341-371: the ids to fetch.  The first loop adds every listed id
    that has no cached iNews data; when the playlist is known, the second
    adds every listed id that has no entry in [segments] or whose cached
    locator differs from the listed one. *)
Definition uncachedINewsData (w : RundownWatcher) (playlistId : PlaylistId)
    (playlist : ReducedRundown) : list SegmentId :=
  let uncached :=
    addWhere (fun s => bool_decide (cachedINewsData w !! rs_externalId s = None))
             rs_externalId (rr_segments playlist) [] in
  match playlists w !! playlistId with
  | Some cachedPlaylist =>
      addWhere (fun segment =>
                  match segments w !! rs_externalId segment with
                  | None => true
                  | Some cachedSegment =>
                      bool_decide (rs_locator cachedSegment <> rs_locator segment)
                  end)
               rs_externalId (rr_segments playlist) uncached
  | None => uncached
  end.

(** The stale ids as the specification words them: the listed ids that
    are not in the iNews data cache, or whose listed locator differs from
    the cached one. *)
Definition staleBySpec (w : RundownWatcher) (playlist : ReducedRundown) : list SegmentId :=
  map rs_externalId
    (List.filter
       (fun s => match cachedINewsData w !! rs_externalId s with
                 | None => true
                 | Some cached => bool_decide (us_locator cached <> rs_locator s)
                 end)
       (rr_segments playlist)).

(** Lines 384-397. *)
Definition segmentsToResolve (cache : gmap string UnrankedSegment)
    (playlist : ReducedRundown) : list UnrankedSegment :=
  omap (fun s => cache !! rs_externalId s) (rr_segments playlist).

Definition segmentsToResolve_errors (cache : gmap string UnrankedSegment)
    (playlistId : PlaylistId) (playlist : ReducedRundown) : list LogEntry :=
  rr_segments playlist ≫= fun s =>
    match cache !! rs_externalId s with
    | None => [ErrNoINewsDataInRundown (rs_externalId s) playlistId]
    | Some _ => []
    end.

(** Lines 400-405: an empty resolution becomes one empty rundown. *)
Definition orEmptyRundown (playlistId : PlaylistId)
    (playlistAssignments : list ResolvedRundown) : list ResolvedRundown :=
  match playlistAssignments with
  | [] => [ {| rundownId := playlistId +:+ "_1"; res_segments := []; backTime := None |} ]
  | _ :: _ => playlistAssignments
  end.

(** Lines 410-424: which Core caches to ask for.  A rundown whose id is in
    [skipCacheForRundown] loses the flag and is not asked for. *)
Fixpoint planIngestCache (skip : gset string) (uncached : list SegmentId)
    (playlistAssignments : list ResolvedRundown)
  : gset string * list (RundownId * list SegmentId) :=
  match playlistAssignments with
  | [] => (skip, [])
  | rundown :: rest =>
      if decide (rundownId rundown ∈ skip) then
        planIngestCache (skip ∖ {[rundownId rundown]}) uncached rest
      else
        let segmentsToFetch :=
          filter (fun segmentId => segmentId ∈ uncached) (res_segments rundown) in
        let r := planIngestCache skip uncached rest in
        (r.1, (rundownId rundown, segmentsToFetch) :: r.2)
  end.

(** Lines 426-434: [Promise.all], then the answers merged in order. *)
Definition fetchIngestCache (io : Collaborators)
    (calls : list (RundownId * list SegmentId))
  : option (gmap string RundownSegment) :=
  ingestCacheList ← mapM (fun c => GetSegmentsCacheById io c.1 c.2) calls;
  Some (foldl (fun ingestCacheData cache => setAll cache ingestCacheData) ∅ ingestCacheList).

(** Lines 438-472. *)
Definition assignRundown (cache : gmap string UnrankedSegment) (version : string)
    (playlistRundown : ResolvedRundown) : INewsRundown :=
  {| inr_externalId := rundownId playlistRundown;
     inr_name := rundownId playlistRundown;
     inr_gatewayVersion := version;
     inr_segments :=
       omap (fun segmentId =>
               iNewsData ← cache !! segmentId;
               Some (mkRundownSegment (rundownId playlistRundown)
                       (us_iNewsStory iNewsData) (us_modified iNewsData)
                       (us_locator iNewsData) segmentId 0 (us_name iNewsData)))
            (res_segments playlistRundown);
     inr_backTime := backTime playlistRundown |}.

Definition assignRundown_errors (cache : gmap string UnrankedSegment)
    (playlistRundown : ResolvedRundown) : list LogEntry :=
  res_segments playlistRundown ≫= fun segmentId =>
    match cache !! segmentId with
    | None => [ErrFailedToAssign segmentId (rundownId playlistRundown)]
    | Some _ => []
    end.

(** Lines 489-499: the three things the loop over the rank assigner's
    answer updates. *)
Definition collectAssignedRanks (segmentRanks : list RundownRanks) : gmap string Q :=
  foldl (fun assignedRanks rundown => setAll (rk_assignedRanks rundown) assignedRanks)
        ∅ segmentRanks.

Definition recordForcedRecalculations (t : Z) (segmentRanks : list RundownRanks)
    (last : gmap string Z) : gmap string Z :=
  foldl (fun acc rundown =>
           if rk_recalculatedAsIntegers rundown then <[rk_rundownId rundown := t]> acc
           else acc)
        last segmentRanks.

Definition updatePreviousRanks (rundownId : RundownId) (segs : gmap string Q)
    (previous : gmap string (gmap string SegmentRankingsInner))
  : gmap string (gmap string SegmentRankingsInner) :=
  <[rundownId := mkSegmentRankingsInner <$> segs]> previous.

Definition recordPreviousRanks (segmentRanks : list RundownRanks)
    (previous : gmap string (gmap string SegmentRankingsInner))
  : gmap string (gmap string SegmentRankingsInner) :=
  foldl (fun acc rundown =>
           updatePreviousRanks (rk_rundownId rundown) (rk_assignedRanks rundown) acc)
        previous segmentRanks.

(** Lines 501-523: the change list split by type. *)
Definition deletedRundownsOf (changes : list PlaylistChange) : list RundownId :=
  omap (fun f => match f with PlaylistChangeRundownDeleted r => Some r | _ => None end) changes.
Definition createdRundownsOf (changes : list PlaylistChange) : list RundownId :=
  omap (fun f => match f with PlaylistChangeRundownCreated r => Some r | _ => None end) changes.
Definition updatedRundownsOf (changes : list PlaylistChange) : list RundownId :=
  omap (fun f => match f with PlaylistChangeRundownUpdated r => Some r | _ => None end) changes.
Definition changedSegmentsOf (changes : list PlaylistChange) : list SegmentChange :=
  omap (fun f => match f with
                 | PlaylistChangeSegmentChanged r s => Some (mkSegmentChange r s)
                 | _ => None end) changes.
Definition deletedSegmentsOf (changes : list PlaylistChange) : list SegmentChange :=
  omap (fun f => match f with
                 | PlaylistChangeSegmentDeleted r s => Some (mkSegmentChange r s)
                 | _ => None end) changes.
Definition createdSegmentsOf (changes : list PlaylistChange) : list SegmentChange :=
  omap (fun f => match f with
                 | PlaylistChangeSegmentCreated r s => Some (mkSegmentChange r s)
                 | _ => None end) changes.
Definition movedSegmentsOf (changes : list PlaylistChange) : list SegmentChange :=
  omap (fun f => match f with
                 | PlaylistChangeSegmentMoved r s => Some (mkSegmentChange r s)
                 | _ => None end) changes.

(** ** Emission (lines 536-684) *)

(** The four segment-level lists that the rundown-level loops narrow. *)
Record Pending := mkPending {
  playlistChangedSegments : list SegmentChange;
  playlistDeletedSegment : list SegmentChange;
  playlistCreatedSegments : list SegmentChange;
  playlistMovedSegments : list SegmentChange;
}.

(** [list.filter((s) => s.rundownExternalId !== id)] *)
Definition notOfRundown (id : RundownId) (l : list SegmentChange) : list SegmentChange :=
  filter (fun s => rundownExternalId s <> id) l.

(** Lines 536-543. *)
Fixpoint emitDeletedRundowns (deleted : list RundownId) (p : Pending)
  : list Event * Pending :=
  match deleted with
  | [] => ([], p)
  | rundown :: rest =>
      let r := emitDeletedRundowns rest
        {| playlistChangedSegments := notOfRundown rundown (playlistChangedSegments p);
           playlistDeletedSegment := notOfRundown rundown (playlistDeletedSegment p);
           playlistCreatedSegments := notOfRundown rundown (playlistCreatedSegments p);
           playlistMovedSegments := notOfRundown rundown (playlistMovedSegments p) |} in
      (rundown_delete rundown :: r.1, r.2)
  end.

(** Lines 545-547. *)
Definition emitDeletedSegments (l : list SegmentChange) : list Event :=
  map (fun segment => segment_delete (rundownExternalId segment) (segmentExternalId segment)) l.

(** The fallback of lines 631-635, 653-657 and 671-675:
    [rank = cachedData?.rank ?? 0]. *)
Definition fallbackRank (ingestCacheData : gmap string RundownSegment)
    (segmentId : SegmentId) : Q :=
  match ingestCacheData !! segmentId with
  | Some cachedData => seg_rank cachedData
  | None => 0
  end.

Definition rankFor (assignedRanks : gmap string Q)
    (ingestCacheData : gmap string RundownSegment) (segmentId : SegmentId) : Q :=
  match assignedRanks !! segmentId with
  | Some rank => rank
  | None => fallbackRank ingestCacheData segmentId
  end.

Definition rankFor_errors (assignedRanks : gmap string Q) (segmentId : SegmentId)
  : list LogEntry :=
  match assignedRanks !! segmentId with
  | Some _ => []
  | None => [ErrCouldNotAssignRank segmentId]
  end.

(** Lines 729-748. *)
Definition inewsToIngestSegment (rundownId : RundownId) (segmentId : SegmentId)
    (inews : UnrankedSegment) (rank : Q) : IngestSegment :=
  {| is_externalId := segmentId;
     is_name := us_name inews;
     is_rank := rank;
     is_payload :=
       {| ms_modified := us_modified inews;
          ms_locator := us_locator inews;
          ms_rundownId := rundownId;
          ms_iNewsStory := us_iNewsStory inews;
          ms_float := truthy (meta_float (us_iNewsStory inews)) |} |}.

(** Lines 619-639 and 641-661: one loop body for both, [emit] being
    [emitSegmentUpdated] or [emitSegmentCreated]. *)
Definition emitSegment (emit : RundownId -> SegmentId -> IngestSegment -> Event)
    (inewsCache : gmap string UnrankedSegment) (assignedRanks : gmap string Q)
    (ingestCacheData : gmap string RundownSegment) (change : SegmentChange)
  : list Event :=
  let segmentId := segmentExternalId change in
  let rundownId := rundownExternalId change in
  match inewsCache !! segmentId with
  | None => []
  | Some inews =>
      let segment :=
        inewsToIngestSegment rundownId segmentId inews
          (rankFor assignedRanks ingestCacheData segmentId) in
      [emit rundownId (is_externalId segment) segment]
  end.

Definition emitSegment_errors (missing : SegmentId -> LogEntry)
    (inewsCache : gmap string UnrankedSegment) (assignedRanks : gmap string Q)
    (change : SegmentChange) : list LogEntry :=
  let segmentId := segmentExternalId change in
  match inewsCache !! segmentId with
  | None => [missing segmentId]
  | Some _ => rankFor_errors assignedRanks segmentId
  end.

(** [object[key] = value] on a plain object, for a number [value].  The
    key [__proto__] names the accessor of [Object.prototype], whose setter
    ignores a value that is neither an object nor [null]: the assignment
    stores nothing.  Every other key names no accessor, and the assignment
    creates or overwrites an own property.  The object is modelled by its
    own properties. *)
Definition objectSet (key : string) (value : Q) (object : gmap string Q)
  : gmap string Q :=
  if String.eqb key "__proto__" then object else <[key := value]> object.

(** Lines 663-680: the ranks of the moved segments, grouped by rundown in a
    [Map] from rundown id to a plain object ([... ?? {}]), which line 678
    writes with [rundownRanks[segmentId] = rank]. *)
Definition collectMovedRanks (assignedRanks : gmap string Q)
    (ingestCacheData : gmap string RundownSegment) (moved : list SegmentChange)
  : list (string * gmap string Q) :=
  foldl (fun updatedRanks movedSegment =>
           let segmentId := segmentExternalId movedSegment in
           let rundownId := rundownExternalId movedSegment in
           let rank := rankFor assignedRanks ingestCacheData segmentId in
           let rundownRanks := default ∅ (mapGet rundownId updatedRanks) in
           mapSet rundownId (objectSet segmentId rank rundownRanks) updatedRanks)
        [] moved.

(** Lines 682-684. *)
Definition emitUpdatedRanks (updatedRanks : list (string * gmap string Q)) : list Event :=
  map (fun e => segment_ranks_update e.1 e.2) updatedRanks.

(** ** Helpers outside the watcher

    The playlist resolver, the differ with its opaque per-rundown
    [segmentChanges], the rank assigner and the constant
    [INGEST_RUNDOWN_TYPE] are defined elsewhere in the gateway.  The watcher
    is verified for any value of them. *)
Record Helpers := mkHelpers {
  SegmentChanges : Type;
  ResolveRundownIntoPlaylist :
    PlaylistId -> list UnrankedSegment -> list ResolvedRundown;
  DiffPlaylist :
    list INewsRundown -> list INewsRundown -> list PlaylistChange * SegmentChanges;
  AssignRanksToSegments :
    list ResolvedRundown -> list PlaylistChange -> SegmentChanges ->
    gmap string (gmap string SegmentRankingsInner) -> gmap string Z -> list RundownRanks;
  INGEST_RUNDOWN_TYPE : string;
}.

Section Watcher.

Variable h : Helpers.

(** Lines 687-727.  A segment without iNews data or without a rank is
    dropped from the rundown. *)
Definition playlistRundownToIngestRundown (playlistId : PlaylistId)
    (rundownId : RundownId) (segs : list SegmentId)
    (inewsCache : gmap string UnrankedSegment) (ranks : gmap string Q)
    (backTime : option string) : IngestRundown :=
  {| ir_externalId := rundownId;
     ir_name := playlistId;
     ir_type := INGEST_RUNDOWN_TYPE h;
     ir_segments :=
       omap (fun segmentId =>
               match inewsCache !! segmentId, ranks !! segmentId with
               | Some inews, Some rank =>
                   Some (inewsToIngestSegment rundownId segmentId inews rank)
               | _, _ => None
               end) segs;
     ir_playlistExternalId := playlistId;
     ir_backTime := backTime |}.

Definition playlistRundownToIngestRundown_errors (rundownId : RundownId)
    (segs : list SegmentId) (inewsCache : gmap string UnrankedSegment)
    (ranks : gmap string Q) : list LogEntry :=
  segs ≫= fun segmentId =>
    (if inewsCache !! segmentId is None then [ErrNoINewsDataFor segmentId] else [])
    ++ (match ranks !! segmentId with
        | None => [ErrNoRankDataFor segmentId]
        | Some rank => if Qeq_bool rank 0 then [ErrNoRankDataFor segmentId] else []
        end)
    ++ (match inewsCache !! segmentId, ranks !! segmentId with
        | Some _, Some _ => []
        | _, _ => [ErrDroppingSegment segmentId rundownId]
        end).

(** Lines 549-583 and 585-617: one loop for both, [emit] being
    [emitRundownCreated] or [emitRundownUpdated].  A rundown that is not
    among the assignments is logged and skipped, and then narrows
    nothing. *)
Fixpoint emitRundowns (emit : IngestRundown -> Event) (playlistId : PlaylistId)
    (playlistAssignments : list ResolvedRundown)
    (inewsCache : gmap string UnrankedSegment) (assignedRanks : gmap string Q)
    (ids : list RundownId) (p : Pending) : list Event * list LogEntry * Pending :=
  match ids with
  | [] => ([], [], p)
  | id :: rest =>
      match List.find (fun r => bool_decide (rundownId r = id)) playlistAssignments with
      | None =>
          let r := emitRundowns emit playlistId playlistAssignments inewsCache
                     assignedRanks rest p in
          (r.1.1, ErrNoSegmentsForRundown id :: r.1.2, r.2)
      | Some assignedRundown =>
          let rundown :=
            playlistRundownToIngestRundown playlistId (rundownId assignedRundown)
              (res_segments assignedRundown) inewsCache assignedRanks
              (backTime assignedRundown) in
          let r := emitRundowns emit playlistId playlistAssignments inewsCache
                     assignedRanks rest
            {| playlistChangedSegments := notOfRundown id (playlistChangedSegments p);
               playlistDeletedSegment := playlistDeletedSegment p;
               playlistCreatedSegments := notOfRundown id (playlistCreatedSegments p);
               playlistMovedSegments := notOfRundown id (playlistMovedSegments p) |} in
          (emit rundown :: r.1.1,
           playlistRundownToIngestRundown_errors (rundownId assignedRundown)
             (res_segments assignedRundown) inewsCache assignedRanks ++ r.1.2,
           r.2)
      end
  end.

Definition emitRundownCreated (rundown : IngestRundown) : Event :=
  rundown_create (ir_externalId rundown) rundown.
Definition emitRundownUpdated (rundown : IngestRundown) : Event :=
  rundown_update (ir_externalId rundown) rundown.

(** What the first half of [processUpdatedRundown] hands to the emission
    loops once every cache is updated. *)
Record Prepared := mkPrepared {
  pr_watcher : RundownWatcher;
  pr_playlistAssignments : list ResolvedRundown;
  pr_ingestCacheData : gmap string RundownSegment;
  pr_changes : list PlaylistChange;
  pr_assignedRanks : gmap string Q;
  pr_errors : list LogEntry;
  pr_requests : list Request;
}.

Definition pendingOf (changes : list PlaylistChange) : Pending :=
  {| playlistChangedSegments := changedSegmentsOf changes;
     playlistDeletedSegment := deletedSegmentsOf changes;
     playlistCreatedSegments := createdSegmentsOf changes;
     playlistMovedSegments := movedSegmentsOf changes |}.

(** The state of the loops after each rundown-level phase. *)
Definition afterDeleted (p : Prepared) : list Event * Pending :=
  emitDeletedRundowns (deletedRundownsOf (pr_changes p)) (pendingOf (pr_changes p)).

Definition afterCreated (playlistId : PlaylistId) (p : Prepared)
  : list Event * list LogEntry * Pending :=
  emitRundowns emitRundownCreated playlistId (pr_playlistAssignments p)
    (cachedINewsData (pr_watcher p)) (pr_assignedRanks p)
    (createdRundownsOf (pr_changes p)) (afterDeleted p).2.

Definition afterUpdated (playlistId : PlaylistId) (p : Prepared)
  : list Event * list LogEntry * Pending :=
  emitRundowns emitRundownUpdated playlistId (pr_playlistAssignments p)
    (cachedINewsData (pr_watcher p)) (pr_assignedRanks p)
    (updatedRundownsOf (pr_changes p)) (afterCreated playlistId p).2.

(** The segment-level changes that are left for the segment loops. *)
Definition remaining (playlistId : PlaylistId) (p : Prepared) : Pending :=
  (afterUpdated playlistId p).2.

Definition emitChanges (playlistId : PlaylistId) (p : Prepared) : list Event :=
  let inews := cachedINewsData (pr_watcher p) in
  let left := remaining playlistId p in
  (afterDeleted p).1
  ++ emitDeletedSegments (playlistDeletedSegment (afterDeleted p).2)
  ++ (afterCreated playlistId p).1.1
  ++ (afterUpdated playlistId p).1.1
  ++ (playlistChangedSegments left ≫=
        emitSegment segment_update inews (pr_assignedRanks p) (pr_ingestCacheData p))
  ++ (playlistCreatedSegments left ≫=
        emitSegment segment_create inews (pr_assignedRanks p) (pr_ingestCacheData p))
  ++ emitUpdatedRanks
       (collectMovedRanks (pr_assignedRanks p) (pr_ingestCacheData p)
          (playlistMovedSegments left)).

Definition emitChanges_errors (playlistId : PlaylistId) (p : Prepared) : list LogEntry :=
  let inews := cachedINewsData (pr_watcher p) in
  let left := remaining playlistId p in
  (afterCreated playlistId p).1.2
  ++ (afterUpdated playlistId p).1.2
  ++ (playlistChangedSegments left ≫=
        emitSegment_errors ErrSegmentChangeWithoutData inews (pr_assignedRanks p))
  ++ (playlistCreatedSegments left ≫=
        emitSegment_errors ErrCreatedSegmentWithoutData inews (pr_assignedRanks p))
  ++ (playlistMovedSegments left ≫=
        fun s => rankFor_errors (pr_assignedRanks p) (segmentExternalId s)).

(** ** [processUpdatedRundown] *)

(** Lines 399-405: the resolver's answer, or one empty rundown. *)
Definition resolveAssignments (playlistId : PlaylistId)
    (inewsCache : gmap string UnrankedSegment) (playlist : ReducedRundown)
  : list ResolvedRundown :=
  orEmptyRundown playlistId
    (ResolveRundownIntoPlaylist h playlistId (segmentsToResolve inewsCache playlist)).

Inductive PrepareResult :=
| Thrown (w : RundownWatcher) (errors : list LogEntry) (requests : list Request)
| Ready (p : Prepared).

(** Lines 341-534: fetch what is stale, resolve, diff, rank and update the
    caches.  A rejected fetch throws out of [processUpdatedRundown] with
    the caches as they are at that point. *)
Definition prepare (w : RundownWatcher) (io : Collaborators)
    (playlistId : PlaylistId) (playlist : ReducedRundown) : PrepareResult :=
  let uncached := uncachedINewsData w playlistId playlist in
  let fetch := ReqFetchINewsStoriesById playlistId uncached in
  match fetchINewsStoriesById io playlistId uncached with
  | None => Thrown w [] [fetch]
  | Some iNewsData =>
      let inews := setAll iNewsData (cachedINewsData w) in
      let errors1 := segmentsToResolve_errors inews playlistId playlist in
      let playlistAssignments := resolveAssignments playlistId inews playlist in
      let plan := planIngestCache (skipCacheForRundown w) uncached playlistAssignments in
      let requests :=
        fetch :: map (fun c => ReqGetSegmentsCacheById c.1 c.2) plan.2 in
      match fetchIngestCache io plan.2 with
      | None =>
          Thrown
            {| gatewayVersion := gatewayVersion w;
               iNewsQueue := iNewsQueue w;
               previousRanks := previousRanks w;
               lastForcedRankRecalculation := lastForcedRankRecalculation w;
               cachedINewsData := inews;
               cachedPlaylistAssignments := cachedPlaylistAssignments w;
               cachedAssignedRundowns := cachedAssignedRundowns w;
               skipCacheForRundown := plan.1;
               playlists := playlists w;
               rundowns := rundowns w;
               segments := segments w |}
            errors1 requests
      | Some ingestCacheData =>
          let assignedRundowns :=
            map (assignRundown inews (gatewayVersion w)) playlistAssignments in
          let errors2 := playlistAssignments ≫= assignRundown_errors inews in
          let diff :=
            DiffPlaylist h assignedRundowns
              (default [] (cachedAssignedRundowns w !! playlistId)) in
          let segmentRanks :=
            AssignRanksToSegments h playlistAssignments diff.1 diff.2
              (previousRanks w) (lastForcedRankRecalculation w) in
          Ready
            {| pr_watcher :=
                 {| gatewayVersion := gatewayVersion w;
                    iNewsQueue := iNewsQueue w;
                    previousRanks := recordPreviousRanks segmentRanks (previousRanks w);
                    lastForcedRankRecalculation :=
                      recordForcedRecalculations (now io) segmentRanks
                        (lastForcedRankRecalculation w);
                    cachedINewsData := inews;
                    cachedPlaylistAssignments :=
                      <[playlistId := playlistAssignments]> (cachedPlaylistAssignments w);
                    cachedAssignedRundowns :=
                      <[playlistId := assignedRundowns]> (cachedAssignedRundowns w);
                    skipCacheForRundown := plan.1;
                    playlists :=
                      <[playlistId := map rundownId playlistAssignments]> (playlists w);
                    rundowns :=
                      foldl (fun acc rundown =>
                               <[rundownId rundown := res_segments rundown]> acc)
                            (rundowns w) playlistAssignments;
                    segments :=
                      foldl (fun acc segment => <[rs_externalId segment := segment]> acc)
                            (segments w) (rr_segments playlist) |};
               pr_playlistAssignments := playlistAssignments;
               pr_ingestCacheData := ingestCacheData;
               pr_changes := diff.1;
               pr_assignedRanks := collectAssignedRanks segmentRanks;
               pr_errors := errors1 ++ errors2;
               pr_requests := requests |}
      end
  end.

(** What a call leaves behind. *)
Record Outcome := mkOutcome {
  out_watcher : RundownWatcher;
  out_events : list Event;
  out_errors : list LogEntry;
  out_requests : list Request;
  out_failed : bool;
}.

Definition processUpdatedRundown (w : RundownWatcher) (io : Collaborators)
    (playlistId : PlaylistId) (playlist : ReducedRundown) : Outcome :=
  match prepare w io playlistId playlist with
  | Thrown w' errors requests =>
      {| out_watcher := w'; out_events := []; out_errors := errors;
         out_requests := requests; out_failed := true |}
  | Ready p =>
      {| out_watcher := pr_watcher p;
         out_events := emitChanges playlistId p;
         out_errors := pr_errors p ++ emitChanges_errors playlistId p;
         out_requests := pr_requests p;
         out_failed := false |}
  end.

(** ** The poll *)

(** Lines 326-338.  A listing of another gateway version is returned
    untouched; whatever [processUpdatedRundown] throws is caught and
    logged.  Only a rejected download rejects the check. *)
Definition checkINewsRundownById (w : RundownWatcher) (io : Collaborators)
    (rundownId : string) : Outcome :=
  match downloadRundown io rundownId with
  | None =>
      {| out_watcher := w; out_events := []; out_errors := [];
         out_requests := [ReqDownloadRundown rundownId]; out_failed := true |}
  | Some rundown =>
      if decide (rr_gatewayVersion rundown = gatewayVersion w) then
        let o := processUpdatedRundown w io (rr_externalId rundown) rundown in
        {| out_watcher := out_watcher o;
           out_events := out_events o;
           out_errors :=
             out_errors o ++
             (if out_failed o then [ErrProcessingFailed (rr_externalId rundown)] else []);
           out_requests := ReqDownloadRundown rundownId :: out_requests o;
           out_failed := false |}
      else
        {| out_watcher := w; out_events := []; out_errors := [];
           out_requests := [ReqDownloadRundown rundownId]; out_failed := false |}
  end.

(** Lines 320-324: the queues one after the other; the first rejected
    check ends the loop. *)
Fixpoint checkQueues (w : RundownWatcher) (io : Collaborators)
    (qs : list INewsQueue) : Outcome :=
  match qs with
  | [] =>
      {| out_watcher := w; out_events := []; out_errors := [];
         out_requests := []; out_failed := false |}
  | queue :: rest =>
      let o := checkINewsRundownById w io (queues queue) in
      if out_failed o then o
      else
        let o' := checkQueues (out_watcher o) io rest in
        {| out_watcher := out_watcher o';
           out_events := out_events o ++ out_events o';
           out_errors := out_errors o ++ out_errors o';
           out_requests := out_requests o ++ out_requests o';
           out_failed := out_failed o' |}
  end.

Definition checkINewsRundowns (w : RundownWatcher) (io : Collaborators) : Outcome :=
  checkQueues w io (iNewsQueue w).

(** Lines 236-260: one cycle and the status it reports to Core. *)
Record Cycle := mkCycle {
  cy_check : Outcome;
  cy_errors : list LogEntry;
  cy_status : list (StatusCode * list string);
}.

Definition watch (w : RundownWatcher) (io : Collaborators) : Cycle :=
  let o := checkINewsRundowns w io in
  if out_failed o then
    {| cy_check := o;
       cy_errors := [ErrCheckFailed];
       cy_status := [(WARNING_MAJOR, ["Check INews rundows failed"])] |}
  else
    {| cy_check := o;
       cy_errors := if (0 <? queueLength io)%nat then [ErrQueueLength (queueLength io)] else [];
       cy_status := if isConnected io then [(GOOD, [])] else [] |}.

End Watcher.

(** ** Scenarios

    Concrete queues, collaborators and helpers on which the properties
    below are exercised.  The helpers are scripted: they return the
    resolution, the change list and the ranks they are built with. *)
Module Scenario.

Definition listed (id locator : string) : ReducedSegment :=
  {| rs_externalId := id; rs_modified := 0; rs_rank := 0; rs_name := id;
     rs_locator := locator |}.

Definition story (id locator : string) : UnrankedSegment :=
  {| us_externalId := id; us_rundownId := ""; us_name := id; us_modified := 0;
     us_locator := locator;
     us_iNewsStory := {| meta_float := None; story_body := id |} |}.

Definition listing (queue version : string) (segs : list ReducedSegment) : ReducedRundown :=
  {| rr_externalId := queue; rr_name := queue; rr_gatewayVersion := version;
     rr_segments := segs |}.

(** A watcher that has not polled yet. *)
Definition fresh (version : string) (qs : list string) : RundownWatcher :=
  {| gatewayVersion := version;
     iNewsQueue := map mkINewsQueue qs;
     previousRanks := ∅;
     lastForcedRankRecalculation := ∅;
     cachedINewsData := ∅;
     cachedPlaylistAssignments := ∅;
     cachedAssignedRundowns := ∅;
     skipCacheForRundown := ∅;
     playlists := ∅;
     rundowns := ∅;
     segments := ∅ |}.

(** An NRCS that lists [segs] with [version] in every queue and holds
    [stories], and a Core that has nothing cached. *)
Definition nrcs (version : string) (segs : list ReducedSegment)
    (stories : list UnrankedSegment) (connected : bool) : Collaborators :=
  {| downloadRundown := fun queue => Some (listing queue version segs);
     fetchINewsStoriesById := fun _ ids =>
       Some (list_to_map
               (omap (fun s => if decide (us_externalId s ∈ ids)
                               then Some (us_externalId s, s) else None) stories));
     GetSegmentsCacheById := fun _ _ => Some ∅;
     queueLength := 0;
     isConnected := connected;
     now := 0 |}.

(** The same collaborators with Core rejecting every request. *)
Definition coreDown (io : Collaborators) : Collaborators :=
  {| downloadRundown := downloadRundown io;
     fetchINewsStoriesById := fetchINewsStoriesById io;
     GetSegmentsCacheById := fun _ _ => None;
     queueLength := queueLength io;
     isConnected := isConnected io;
     now := now io |}.

Definition scripted (assignments : list ResolvedRundown) (changes : list PlaylistChange)
    (ranks : list RundownRanks) : Helpers :=
  {| SegmentChanges := unit;
     ResolveRundownIntoPlaylist := fun _ _ => assignments;
     DiffPlaylist := fun _ _ => (changes, tt);
     AssignRanksToSegments := fun _ _ _ _ _ => ranks;
     INGEST_RUNDOWN_TYPE := "inews" |}.

Definition rundownOf (id : string) (segs : list string) : ResolvedRundown :=
  {| rundownId := id; res_segments := segs; backTime := None |}.

(** Cold start of queue [Q] with the segments [A] and [B] in one rundown. *)
Definition coldStart : Helpers :=
  scripted [rundownOf "Q_1" ["A"; "B"]]
    [PlaylistChangeRundownCreated "Q_1";
     PlaylistChangeSegmentCreated "Q_1" "A"; PlaylistChangeSegmentCreated "Q_1" "B"]
    [ {| rk_rundownId := "Q_1";
         rk_assignedRanks := {[ "A" := 1%Q; "B" := 2%Q ]};
         rk_recalculatedAsIntegers := true |} ].

Definition twoSegments : list ReducedSegment := [listed "A" "L1"; listed "B" "L1"].
Definition twoStories : list UnrankedSegment := [story "A" "L1"; story "B" "L1"].

Definition afterColdStart : RundownWatcher :=
  out_watcher
    (processUpdatedRundown coldStart (fresh "v" ["Q"])
       (nrcs "v" twoSegments twoStories true) "Q" (listing "Q" "v" twoSegments)).

(** The two segments swap places. *)
Definition swapped : Helpers :=
  scripted [rundownOf "Q_1" ["B"; "A"]]
    [PlaylistChangeSegmentMoved "Q_1" "A"; PlaylistChangeSegmentMoved "Q_1" "B"]
    [ {| rk_rundownId := "Q_1";
         rk_assignedRanks := {[ "A" := 2%Q; "B" := 1%Q ]};
         rk_recalculatedAsIntegers := false |} ].

(** The same swap, and the rank assigner gives no rank at all. *)
Definition swappedUnranked : Helpers :=
  scripted [rundownOf "Q_1" ["B"; "A"]]
    [PlaylistChangeSegmentMoved "Q_1" "A"; PlaylistChangeSegmentMoved "Q_1" "B"]
    [].

(** A marker on [B] opens a second rundown while the story of [A] changes. *)
Definition splitAtB : Helpers :=
  scripted [rundownOf "Q_1" ["A"]; rundownOf "Q_2" ["B"]]
    [PlaylistChangeSegmentDeleted "Q_1" "B";
     PlaylistChangeRundownCreated "Q_2"; PlaylistChangeSegmentCreated "Q_2" "B";
     PlaylistChangeSegmentChanged "Q_1" "A"]
    [ {| rk_rundownId := "Q_1"; rk_assignedRanks := {[ "A" := 1%Q ]};
         rk_recalculatedAsIntegers := false |};
      {| rk_rundownId := "Q_2"; rk_assignedRanks := {[ "B" := 1%Q ]};
         rk_recalculatedAsIntegers := false |} ].

Definition changedA : list ReducedSegment := [listed "A" "L2"; listed "B" "L1"].
Definition changedStories : list UnrankedSegment := [story "A" "L2"; story "B" "L1"].

(** Cold start of [Q] with [A] only, the rank assigner giving no rank. *)
Definition coldStartUnranked : Helpers :=
  scripted [rundownOf "Q_1" ["A"]]
    [PlaylistChangeRundownCreated "Q_1"; PlaylistChangeSegmentCreated "Q_1" "A"]
    [].

(** An empty queue. *)
Definition emptyQueue : Helpers := scripted [] [PlaylistChangeRundownCreated "Q_1"] [].

(** The two events of that poll that are not deletes. *)
Definition createOfQ2 : Event :=
  rundown_create "Q_2"
    {| ir_externalId := "Q_2"; ir_name := "Q"; ir_type := "inews";
       ir_segments := [inewsToIngestSegment "Q_2" "B" (story "B" "L1") 1];
       ir_playlistExternalId := "Q"; ir_backTime := None |}.

Definition updateOfA : Event :=
  segment_update "Q_1" "A" (inewsToIngestSegment "Q_1" "A" (story "A" "L2") 1).

(** A third segment [C] arrives while Core is down: its story is fetched
    and cached, and the poll is given up before [segments] is written. *)
Definition threeSegments : list ReducedSegment :=
  [listed "A" "L1"; listed "B" "L1"; listed "C" "L1"].
Definition threeStories : list UnrankedSegment :=
  [story "A" "L1"; story "B" "L1"; story "C" "L1"].

Definition insertedC : Helpers :=
  scripted [rundownOf "Q_1" ["A"; "B"; "C"]]
    [PlaylistChangeSegmentCreated "Q_1" "C"]
    [ {| rk_rundownId := "Q_1"; rk_assignedRanks := {[ "C" := 3%Q ]};
         rk_recalculatedAsIntegers := false |} ].

Definition afterCoreDown : RundownWatcher :=
  out_watcher
    (processUpdatedRundown insertedC afterColdStart
       (coreDown (nrcs "v" threeSegments threeStories true)) "Q"
       (listing "Q" "v" threeSegments)).

(** A second queue [P] that lists the story [A] of queue [Q] under a new
    locator. *)
Definition otherQueue : ReducedRundown := listing "P" "v" [listed "A" "L2"].

Definition coldStartOfP : Helpers :=
  scripted [rundownOf "P_1" ["A"]]
    [PlaylistChangeRundownCreated "P_1"; PlaylistChangeSegmentCreated "P_1" "A"]
    [ {| rk_rundownId := "P_1"; rk_assignedRanks := {[ "A" := 1%Q ]};
         rk_recalculatedAsIntegers := true |} ].

(** A queue that holds a story with the identifier [__proto__] between
    [A] and [B]. *)
Definition protoSegments : list ReducedSegment :=
  [listed "A" "L1"; listed "__proto__" "L1"; listed "B" "L1"].
Definition protoStories : list UnrankedSegment :=
  [story "A" "L1"; story "__proto__" "L1"; story "B" "L1"].

Definition coldStartProto : Helpers :=
  scripted [rundownOf "Q_1" ["A"; "__proto__"; "B"]]
    [PlaylistChangeRundownCreated "Q_1";
     PlaylistChangeSegmentCreated "Q_1" "A";
     PlaylistChangeSegmentCreated "Q_1" "__proto__";
     PlaylistChangeSegmentCreated "Q_1" "B"]
    [ {| rk_rundownId := "Q_1";
         rk_assignedRanks := {[ "A" := 1%Q; "__proto__" := 2%Q; "B" := 3%Q ]};
         rk_recalculatedAsIntegers := true |} ].

Definition afterColdStartProto : RundownWatcher :=
  out_watcher
    (processUpdatedRundown coldStartProto (fresh "v" ["Q"])
       (nrcs "v" protoSegments protoStories true) "Q" (listing "Q" "v" protoSegments)).

(** [A] and [B] swap places around it, and all three get new ranks. *)
Definition reorderedProto : Helpers :=
  scripted [rundownOf "Q_1" ["B"; "__proto__"; "A"]]
    [PlaylistChangeSegmentMoved "Q_1" "B";
     PlaylistChangeSegmentMoved "Q_1" "__proto__";
     PlaylistChangeSegmentMoved "Q_1" "A"]
    [ {| rk_rundownId := "Q_1";
         rk_assignedRanks := {[ "B" := 1%Q; "__proto__" := 2%Q; "A" := 3%Q ]};
         rk_recalculatedAsIntegers := false |} ].

Definition reorderedSegments : list ReducedSegment :=
  [listed "B" "L1"; listed "__proto__" "L1"; listed "A" "L1"].

End Scenario.

(** More collaborators and helpers for the scenarios. *)
Module MoreScenarios.
Import Scenario.

(** The same collaborators with iNews rejecting every story fetch. *)
Definition storiesDown (io : Collaborators) : Collaborators :=
  {| downloadRundown := downloadRundown io;
     fetchINewsStoriesById := fun _ _ => None;
     GetSegmentsCacheById := GetSegmentsCacheById io;
     queueLength := queueLength io;
     isConnected := isConnected io;
     now := now io |}.

(** The same collaborators with the download of one queue rejected. *)
Definition queueDown (queue : string) (io : Collaborators) : Collaborators :=
  {| downloadRundown := fun q => if decide (q = queue) then None else downloadRundown io q;
     fetchINewsStoriesById := fetchINewsStoriesById io;
     GetSegmentsCacheById := GetSegmentsCacheById io;
     queueLength := queueLength io;
     isConnected := isConnected io;
     now := now io |}.

(** The differ reports a change of a segment [Z] that no queue lists. *)
Definition changedUnknown : Helpers :=
  scripted [rundownOf "Q_1" ["A"; "B"]] [PlaylistChangeSegmentChanged "Q_1" "Z"] [].

Definition twoListed : ReducedRundown := listing "Q" "v" twoSegments.
Definition twoNrcs : Collaborators := nrcs "v" twoSegments twoStories true.

End MoreScenarios.

(** * The poll timer (RundownWatcher.ts, lines 224-283)

    The watcher keeps the handle of its timeout in [pollTimer].  The event
    loop is the set of timeouts that were set and have neither fired nor
    been cleared, with a counter for fresh handles. *)
Module PollTimer.

Record Timers := mkTimers {
  pollTimer : option nat;
  pending : gset nat;
  next : nat;
}.

(** [new RundownWatcher(..., delayStart = true)]: no timer yet. *)
Definition initial : Timers := {| pollTimer := None; pending := ∅; next := 0 |}.

(** Lines 274-279.  [clearInterval] on a handle that has fired does
    nothing. *)
Definition stopPollTimer (t : Timers) : Timers :=
  match pollTimer t with
  | Some handle =>
      {| pollTimer := None; pending := pending t ∖ {[handle]}; next := next t |}
  | None => t
  end.

(** Lines 269-272. *)
Definition startPollTimer (t : Timers) : Timers :=
  let t' := stopPollTimer t in
  {| pollTimer := Some (next t');
     pending := {[next t']} ∪ pending t';
     next := S (next t') |}.

(** Lines 265-267 and 281-283. *)
Definition stopWatcher (t : Timers) : Timers := stopPollTimer t.
Definition dispose (t : Timers) : Timers := stopWatcher t.

(** Lines 227-234. *)
Definition startWatcher (t : Timers) : Timers := startPollTimer (stopWatcher t).

(** Lines 205-222. *)
Definition construct (delayStart : bool) : Timers :=
  if delayStart then initial else startWatcher initial.

(** What can happen to the timers: the three public methods, a timeout
    firing, and the two ends of [watch] (line 237 when it is entered, line
    259 when the check has settled). *)
Inductive Op :=
| OpStartWatcher
| OpStopWatcher
| OpDispose
| OpFire (handle : nat)
| OpWatchEntered
| OpWatchSettled.

Definition apply (op : Op) (t : Timers) : Timers :=
  match op with
  | OpStartWatcher => startWatcher t
  | OpStopWatcher => stopWatcher t
  | OpDispose => dispose t
  | OpFire handle =>
      {| pollTimer := pollTimer t; pending := pending t ∖ {[handle]}; next := next t |}
  | OpWatchEntered => stopPollTimer t
  | OpWatchSettled => startPollTimer t
  end.

Definition run (ops : list Op) (t : Timers) : Timers :=
  foldl (fun acc op => apply op acc) t ops.

(** The only timeout that can be pending is the one the watcher holds. *)
Definition held (t : Timers) : Prop :=
  forall handle, handle ∈ pending t -> pollTimer t = Some handle.

End PollTimer.

(** * The watcher before playlists (the earlier RundownWatcher.ts)

    It polls a queue as one rundown: a helper computes ranks and changes,
    the rundown-level changes are emitted at once, and the updated and
    created segments are diffed against Core's cache. *)
Module Legacy.

(** [ReducedSegment = Pick<ISegment, externalId | modified | rank | name>] *)
Record ReducedSegment := mkReducedSegment {
  rs_externalId : string;
  rs_modified : Z;
  rs_rank : Q;
  rs_name : string;
}.

Record ReducedRundown := mkReducedRundown {
  rr_externalId : string;
  rr_name : string;
  rr_gatewayVersion : string;
  rr_segments : list ReducedSegment;
}.

(** [UnrankedSegment = Omit<ISegment, rank | float>] *)
Record UnrankedSegment := mkUnrankedSegment {
  us_rundownId : string;
  us_iNewsStory : INewsStory;
  us_modified : Z;
  us_externalId : string;
  us_name : string;
}.

(** [new RundownSegment(rundownId, iNewsStory, modified, externalId, rank, name)] *)
Record RundownSegment := mkRundownSegment {
  seg_rundownId : string;
  seg_iNewsStory : INewsStory;
  seg_modified : Z;
  seg_externalId : string;
  seg_rank : Q;
  seg_name : string;
}.

Inductive RundownChange :=
| RUNDOWN_CREATE (rundownExternalId : string)
| RUNDOWN_UPDATE (rundownExternalId : string)
| RUNDOWN_DELETE (rundownExternalId : string)
| SEGMENT_UPDATE (rundownExternalId : string) (segmentExternalId : string)
| SEGMENT_DELETE (rundownExternalId : string) (segmentExternalId : string)
| SEGMENT_CREATE (rundownExternalId : string) (segmentExternalId : string).

Inductive Event :=
| rundown_delete (rundownId : string)
| rundown_create (rundownId : string) (rundown : ReducedRundown)
| rundown_update (rundownId : string) (rundown : ReducedRundown)
| segment_delete (rundownId : string) (segmentId : string)
| segment_create (rundownId : string) (segmentId : string) (newSegment : RundownSegment)
| segment_update (rundownId : string) (segmentId : string) (newSegment : RundownSegment).

Inductive LogLine :=
| InfoOrphanedSegment (segmentId : string)
| InfoCreatingSegment (segmentId : string)
| ErrNotAssignedRank (segmentId : string).

Inductive Request :=
| ReqGetSegmentsCacheById (rundownId : string) (segmentIds : list string)
| ReqFetchINewsStoriesById (rundownId : string) (segmentIds : list string).

(** [RundownSegment.serialize] and the deep equality [_.isEqual] on its
    results; the class is defined outside the watcher. *)
Record Serializer := mkSerializer {
  Serialized : Type;
  serialize : RundownSegment -> Serialized;
  isEqual : Serialized -> Serialized -> bool;
  isEqual_spec : forall a b, isEqual a b = true <-> a = b;
}.

Record Collaborators := mkCollaborators {
  GetSegmentsCacheById : string -> list string -> option (gmap string RundownSegment);
  fetchINewsStoriesById : string -> list string -> option (gmap string UnrankedSegment);
}.

(** [processAndEmitRundownChanges]: the deletes first, then the rundown
    creates and updates, each group in the order of the change list. *)
Definition isDelete (change : RundownChange) : bool :=
  match change with
  | RUNDOWN_DELETE _ | SEGMENT_DELETE _ _ => true
  | _ => false
  end.

Definition isRundownUpdateOrCreate (change : RundownChange) : bool :=
  match change with
  | RUNDOWN_UPDATE _ | RUNDOWN_CREATE _ => true
  | _ => false
  end.

Definition emitDelete (update : RundownChange) : list Event :=
  match update with
  | RUNDOWN_DELETE r => [rundown_delete r]
  | SEGMENT_DELETE r s => [segment_delete r s]
  | _ => []
  end.

Definition emitRundownChange (rundown : ReducedRundown) (update : RundownChange)
  : list Event :=
  match update with
  | RUNDOWN_CREATE r => [rundown_create r rundown]
  | RUNDOWN_UPDATE r => [rundown_update r rundown]
  | _ => []
  end.

Definition processAndEmitRundownChanges (rundown : ReducedRundown)
    (changes : list RundownChange) : list Event :=
  (List.filter isDelete changes ≫= emitDelete)
  ++ (List.filter isRundownUpdateOrCreate changes ≫= emitRundownChange rundown).

(** [diffSegment] *)
Definition diffSegment (sz : Serializer) (rundownId segmentId : string)
    (iNewsData : option UnrankedSegment) (cachedData : option RundownSegment)
    (newRank : Q) : list Event * list LogLine :=
  match iNewsData with
  | None => ([], [InfoOrphanedSegment segmentId])
  | Some data =>
      let downloadedSegment :=
        mkRundownSegment (us_rundownId data) (us_iNewsStory data) (us_modified data)
          (us_externalId data) newRank (us_name data) in
      match cachedData with
      | None =>
          ([segment_create rundownId segmentId downloadedSegment],
           [InfoCreatingSegment segmentId])
      | Some cached =>
          if isEqual sz (serialize sz downloadedSegment) (serialize sz cached)
          then ([], [])
          else ([segment_update rundownId segmentId downloadedSegment], [])
      end
  end.

(** [segmentRanks.get(segmentId)?.rank || cache?.rank]: a missing rank and
    the rank [0] both give way to the rank of the cache. *)
Definition newSegmentRankAssignement (segmentRanks : gmap string SegmentRankingsInner)
    (cache : option RundownSegment) (segmentId : string) : option Q :=
  match segmentRanks !! segmentId with
  | Some inner => if Qeq_bool (rank inner) 0 then seg_rank <$> cache else Some (rank inner)
  | None => seg_rank <$> cache
  end.

Definition updatedSegmentsOf (changes : list RundownChange) : list string :=
  omap (fun c => match c with SEGMENT_UPDATE _ s => Some s | _ => None end) changes.

Definition createdSegmentsOf (changes : list RundownChange) : list string :=
  omap (fun c => match c with SEGMENT_CREATE _ s => Some s | _ => None end) changes.

Record Outcome := mkOutcome {
  out_events : list Event;
  out_log : list LogLine;
  out_requests : list Request;
  out_failed : bool;
}.

(** The body of the [forEach] over the updated and created segments. *)
Definition emitSegmentUpdate (sz : Serializer) (rundownId : string)
    (segmentRanks : gmap string SegmentRankingsInner)
    (ingestCacheData : gmap string RundownSegment)
    (iNewsData : gmap string UnrankedSegment) (segmentId : string)
  : list Event * list LogLine :=
  let cache := ingestCacheData !! segmentId in
  let inews := iNewsData !! segmentId in
  match newSegmentRankAssignement segmentRanks cache segmentId with
  | Some newRank => diffSegment sz rundownId segmentId inews cache newRank
  | None => ([], [ErrNotAssignedRank segmentId])
  end.

(** [processAndEmitSegmentUpdates] *)
Definition processAndEmitSegmentUpdates (sz : Serializer) (io : Collaborators)
    (rundownId : string) (changes : list RundownChange)
    (segmentRanks : gmap string SegmentRankingsInner) : Outcome :=
  let updatedOrCreated := updatedSegmentsOf changes ++ createdSegmentsOf changes in
  match updatedOrCreated with
  | [] => {| out_events := []; out_log := []; out_requests := []; out_failed := false |}
  | _ :: _ =>
      let requests :=
        [ReqGetSegmentsCacheById rundownId updatedOrCreated;
         ReqFetchINewsStoriesById rundownId updatedOrCreated] in
      match GetSegmentsCacheById io rundownId updatedOrCreated,
            fetchINewsStoriesById io rundownId updatedOrCreated with
      | Some ingestCacheData, Some iNewsData =>
          let results :=
            map (emitSegmentUpdate sz rundownId segmentRanks ingestCacheData iNewsData)
                updatedOrCreated in
          {| out_events := results ≫= fst;
             out_log := results ≫= snd;
             out_requests := requests;
             out_failed := false |}
      | _, _ =>
          {| out_events := []; out_log := []; out_requests := requests;
             out_failed := true |}
      end
  end.

(** The fields the poll works on. *)
Record Watcher := mkWatcher {
  previousRanks : gmap string (gmap string SegmentRankingsInner);
  rundowns : gmap string ReducedRundown;
}.

(** [ParsedINewsIntoSegments.GetUpdatesAndRanks], defined outside the
    watcher. *)
Definition UpdatesAndRanks : Type :=
  string -> ReducedRundown -> list ReducedSegment ->
  gmap string (gmap string SegmentRankingsInner) -> option ReducedRundown ->
  list ReducedSegment * list RundownChange.

(** [segments.forEach((segment) => ranksMap.set(...))] *)
Definition ranksMapOf (segs : list ReducedSegment) : gmap string SegmentRankingsInner :=
  foldl (fun acc segment =>
           <[rs_externalId segment := mkSegmentRankingsInner (rs_rank segment)]> acc)
        ∅ segs.

(** [processUpdatedRundown]: ranks and rundown are stored before anything
    is emitted or fetched. *)
Definition processUpdatedRundown (GetUpdatesAndRanks : UpdatesAndRanks)
    (sz : Serializer) (io : Collaborators) (w : Watcher) (rundownId : string)
    (rundown : ReducedRundown) : Watcher * Outcome :=
  let r := GetUpdatesAndRanks rundownId rundown (rr_segments rundown) (previousRanks w)
             (rundowns w !! rundownId) in
  let ranksMap := ranksMapOf r.1 in
  let w' := {| previousRanks := <[rundownId := ranksMap]> (previousRanks w);
               rundowns := <[rundownId := rundown]> (rundowns w) |} in
  let o := processAndEmitSegmentUpdates sz io rundownId r.2 ranksMap in
  (w', {| out_events := processAndEmitRundownChanges rundown r.2 ++ out_events o;
          out_log := out_log o;
          out_requests := out_requests o;
          out_failed := out_failed o |}).

(** The interval callback of [startWatcher]: while a check is running the
    tick is passed over and counted. *)
Record Ticker := mkTicker {
  currentlyChecking : bool;
  passoverTimings : nat;
}.

Inductive TickResult :=
| Skipped
| SkippedWithWarning (skipped : nat) (status : option (StatusCode * nat))
| CheckStarted.

Definition tick (pollInterval : nat) (connected : bool) (t : Ticker) : Ticker * TickResult :=
  if currentlyChecking t then
    let t' := {| currentlyChecking := true; passoverTimings := S (passoverTimings t) |} in
    if (10 <? passoverTimings t)%nat then
      (t', SkippedWithWarning (passoverTimings t')
             (if connected
              then Some (WARNING_MINOR, (passoverTimings t' * pollInterval)%nat)
              else None))
    else (t', Skipped)
  else
    ({| currentlyChecking := true; passoverTimings := 0 |}, CheckStarted).

(** [n] ticks in a row, none of the checks settling in between. *)
Fixpoint ticks (pollInterval : nat) (connected : bool) (n : nat) (t : Ticker)
  : Ticker * list TickResult :=
  match n with
  | O => (t, [])
  | S n' =>
      let r := tick pollInterval connected t in
      let rs := ticks pollInterval connected n' r.1 in
      (rs.1, r.2 :: rs.2)
  end.

(** The three groups of events in the order the poll emits them. *)
Definition eventGroup (e : Event) : nat :=
  match e with
  | rundown_delete _ | segment_delete _ _ => 0
  | rundown_create _ _ | rundown_update _ _ => 1
  | segment_create _ _ _ | segment_update _ _ _ => 2
  end.

End Legacy.

(** Scenario of the earlier watcher: segments are serialized as they are. *)
Module LegacyScenario.
Import Legacy.

#[global] Instance INewsStory_eq_dec : EqDecision INewsStory.
Proof. solve_decision. Defined.

#[global] Instance Q_eq_dec : EqDecision Q.
Proof. solve_decision. Defined.

#[global] Instance RundownSegment_eq_dec : EqDecision RundownSegment.
Proof. solve_decision. Defined.

Definition structural : Serializer :=
  {| Serialized := RundownSegment;
     serialize := fun s => s;
     isEqual := fun a b => bool_decide (a = b);
     isEqual_spec := fun a b => bool_decide_eq_true (a = b) |}.

Definition storyOf (id : string) : UnrankedSegment :=
  {| us_rundownId := "Q"; us_iNewsStory := {| meta_float := None; story_body := id |};
     us_modified := 0; us_externalId := id; us_name := id |}.

(** Core has nothing cached, iNews has the story of [A]. *)
Definition emptyCore : Collaborators :=
  {| GetSegmentsCacheById := fun _ _ => Some ∅;
     fetchINewsStoriesById := fun _ _ => Some {[ "A" := storyOf "A" ]} |}.

(** iNews rejects the story fetch. *)
Definition storiesRejected : Collaborators :=
  {| GetSegmentsCacheById := fun _ _ => Some ∅;
     fetchINewsStoriesById := fun _ _ => None |}.

Definition queueQ : ReducedRundown :=
  {| rr_externalId := "Q"; rr_name := "Q"; rr_gatewayVersion := "v";
     rr_segments := [ {| rs_externalId := "A"; rs_modified := 0; rs_rank := 1;
                         rs_name := "A" |} ] |}.

(** The helper keeps the listing and reports the rundown and [A] as
    created. *)
Definition created : UpdatesAndRanks :=
  fun _ _ segs _ _ => (segs, [RUNDOWN_CREATE "Q"; SEGMENT_CREATE "Q" "A"]).

Definition noWatcher : Watcher := {| previousRanks := ∅; rundowns := ∅ |}.

End LegacyScenario.

(** * Stories to elements (SplitRawDataToElements.ts)

    [convert] returns the elements and the metadata; its log lines are left
    out. *)
Module Manus.

Record Story := mkStory {
  story_id : string;
  story_title : string;
  story_body : string;
}.

Record Root := mkRoot {
  storyName : string;
  story : Story;
}.

(** [IParsedElement], with the fields of the literal in [convert]. *)
Record IParsedElement := mkIParsedElement {
  el_id : string;
  el_name : string;
  el_type : string;
  el_float : string;
  el_script : string;
  el_objectType : string;
  el_objectTime : string;
  el_duration : string;
  el_clipName : string;
  el_feedback : string;
  el_transition : string;
  el_attributes : gmap string string;
}.

Record IRundownMetaData := mkIRundownMetaData {
  version : string;
  startTime : Z;
  endTime : Z;
}.

(** What [convert] imports: the extraction of the body codes, the table of
    element codes and the five converters. *)
Record Imports := mkImports {
  extract : string -> list string * string;
  ELEMENT_CODE_TYPES : list (string * nat);
  ManusTypeKam : Story -> string -> nat -> list IParsedElement;
  ManusTypeServer : Story -> string -> nat -> list IParsedElement;
  ManusTypeVO : Story -> string -> nat -> list IParsedElement;
  ManusTypeRemote : Story -> string -> nat -> list IParsedElement;
  ManusTypeEmpty : Story -> string -> nat -> list IParsedElement;
}.

(** [hay.includes(needle)] *)
Fixpoint includes (needle hay : string) : bool :=
  String.prefix needle hay
  || match hay with
     | EmptyString => false
     | String _ hay' => includes needle hay'
     end.

(** The section element pushed for every story. *)
Definition section (s : Story) : IParsedElement :=
  {| el_id := story_id s;
     el_name := story_title s;
     el_type := "SECTION";
     el_float := "string";
     el_script := "string";
     el_objectType := "string";
     el_objectTime := "string";
     el_duration := "string";
     el_clipName := "string";
     el_feedback := "string";
     el_transition := "string";
     el_attributes := {[ "string" := "string" ]} |}.

(** The [switch] on the type of the table entry. *)
Definition convertAs (im : Imports) (type : nat) (s : Story) (script : string)
    (index : nat) : list IParsedElement :=
  match type with
  | 1%nat => ManusTypeKam im s script index
  | 2%nat => ManusTypeServer im s script index
  | 3%nat => ManusTypeVO im s "VO type Not Implemented" index
  | 4%nat => ManusTypeRemote im s "LIVE type Not Implemented" index
  | _ => ManusTypeEmpty im s "Unknown Manus Type" index
  end.

(** The body of [elementCodes.forEach]: the first type of the table whose
    code the element code includes decides, and the loop breaks. *)
Definition convertCode (im : Imports) (s : Story) (script : string) (index : nat)
    (code : string) : list IParsedElement :=
  match List.find (fun ty => includes ty.1 code) (ELEMENT_CODE_TYPES im) with
  | None => []
  | Some ty => convertAs im ty.2 s script index
  end.

Definition convertStory (im : Imports) (root : Root) : list IParsedElement :=
  let s := story root in
  let r := extract im (story_body s) in
  section s
  :: concat (imap (fun index code => convertCode im s r.2 index code) r.1)
  ++ (if r.1 is [] then ManusTypeEmpty im s "Manus Segment Not Implemented" 0 else []).

Definition convert (im : Imports) (rundownRaw : list Root)
  : list IParsedElement * IRundownMetaData :=
  (rundownRaw ≫= convertStory im,
   {| version := "v0.2"; startTime := 0; endTime := 1 |}).

End Manus.

(** * The settings observer of the connector (connector.ts, lines 88-135)

    [Queue] is the type of a queue setting, of which only the name
    [queues] is read, and [Other] stands for the keys and values of the
    settings object besides [queues] and [debug]; [noOther] is that of the
    empty object.  One call is modelled, on the value of the device document
    at the lookup and the fields of the connector at the call. *)
Module Connector.

Section Device.

Context {Queue Other : Type} `{EqDecision Queue} `{EqDecision Other}.
Variable queueName : Queue -> string.
Variable noOther : Other.

Record INewsDeviceSettings := mkINewsDeviceSettings {
  queues : option (list Queue);
  debug : option bool;
  other : Other;
}.

(** The fields of the connector that the observer reads and writes. *)
Record State := mkState {
  _settings : option INewsDeviceSettings;
  _debug : bool;
}.

(** What one call does besides: dispose and re-create the FTP handler,
    set the log level. *)
Record Effects := mkEffects {
  restartsHandler : bool;
  setLogLevel : option string;
  threw : bool;
}.

(** What the lookup of the device document gives. *)
Inductive Lookup :=
| NoCollection
| NoDevice
| Device (settings : option INewsDeviceSettings).

(** [(q) => q.queues !== ''] *)
Definition named (q : Queue) : bool := negb (String.eqb (queueName q) "").

(** [_.isEqual(_.omit(a, 'debug'), _.omit(b, 'debug'))] *)
Definition sameButDebug (a b : INewsDeviceSettings) : bool :=
  bool_decide (queues a = queues b /\ other a = other b).

(** [addedChanged]; [envLevel] is [ensureLogLevel(process.env.LOG_LEVEL)]. *)
Definition addedChanged (envLevel : option string) (dev : Lookup) (c : State)
  : State * Effects :=
  match dev with
  | NoCollection =>
      (c, {| restartsHandler := false; setLogLevel := None; threw := true |})
  | NoDevice =>
      (c, {| restartsHandler := false; setLogLevel := None; threw := false |})
  | Device found =>
      let received :=
        default {| queues := None; debug := None; other := noOther |} found in
      let settings :=
        {| queues :=
             List.filter named <$> queues received;
           debug := debug received;
           other := other received |} in
      let restart :=
        match _settings c with
        | None => true
        | Some stored => negb (sameButDebug settings stored)
        end in
      let toggled :=
        match debug settings with
        | Some d => if Bool.eqb d (_debug c) then None else Some d
        | None => None
        end in
      ({| _settings := Some settings; _debug := default (_debug c) toggled |},
       {| restartsHandler := restart;
          setLogLevel :=
            (fun d : bool => if d then "debug" else default "warn" envLevel) <$> toggled;
          threw := false |})
  end.

End Device.

End Connector.

(** A table of element codes and converters that name themselves. *)
Module ManusScenario.
Import Manus.

Definition named (type : string) (s : Story) (script : string) (index : nat)
  : list IParsedElement :=
  [ {| el_id := story_id s; el_name := story_title s; el_type := type;
       el_float := ""; el_script := script; el_objectType := "";
       el_objectTime := ""; el_duration := ""; el_clipName := "";
       el_feedback := ""; el_transition := ""; el_attributes := ∅ |} ].

(** The body is its own single code and script. *)
Definition table : Imports :=
  {| extract := fun body => (if String.eqb body "" then [] else [body], body);
     ELEMENT_CODE_TYPES := [("KAM", 1%nat); ("SERVER", 2%nat); ("KAMERA", 3%nat)];
     ManusTypeKam := named "KAM";
     ManusTypeServer := named "SERVER";
     ManusTypeVO := named "VO";
     ManusTypeRemote := named "REMOTE";
     ManusTypeEmpty := named "EMPTY" |}.

Definition storyWith (body : string) : Root :=
  {| storyName := "S"; story := {| story_id := "1"; story_title := "T"; story_body := body |} |}.

End ManusScenario.

(** A device whose queues are pairs of an id and a name. *)
Module ConnectorScenario.
Import Connector.

Definition Queue : Type := string * string.
Definition queueName (q : Queue) : string := q.2.

Definition configured : State (Queue := Queue) (Other := string) :=
  {| _settings := Some {| queues := Some [("1", "Q")]; debug := Some false; other := "host" |};
     _debug := false |}.

(** The same settings with the debug flag set and a queue without a name
    added. *)
Definition debugOn : INewsDeviceSettings (Queue := Queue) (Other := string) :=
  {| queues := Some [("1", "Q"); ("2", "")]; debug := Some true; other := "host" |}.

End ConnectorScenario.
(** * Properties *)

(** ** [ResyncRundown] *)

Example playlistIdOfRundown_ex1 : playlistIdOfRundown "Q_1" = "Q".
Proof. reflexivity. Qed.
Example playlistIdOfRundown_ex2 : playlistIdOfRundown "a_1_22" = "a_1".
Proof. reflexivity. Qed.
Example playlistIdOfRundown_ex3 : playlistIdOfRundown "Q_" = "Q_".
Proof. reflexivity. Qed.
Example playlistIdOfRundown_ex4 : playlistIdOfRundown "Q_1a" = "Q_1a".
Proof. reflexivity. Qed.
Example playlistIdOfRundown_ex5 : playlistIdOfRundown "Q12" = "Q12".
Proof. reflexivity. Qed.

Lemma deleteAll_lookup {V} (ids : list string) (m : gmap string V) (k : string) :
  deleteAll ids m !! k = if decide (k ∈ ids) then None else m !! k.
Proof.
  unfold deleteAll. revert m.
  induction ids as [|id ids IH]; intros m; simpl.
  - destruct (decide (k ∈ [])) as [Hin|]; [|done]. by apply elem_of_nil in Hin.
  - rewrite IH. destruct (decide (k = id)) as [->|Hne].
    + rewrite lookup_delete_eq.
      destruct (decide (id ∈ id :: ids)) as [|Hn]; [by destruct (decide (id ∈ ids))|].
      exfalso. apply Hn. by left.
    + rewrite lookup_delete_ne by done.
      destruct (decide (k ∈ ids)) as [Hi|Hi], (decide (k ∈ id :: ids)) as [Hj|Hj]; try done.
      * exfalso. apply Hj. by right.
      * apply elem_of_cons in Hj as [?|?]; done.
Qed.

(** The flags left by the loop over the resolved rundowns. *)
Lemma planIngestCache_skip (uncached : list string) (l : list ResolvedRundown)
    (skip : gset string) :
  (planIngestCache skip uncached l).1 = skip ∖ list_to_set (map rundownId l).
Proof.
  revert skip. induction l as [|r l IH]; intros skip; simpl.
  - set_solver.
  - destruct (decide (rundownId r ∈ skip)) as [Hin|Hout]; simpl; rewrite IH; set_solver.
Qed.

(** A rundown that is not resolved is not asked for. *)
Lemma planIngestCache_calls_resolved (uncached : list string)
    (l : list ResolvedRundown) (skip : gset string) (rid : string) :
  rid ∈ map fst (planIngestCache skip uncached l).2 -> rid ∈ map rundownId l.
Proof.
  revert skip. induction l as [|r l IH]; intros skip; simpl.
  - done.
  - destruct (decide (rundownId r ∈ skip)); simpl.
    + intros H. right. by eapply IH.
    + intros [->|H]%elem_of_cons; [by left | right; by eapply IH].
Qed.

(** A flagged rundown that is resolved once is not asked for. *)
Lemma planIngestCache_skipped (uncached : list string) (l : list ResolvedRundown)
    (skip : gset string) (rid : string) :
  rid ∈ skip -> NoDup (map rundownId l) ->
  rid ∉ map fst (planIngestCache skip uncached l).2.
Proof.
  revert skip. induction l as [|r l IH]; intros skip Hin Hnd; simpl.
  - apply not_elem_of_nil.
  - apply NoDup_cons in Hnd as [Hr Hnd].
    destruct (decide (rundownId r ∈ skip)) as [Hs|Hs]; simpl.
    + destruct (decide (rundownId r = rid)) as [E|E].
      * intros H%planIngestCache_calls_resolved. by rewrite <- E in H.
      * apply IH; [set_solver | done].
    + intros [->|H]%elem_of_cons; [done|]. by eapply IH.
Qed.

(** The requests of one poll: one story fetch, then the Core caches. *)
Lemma processUpdatedRundown_requests (h : Helpers) (w : RundownWatcher)
    (io : Collaborators) (pid : string) (listing : ReducedRundown)
    (iNewsData : gmap string UnrankedSegment) :
  fetchINewsStoriesById io pid (uncachedINewsData w pid listing) = Some iNewsData ->
  let plan :=
    planIngestCache (skipCacheForRundown w) (uncachedINewsData w pid listing)
      (resolveAssignments h pid (setAll iNewsData (cachedINewsData w)) listing) in
  let o := processUpdatedRundown h w io pid listing in
  out_requests o =
    ReqFetchINewsStoriesById pid (uncachedINewsData w pid listing)
    :: map (fun c => ReqGetSegmentsCacheById c.1 c.2) plan.2
  /\ skipCacheForRundown (out_watcher o) = plan.1
  /\ cachedINewsData (out_watcher o) = setAll iNewsData (cachedINewsData w).
Proof.
  intros Hf. unfold processUpdatedRundown, prepare. rewrite Hf.
  by destruct (fetchIngestCache io _).
Qed.

(** An armed rundown that the poll resolves once loses its flag and is
    not asked for. *)
Lemma armed_rundown_not_fetched (h : Helpers) (w1 : RundownWatcher) (rid : string)
    (io : Collaborators) (pid' : string) (listing : ReducedRundown)
    (iNewsData : gmap string UnrankedSegment) :
  rid ∈ skipCacheForRundown w1 ->
  fetchINewsStoriesById io pid' (uncachedINewsData w1 pid' listing) = Some iNewsData ->
  let resolved :=
    resolveAssignments h pid' (setAll iNewsData (cachedINewsData w1)) listing in
  rid ∈ map rundownId resolved ->
  NoDup (map rundownId resolved) ->
  let o := processUpdatedRundown h w1 io pid' listing in
  (rid ∉ skipCacheForRundown (out_watcher o))
  /\ forall ids, ReqGetSegmentsCacheById rid ids ∉ out_requests o.
Proof.
  intros Harmed Hf resolved Hin Hnd o.
  destruct (processUpdatedRundown_requests h w1 io pid' listing iNewsData Hf)
    as (Hreq & Hskip & _).
  fold resolved in Hreq, Hskip. fold o in Hreq, Hskip.
  split.
  - rewrite Hskip, planIngestCache_skip.
    apply list_elem_of_fmap in Hin as (r & -> & Hin).
    intros [_ Hn]%elem_of_difference. apply Hn.
    apply elem_of_list_to_set, list_elem_of_fmap. eauto.
  - intros ids. rewrite Hreq. intros [Hc|Hc]%elem_of_cons; [done|].
    apply list_elem_of_fmap in Hc as ([r i] & [= <- <-] & Hc).
    eapply planIngestCache_skipped; [exact Harmed|exact Hnd|].
    apply list_elem_of_fmap. by exists (rid, ids).
Qed.

(** An armed rundown that a poll does not resolve stays armed. *)
Lemma armed_rundown_stays_armed (h : Helpers) (w1 : RundownWatcher) (rid : string)
    (io : Collaborators) (pid' : string) (listing : ReducedRundown) :
  rid ∈ skipCacheForRundown w1 ->
  (forall iNewsData,
     fetchINewsStoriesById io pid' (uncachedINewsData w1 pid' listing) = Some iNewsData ->
     rid ∉ map rundownId
             (resolveAssignments h pid' (setAll iNewsData (cachedINewsData w1)) listing)) ->
  rid ∈ skipCacheForRundown (out_watcher (processUpdatedRundown h w1 io pid' listing)).
Proof.
  intros Harmed Hres.
  destruct (fetchINewsStoriesById io pid' (uncachedINewsData w1 pid' listing))
    as [iNewsData|] eqn:Hf.
  - destruct (processUpdatedRundown_requests h w1 io pid' listing iNewsData Hf)
      as (_ & Hskip & _).
    rewrite Hskip, planIngestCache_skip. apply elem_of_difference. split; [done|].
    intros Hin%elem_of_list_to_set. by apply (Hres iNewsData).
  - unfold processUpdatedRundown, prepare. by rewrite Hf.
Qed.

(** C8. For a rundown [rid] whose playlist is in [playlists] and which is
    itself in [rundowns], [ResyncRundown] removes the rundown's segments
    from [segments] and from the iNews data cache, removes [rid] from
    [rundowns], from the playlist's list of rundowns and from the cached
    playlist assignment, forgets its last forced rank recalculation and
    arms [skipCacheForRundown].  In the next poll whose resolution contains
    [rid] (once, as the resolver numbers its rundowns), the flag is removed
    and no Core segment cache is requested for [rid]. *)
Theorem ResyncRundown_invalidates_and_arms (h : Helpers) (w : RundownWatcher)
    (rid : string) (playlist : list string) (rundown : list string) :
  playlists w !! playlistIdOfRundown rid = Some playlist ->
  rundowns w !! rid = Some rundown ->
  let pid := playlistIdOfRundown rid in
  let w1 := (ResyncRundown w rid).1 in
  (forall sid, sid ∈ rundown ->
     segments w1 !! sid = None /\ cachedINewsData w1 !! sid = None)
  /\ rundowns w1 !! rid = None
  /\ playlists w1 !! pid = Some (filter (fun r => r <> rid) playlist)
  /\ (forall l, playlists w1 !! pid = Some l -> rid ∉ l)
  /\ cachedPlaylistAssignments w1 !! pid =
       (filter (fun p => rundownId p <> rid) <$> (cachedPlaylistAssignments w !! pid))
  /\ (forall l, cachedPlaylistAssignments w1 !! pid = Some l -> rid ∉ map rundownId l)
  /\ lastForcedRankRecalculation w1 !! rid = None
  /\ rid ∈ skipCacheForRundown w1
  /\ (forall (io : Collaborators) (pid' : string) (listing : ReducedRundown)
        (iNewsData : gmap string UnrankedSegment),
        fetchINewsStoriesById io pid' (uncachedINewsData w1 pid' listing) = Some iNewsData ->
        let resolved :=
          resolveAssignments h pid' (setAll iNewsData (cachedINewsData w1)) listing in
        rid ∈ map rundownId resolved ->
        NoDup (map rundownId resolved) ->
        let o := processUpdatedRundown h w1 io pid' listing in
        (rid ∉ skipCacheForRundown (out_watcher o))
        /\ forall ids, ReqGetSegmentsCacheById rid ids ∉ out_requests o).
Proof.
  intros Hp Hr pid w1. subst pid w1.
  unfold ResyncRundown. rewrite Hp, Hr. simpl.
  split_and!.
  - intros sid Hsid. rewrite !deleteAll_lookup.
    by destruct (decide (sid ∈ rundown)).
  - apply lookup_delete_eq.
  - apply lookup_insert_eq.
  - intros l. rewrite lookup_insert_eq. intros [= <-].
    rewrite list_elem_of_filter. intros [Hne _]. done.
  - destruct (cachedPlaylistAssignments w !! playlistIdOfRundown rid) as [cp|] eqn:E; simpl.
    + by rewrite lookup_insert_eq.
    + by rewrite E.
  - intros l.
    destruct (cachedPlaylistAssignments w !! playlistIdOfRundown rid) as [cp|] eqn:E; simpl.
    + rewrite lookup_insert_eq. intros [= <-].
      rewrite list_elem_of_fmap. intros (p & -> & Hp'). 
      apply list_elem_of_filter in Hp' as [Hne _]. done.
    + rewrite E. done.
  - apply lookup_delete_eq.
  - set_solver.
  - intros io pid' listing iNewsData Hf Hin Hnd.
    eapply armed_rundown_not_fetched; [|exact Hf|exact Hin|exact Hnd].
    simpl. apply elem_of_union_l, elem_of_singleton. reflexivity.
Qed.

(** C10. When the playlist derived from the rundown id is not in
    [playlists], or the rundown id is not in [rundowns], [ResyncRundown]
    hands back the watcher with every field as it was, so no cache entry is
    removed and [skipCacheForRundown] is not armed, and logs one error. *)
Theorem ResyncRundown_unknown_rundown (w : RundownWatcher) (rid : string) :
  playlists w !! playlistIdOfRundown rid = None \/ rundowns w !! rid = None ->
  ResyncRundown w rid = (w, [ErrRundownNotInPlaylist rid (playlistIdOfRundown rid)]).
Proof.
  intros [Hp | Hr]; unfold ResyncRundown.
  - by rewrite Hp.
  - rewrite Hr. by destruct (playlists w !! playlistIdOfRundown rid).
Qed.

(** ** The rundown-level loops and what they leave pending *)

Lemma notOfRundown_elem (id : string) (l : list SegmentChange) (c : SegmentChange) :
  c ∈ notOfRundown id l <-> c ∈ l /\ rundownExternalId c <> id.
Proof. unfold notOfRundown. rewrite list_elem_of_filter. tauto. Qed.

Lemma emitDeletedRundowns_events (ds : list string) (p : Pending) :
  (emitDeletedRundowns ds p).1 = map rundown_delete ds.
Proof.
  revert p. induction ds as [|d ds IH]; intros p; simpl; [done|]. by rewrite IH.
Qed.

(** Each pending list keeps the changes of the rundowns that were not
    deleted. *)
Lemma emitDeletedRundowns_pending (ds : list string) (p : Pending) (c : SegmentChange) :
  let p' := (emitDeletedRundowns ds p).2 in
  (c ∈ playlistChangedSegments p' <->
     c ∈ playlistChangedSegments p /\ rundownExternalId c ∉ ds)
  /\ (c ∈ playlistDeletedSegment p' <->
        c ∈ playlistDeletedSegment p /\ rundownExternalId c ∉ ds)
  /\ (c ∈ playlistCreatedSegments p' <->
        c ∈ playlistCreatedSegments p /\ rundownExternalId c ∉ ds)
  /\ (c ∈ playlistMovedSegments p' <->
        c ∈ playlistMovedSegments p /\ rundownExternalId c ∉ ds).
Proof.
  revert p. induction ds as [|d ds IH]; intros p; simpl.
  - rewrite !elem_of_nil. tauto.
  - destruct (IH {| playlistChangedSegments := notOfRundown d (playlistChangedSegments p);
                    playlistDeletedSegment := notOfRundown d (playlistDeletedSegment p);
                    playlistCreatedSegments := notOfRundown d (playlistCreatedSegments p);
                    playlistMovedSegments := notOfRundown d (playlistMovedSegments p) |})
      as (H1 & H2 & H3 & H4).
    simpl in H1, H2, H3, H4.
    rewrite H1, H2, H3, H4, !notOfRundown_elem, !not_elem_of_cons. tauto.
Qed.

Section Emission.

Variable h : Helpers.
Variable emit : IngestRundown -> Event.
Hypothesis emit_id : forall r, eventRundownId (emit r) = ir_externalId r.

Variables (playlistId : string) (assignments : list ResolvedRundown).
Variables (inews : gmap string UnrankedSegment) (ranks : gmap string Q).

Let run := emitRundowns h emit playlistId assignments inews ranks.

(** Every rundown event of the loop is addressed to one of the ids the
    loop went through, and is built from the assignment of that id. *)
Lemma emitRundowns_events (ids : list string) (p : Pending) (e : Event) :
  e ∈ (run ids p).1.1 ->
  exists a, a ∈ assignments /\ rundownId a ∈ ids /\
    e = emit (playlistRundownToIngestRundown h playlistId (rundownId a)
                (res_segments a) inews ranks (backTime a)).
Proof.
  unfold run. revert p. induction ids as [|id ids IH]; intros p; simpl.
  - intros H. by apply elem_of_nil in H.
  - destruct (find _ assignments) as [a|] eqn:Hfind; simpl.
    + apply find_some in Hfind as [Hin Hid%bool_decide_eq_true].
      intros [->|H]%elem_of_cons.
      * exists a. rewrite Hid. split_and!; [by apply list_elem_of_In | by left | done].
      * destruct (IH _ H) as (a' & ? & ? & ?). exists a'. split_and!; [done | by right | done].
    + intros H. destruct (IH _ H) as (a' & ? & ? & ?).
      exists a'. split_and!; [done | by right | done].
Qed.

(** A change stays pending exactly when no event of the loop is addressed
    to its rundown.  Deleted segments are not narrowed by this loop. *)
Lemma emitRundowns_pending (ids : list string) (p : Pending) (c : SegmentChange) :
  let r := run ids p in
  let untouched := forall e, e ∈ r.1.1 -> eventRundownId e <> rundownExternalId c in
  (c ∈ playlistChangedSegments r.2 <-> c ∈ playlistChangedSegments p /\ untouched)
  /\ playlistDeletedSegment r.2 = playlistDeletedSegment p
  /\ (c ∈ playlistCreatedSegments r.2 <-> c ∈ playlistCreatedSegments p /\ untouched)
  /\ (c ∈ playlistMovedSegments r.2 <-> c ∈ playlistMovedSegments p /\ untouched).
Proof.
  unfold run. revert p. induction ids as [|id ids IH]; intros p; simpl.
  - split_and!; try done; (split; [intros H; split; [done|]; by intros e ?%elem_of_nil | tauto]).
  - destruct (find _ assignments) as [a|] eqn:Hfind; simpl.
    + apply find_some in Hfind as [_ Hid%bool_decide_eq_true].
      match goal with
      | |- context [emitRundowns _ _ _ _ _ _ ids ?q] => destruct (IH q) as (H1 & H2 & H3 & H4)
      end.
      simpl in H1, H2, H3, H4.
      rewrite H1, H2, H3, H4, !notOfRundown_elem.
      set (evs := (emitRundowns h emit playlistId assignments inews ranks ids _).1.1).
      assert (Hcons : (forall e, e ∈ emit (playlistRundownToIngestRundown h playlistId
                                       (rundownId a) (res_segments a) inews ranks
                                       (backTime a)) :: evs ->
                               eventRundownId e <> rundownExternalId c) <->
                      rundownExternalId c <> id /\
                      (forall e, e ∈ evs -> eventRundownId e <> rundownExternalId c)).
      { split.
        - intros H. split.
          + intros E. eapply (H (emit _)); [by left|]. rewrite emit_id. simpl. congruence.
          + intros e He. apply H. by right.
        - intros [Hne H] e [->|He]%elem_of_cons; [|by apply H].
          rewrite emit_id. simpl. congruence. }
      rewrite Hcons. tauto.
    + match goal with
      | |- context [emitRundowns _ _ _ _ _ _ ids ?q] => destruct (IH q) as (H1 & H2 & H3 & H4)
      end.
      tauto.
Qed.

Lemma emitRundowns_phase (k : nat) (ids : list string) (p : Pending) :
  (forall r, phase (emit r) = k) ->
  Forall (fun e => phase e = k) (run ids p).1.1.
Proof.
  intros Hk. apply Forall_forall. intros e (a & _ & _ & ->)%emitRundowns_events. apply Hk.
Qed.

End Emission.

(** ** The insertion-ordered map of the ranks loop *)

Lemma mapSet_keys {V} (k : string) (v : V) (m : list (string * V)) (k' : string) :
  k' ∈ map fst (mapSet k v m) <-> k' = k \/ k' ∈ map fst m.
Proof.
  induction m as [|[k0 v0] m IH]; simpl.
  - rewrite elem_of_cons, elem_of_nil. tauto.
  - destruct (decide (k0 = k)) as [->|Hne]; simpl.
    + rewrite !elem_of_cons. tauto.
    + rewrite !elem_of_cons, IH. tauto.
Qed.

Lemma mapSet_NoDup {V} (k : string) (v : V) (m : list (string * V)) :
  NoDup (map fst m) -> NoDup (map fst (mapSet k v m)).
Proof.
  induction m as [|[k0 v0] m IH]; simpl; intros Hnd.
  - apply NoDup_singleton.
  - apply NoDup_cons in Hnd as [Hk0 Hnd].
    destruct (decide (k0 = k)) as [->|Hne]; simpl.
    + by apply NoDup_cons.
    + apply NoDup_cons. split; [|by apply IH].
      rewrite mapSet_keys. intros [?|?]; done.
Qed.

Lemma mapSet_elem {V} (k : string) (v : V) (m : list (string * V)) (k' : string) (v' : V) :
  NoDup (map fst m) ->
  (k', v') ∈ mapSet k v m <-> (k' = k /\ v' = v) \/ (k' <> k /\ (k', v') ∈ m).
Proof.
  induction m as [|[k0 v0] m IH]; simpl; intros Hnd.
  - rewrite elem_of_cons, elem_of_nil. split.
    + intros [[= -> ->]|[]]. by left.
    + intros [[-> ->]|[_ []]]. by left.
  - apply NoDup_cons in Hnd as [Hk0 Hnd].
    destruct (decide (k0 = k)) as [->|Hne].
    + rewrite !elem_of_cons. split.
      * intros [[= -> ->]|Hin]; [by left|]. right. split; [|by right].
        intros ->. apply Hk0. apply list_elem_of_fmap. by exists (k, v').
      * intros [[-> ->]|[Hne [[= -> ->]|Hin]]]; [by left | done | by right].
    + rewrite !elem_of_cons, (IH Hnd). split.
      * intros [[= -> ->]|[[-> ->]|[? ?]]]; [right; split; [done|by left] | by left |].
        right. split; [done | by right].
      * intros [[-> ->]|[? [[= -> ->]|?]]]; [right; by left | by left | right; right; done].
Qed.

Lemma mapGet_Some {V} (k : string) (m : list (string * V)) (v : V) :
  mapGet k m = Some v -> (k, v) ∈ m.
Proof.
  induction m as [|[k0 v0] m IH]; simpl; [done|].
  destruct (decide (k0 = k)) as [->|Hne].
  - intros [= ->]. by left.
  - intros H. right. by apply IH.
Qed.

Lemma mapGet_None {V} (k : string) (m : list (string * V)) :
  mapGet k m = None -> k ∉ map fst m.
Proof.
  induction m as [|[k0 v0] m IH]; simpl.
  - intros _. apply not_elem_of_nil.
  - destruct (decide (k0 = k)) as [->|Hne]; [done|].
    intros H. apply not_elem_of_cons. split; [congruence | by apply IH].
Qed.

(** What a plain object holds after an assignment. *)
Lemma objectSet_lookup (key : string) (value : Q) (object : gmap string Q) (k : string) :
  objectSet key value object !! k =
  if decide (k = key /\ key <> "__proto__") then Some value else object !! k.
Proof.
  unfold objectSet. destruct (String.eqb_spec key "__proto__") as [->|Hne].
  - destruct (decide _) as [[_ H]|_]; [done|done].
  - destruct (decide _) as [[-> _]|Hn].
    + apply lookup_insert_eq.
    + apply lookup_insert_ne. intros <-. by apply Hn.
Qed.

(** The ranks loop groups the moved segments by rundown: one entry for each
    rundown that has a moved segment, holding exactly the moved segments of
    that rundown whose identifier is not [__proto__], each with its
    assigned rank or the fallback. *)
Lemma collectMovedRanks_spec (ar : gmap string Q) (ic : gmap string RundownSegment)
    (moved : list SegmentChange) :
  let U := collectMovedRanks ar ic moved in
  NoDup (map fst U)
  /\ (forall rid, rid ∈ map fst U <-> exists c, c ∈ moved /\ rundownExternalId c = rid)
  /\ (forall rid m sid r, (rid, m) ∈ U ->
        m !! sid = Some r <->
        mkSegmentChange rid sid ∈ moved /\ sid <> "__proto__"
        /\ r = rankFor ar ic sid).
Proof.
  unfold collectMovedRanks.
  induction moved as [|x moved IH] using rev_ind; simpl.
  - split_and!.
    + apply NoDup_nil_2.
    + intros rid. rewrite elem_of_nil. split; [done|]. by intros (c & ?%elem_of_nil & _).
    + intros rid m sid r ?%elem_of_nil. done.
  - rewrite foldl_snoc. destruct IH as (Hnd & Hkeys & Hval).
    set (U := foldl _ [] moved) in *.
    split_and!.
    + by apply mapSet_NoDup.
    + intros rid. rewrite mapSet_keys, Hkeys. split.
      * intros [->|(c & Hc & <-)]; [exists x | exists c]; rewrite elem_of_app, list_elem_of_singleton; auto.
      * intros (c & [Hc| ->%list_elem_of_singleton]%elem_of_app & <-); [right; eauto | by left].
    + intros rid m sid r Hel.
      apply mapSet_elem in Hel as [[-> ->]|[Hne Hin]]; [| |exact Hnd].
      * rewrite objectSet_lookup.
        destruct (decide (sid = segmentExternalId x
                          /\ segmentExternalId x <> "__proto__")) as [[-> Hnp]|Hn].
        -- destruct x as [xr xs]; simpl in *. split.
           ++ intros [= <-]. split_and!; [|done|done]. apply elem_of_app. right. by left.
           ++ by intros (_ & _ & ->).
        -- assert (Hx : (mkSegmentChange (rundownExternalId x) sid ∈ moved ++ [x]
                         /\ sid <> "__proto__") <->
                        (mkSegmentChange (rundownExternalId x) sid ∈ moved
                         /\ sid <> "__proto__")).
           { rewrite elem_of_app, list_elem_of_singleton. split; [|intros [? ?]; auto].
             intros [[?|E] Hp]; [done|]. exfalso. apply Hn.
             destruct x as [xr xs]; simpl in *. injection E as ->. done. }
           transitivity (mkSegmentChange (rundownExternalId x) sid ∈ moved
                         /\ sid <> "__proto__" /\ r = rankFor ar ic sid);
             [|clear -Hx; tauto].
           destruct (mapGet (rundownExternalId x) U) as [m0|] eqn:Hget; simpl.
           ++ apply Hval. by apply mapGet_Some.
           ++ rewrite lookup_empty. split; [done|]. intros [Hin _]. exfalso.
              apply mapGet_None in Hget. apply Hget, Hkeys. eauto.
      * rewrite (Hval rid m sid r Hin).
        rewrite elem_of_app, list_elem_of_singleton.
        split; [intros (? & ? & ?); auto|].
        intros ([?|E] & ? & ?); [done|]. destruct x; simpl in *. congruence.
Qed.

(** ** The events of one poll, phase by phase *)

Lemma isRundownLevel_phase (e : Event) :
  isRundownLevel e = true <-> phase e = 0%nat \/ phase e = 2%nat \/ phase e = 3%nat.
Proof.
  destruct e; simpl; split; intros H; auto;
    try discriminate; destruct H as [H|[H|H]]; discriminate.
Qed.

Lemma emitSegment_elem (emit : string -> string -> IngestSegment -> Event)
    (inews : gmap string UnrankedSegment) (ar : gmap string Q)
    (ic : gmap string RundownSegment) (l : list SegmentChange) (e : Event) :
  e ∈ l ≫= emitSegment emit inews ar ic <->
  exists c data, c ∈ l /\ inews !! segmentExternalId c = Some data /\
    e = emit (rundownExternalId c) (segmentExternalId c)
          (inewsToIngestSegment (rundownExternalId c) (segmentExternalId c) data
             (rankFor ar ic (segmentExternalId c))).
Proof.
  rewrite list_elem_of_bind. unfold emitSegment. split.
  - intros (c & He & Hc). destruct (inews !! segmentExternalId c) as [data|] eqn:E.
    + apply list_elem_of_singleton in He. simpl in He. eauto.
    + by apply elem_of_nil in He.
  - intros (c & data & Hc & E & ->). exists c. rewrite E. split; [|done].
    apply list_elem_of_singleton. done.
Qed.

Lemma changedSegmentsOf_elem (changes : list PlaylistChange) (c : SegmentChange) :
  c ∈ changedSegmentsOf changes <->
  PlaylistChangeSegmentChanged (rundownExternalId c) (segmentExternalId c) ∈ changes.
Proof.
  unfold changedSegmentsOf. rewrite list_elem_of_omap. destruct c as [r s]; simpl. split.
  - intros (x & Hx & E). destruct x; try done. by injection E as -> ->.
  - intros H. eexists. split; [exact H|done].
Qed.

Lemma createdSegmentsOf_elem (changes : list PlaylistChange) (c : SegmentChange) :
  c ∈ createdSegmentsOf changes <->
  PlaylistChangeSegmentCreated (rundownExternalId c) (segmentExternalId c) ∈ changes.
Proof.
  unfold createdSegmentsOf. rewrite list_elem_of_omap. destruct c as [r s]; simpl. split.
  - intros (x & Hx & E). destruct x; try done. by injection E as -> ->.
  - intros H. eexists. split; [exact H|done].
Qed.

Lemma movedSegmentsOf_elem (changes : list PlaylistChange) (c : SegmentChange) :
  c ∈ movedSegmentsOf changes <->
  PlaylistChangeSegmentMoved (rundownExternalId c) (segmentExternalId c) ∈ changes.
Proof.
  unfold movedSegmentsOf. rewrite list_elem_of_omap. destruct c as [r s]; simpl. split.
  - intros (x & Hx & E). destruct x; try done. by injection E as -> ->.
  - intros H. eexists. split; [exact H|done].
Qed.

Section Phases.

Variable h : Helpers.
Variable playlistId : string.
Variable p : Prepared.

Let R (a b : Event) : Prop := (phase a <= phase b)%nat.

Lemma phase_deleted_rundowns :
  Forall (fun e => phase e = 0%nat) (afterDeleted p).1.
Proof.
  unfold afterDeleted. rewrite emitDeletedRundowns_events.
  apply Forall_forall. by intros e (r & -> & _)%list_elem_of_fmap.
Qed.

Lemma phase_deleted_segments :
  Forall (fun e => phase e = 1%nat)
    (emitDeletedSegments (playlistDeletedSegment (afterDeleted p).2)).
Proof.
  apply Forall_forall. unfold emitDeletedSegments.
  by intros e (r & -> & _)%list_elem_of_fmap.
Qed.

Lemma phase_created_rundowns :
  Forall (fun e => phase e = 2%nat) (afterCreated h playlistId p).1.1.
Proof. by apply emitRundowns_phase. Qed.

Lemma phase_updated_rundowns :
  Forall (fun e => phase e = 3%nat) (afterUpdated h playlistId p).1.1.
Proof. by apply emitRundowns_phase. Qed.

Lemma phase_updated_segments (l : list SegmentChange) :
  Forall (fun e => phase e = 4%nat)
    (l ≫= emitSegment segment_update (cachedINewsData (pr_watcher p))
             (pr_assignedRanks p) (pr_ingestCacheData p)).
Proof. apply Forall_forall. by intros e (c & d & _ & _ & ->)%emitSegment_elem. Qed.

Lemma phase_created_segments (l : list SegmentChange) :
  Forall (fun e => phase e = 5%nat)
    (l ≫= emitSegment segment_create (cachedINewsData (pr_watcher p))
             (pr_assignedRanks p) (pr_ingestCacheData p)).
Proof. apply Forall_forall. by intros e (c & d & _ & _ & ->)%emitSegment_elem. Qed.

Lemma phase_ranks (U : list (string * gmap string Q)) :
  Forall (fun e => phase e = 6%nat) (emitUpdatedRanks U).
Proof.
  apply Forall_forall. unfold emitUpdatedRanks.
  by intros e (r & -> & _)%list_elem_of_fmap.
Qed.

(** A block of one phase in front of a sorted list of later phases. *)
Lemma sorted_block (k k' : nat) (l1 l2 : list Event) :
  Forall (fun e => phase e = k) l1 ->
  (k <= k')%nat ->
  StronglySorted R l2 /\ Forall (fun e => (k' <= phase e)%nat) l2 ->
  StronglySorted R (l1 ++ l2) /\ Forall (fun e => (k <= phase e)%nat) (l1 ++ l2).
Proof.
  intros H1 Hk [Hs Hb].
  assert (Hb' : Forall (fun e => (k <= phase e)%nat) l2).
  { eapply Forall_impl; [exact Hb|]. simpl. intros. lia. }
  induction H1 as [|x l1 Hx H1 IH]; simpl.
  - done.
  - destruct IH as [IHs IHb]. split.
    + constructor; [done|]. eapply Forall_impl; [exact IHb|].
      unfold R. simpl. intros. lia.
    + constructor; [lia | done].
Qed.

Lemma emitChanges_sorted : StronglySorted R (emitChanges h playlistId p).
Proof.
  unfold emitChanges.
  refine (proj1 (sorted_block 0 1 _ _ phase_deleted_rundowns _ _)); [lia|].
  refine (sorted_block 1 2 _ _ phase_deleted_segments _ _); [lia|].
  refine (sorted_block 2 3 _ _ phase_created_rundowns _ _); [lia|].
  refine (sorted_block 3 4 _ _ phase_updated_rundowns _ _); [lia|].
  refine (sorted_block 4 5 _ _ (phase_updated_segments _) _ _); [lia|].
  refine (sorted_block 5 6 _ _ (phase_created_segments _) _ _); [lia|].
  split.
  - assert (H6 := phase_ranks
      (collectMovedRanks (pr_assignedRanks p) (pr_ingestCacheData p)
         (playlistMovedSegments (remaining h playlistId p)))).
    induction H6 as [|x l Hx H6 IH]; constructor; [done|].
    eapply Forall_impl; [exact H6|]. unfold R. simpl. intros. lia.
  - eapply Forall_impl; [apply phase_ranks|]. simpl. intros. lia.
Qed.

(** The rundown-level events are those of the first, third and fourth
    loops. *)
Lemma rundownLevel_events (e : Event) :
  e ∈ emitChanges h playlistId p /\ isRundownLevel e = true <->
  e ∈ (afterDeleted p).1 \/ e ∈ (afterCreated h playlistId p).1.1
  \/ e ∈ (afterUpdated h playlistId p).1.1.
Proof.
  unfold emitChanges. rewrite !elem_of_app, isRundownLevel_phase.
  pose proof phase_deleted_rundowns as H0.
  pose proof phase_deleted_segments as H1.
  pose proof phase_created_rundowns as H2.
  pose proof phase_updated_rundowns as H3.
  pose proof (phase_updated_segments
                (playlistChangedSegments (remaining h playlistId p))) as H4.
  pose proof (phase_created_segments
                (playlistCreatedSegments (remaining h playlistId p))) as H5.
  pose proof (phase_ranks
                (collectMovedRanks (pr_assignedRanks p) (pr_ingestCacheData p)
                   (playlistMovedSegments (remaining h playlistId p)))) as H6.
  rewrite Forall_forall in H0, H1, H2, H3, H4, H5, H6.
  split.
  - intros [[?|[He|[?|[?|[He|[He|He]]]]]] Hph]; auto.
    + apply H1 in He. lia.
    + apply H4 in He. lia.
    + apply H5 in He. lia.
    + apply H6 in He. lia.
  - intros [He|[He|He]]; (split; [auto 10|]).
    + apply H0 in He. auto.
    + apply H2 in He. auto.
    + apply H3 in He. auto.
Qed.

(** What is left for the segment loops: the segment changes of the
    differ whose rundown no rundown-level event of this poll is
    addressed to. *)
Lemma remaining_spec (c : SegmentChange) :
  let untouched :=
    forall e, e ∈ emitChanges h playlistId p -> isRundownLevel e = true ->
              eventRundownId e <> rundownExternalId c in
  let left := remaining h playlistId p in
  (c ∈ playlistChangedSegments left <->
     PlaylistChangeSegmentChanged (rundownExternalId c) (segmentExternalId c)
       ∈ pr_changes p /\ untouched)
  /\ (c ∈ playlistCreatedSegments left <->
        PlaylistChangeSegmentCreated (rundownExternalId c) (segmentExternalId c)
          ∈ pr_changes p /\ untouched)
  /\ (c ∈ playlistMovedSegments left <->
        PlaylistChangeSegmentMoved (rundownExternalId c) (segmentExternalId c)
          ∈ pr_changes p /\ untouched).
Proof.
  intros untouched left.
  assert (Hun : untouched <->
            (rundownExternalId c ∉ deletedRundownsOf (pr_changes p))
            /\ (forall e, e ∈ (afterCreated h playlistId p).1.1 ->
                          eventRundownId e <> rundownExternalId c)
            /\ (forall e, e ∈ (afterUpdated h playlistId p).1.1 ->
                          eventRundownId e <> rundownExternalId c)).
  { unfold untouched. split.
    - intros H. split_and!.
      + intros Hin. eapply (H (rundown_delete (rundownExternalId c))); [| done | done].
        apply (proj2 (rundownLevel_events _)). left.
        unfold afterDeleted. rewrite emitDeletedRundowns_events.
        apply list_elem_of_fmap. eauto.
      + intros e He. pose proof (proj2 (rundownLevel_events e)) as [? ?]; auto.
      + intros e He. pose proof (proj2 (rundownLevel_events e)) as [? ?]; auto.
    - intros (Hd & Hc & Hu) e He Hl.
      destruct (proj1 (rundownLevel_events e) (conj He Hl)) as [H0|[H0|H0]]; auto.
      unfold afterDeleted in H0. rewrite emitDeletedRundowns_events in H0.
      apply list_elem_of_fmap in H0 as (r & -> & Hr). simpl. congruence. }
  unfold left, remaining, afterUpdated.
  destruct (emitRundowns_pending h emitRundownUpdated (fun r => eq_refl) playlistId
              (pr_playlistAssignments p) (cachedINewsData (pr_watcher p))
              (pr_assignedRanks p) (updatedRundownsOf (pr_changes p))
              (afterCreated h playlistId p).2 c) as (U1 & _ & U3 & U4).
  unfold afterCreated in U1, U3, U4 |- *.
  destruct (emitRundowns_pending h emitRundownCreated (fun r => eq_refl) playlistId
              (pr_playlistAssignments p) (cachedINewsData (pr_watcher p))
              (pr_assignedRanks p) (createdRundownsOf (pr_changes p))
              (afterDeleted p).2 c) as (C1 & _ & C3 & C4).
  unfold afterDeleted in C1, C3, C4, U1, U3, U4 |- *.
  destruct (emitDeletedRundowns_pending (deletedRundownsOf (pr_changes p))
              (pendingOf (pr_changes p)) c) as (D1 & _ & D3 & D4).
  simpl in D1, D3, D4.
  rewrite changedSegmentsOf_elem in D1.
  rewrite createdSegmentsOf_elem in D3.
  rewrite movedSegmentsOf_elem in D4.
  unfold afterCreated, afterUpdated, afterDeleted in Hun.
  rewrite Hun. rewrite U1, U3, U4, C1, C3, C4, D1, D3, D4. tauto.
Qed.

End Phases.

(** ** One poll of one queue *)

Lemma processUpdatedRundown_Ready (h : Helpers) (w : RundownWatcher) (io : Collaborators)
    (pid : string) (listing : ReducedRundown) (p : Prepared) :
  prepare h w io pid listing = Ready p ->
  let o := processUpdatedRundown h w io pid listing in
  out_events o = emitChanges h pid p /\ out_watcher o = pr_watcher p
  /\ out_requests o = pr_requests p /\ out_failed o = false.
Proof. intros H. unfold processUpdatedRundown. by rewrite H. Qed.

Lemma processUpdatedRundown_events (h : Helpers) (w : RundownWatcher) (io : Collaborators)
    (pid : string) (listing : ReducedRundown) :
  out_events (processUpdatedRundown h w io pid listing) = []
  \/ exists p, prepare h w io pid listing = Ready p
               /\ out_events (processUpdatedRundown h w io pid listing) = emitChanges h pid p.
Proof.
  unfold processUpdatedRundown. destruct (prepare h w io pid listing) as [| p]; simpl.
  - by left.
  - right. by exists p.
Qed.

(** What [prepare] hands over, in terms of the answers it got. *)
Lemma prepare_Ready (h : Helpers) (w : RundownWatcher) (io : Collaborators)
    (pid : string) (listing : ReducedRundown) (p : Prepared) :
  prepare h w io pid listing = Ready p ->
  exists iNewsData,
    fetchINewsStoriesById io pid (uncachedINewsData w pid listing) = Some iNewsData
    /\ let inews := setAll iNewsData (cachedINewsData w) in
       let resolved := resolveAssignments h pid inews listing in
       let assigned := map (assignRundown inews (gatewayVersion w)) resolved in
       let diff := DiffPlaylist h assigned (default [] (cachedAssignedRundowns w !! pid)) in
       cachedINewsData (pr_watcher p) = inews
       /\ pr_playlistAssignments p = resolved
       /\ fetchIngestCache io
            (planIngestCache (skipCacheForRundown w) (uncachedINewsData w pid listing)
               resolved).2 = Some (pr_ingestCacheData p)
       /\ pr_changes p = diff.1
       /\ pr_assignedRanks p =
            collectAssignedRanks
              (AssignRanksToSegments h resolved diff.1 diff.2 (previousRanks w)
                 (lastForcedRankRecalculation w))
       /\ cachedPlaylistAssignments (pr_watcher p) !! pid = Some resolved
       /\ cachedAssignedRundowns (pr_watcher p) !! pid = Some assigned
       /\ playlists (pr_watcher p) !! pid = Some (map rundownId resolved)
       /\ pr_errors p =
            segmentsToResolve_errors inews pid listing
            ++ (resolved ≫= assignRundown_errors inews).
Proof.
  unfold prepare.
  destruct (fetchINewsStoriesById io pid (uncachedINewsData w pid listing))
    as [iNewsData|] eqn:Hf; [|done].
  destruct (fetchIngestCache io _) as [ic|] eqn:Hc; [|done].
  intros [= <-]. exists iNewsData. split; [done|]. simpl.
  rewrite !lookup_insert_eq. split_and!; done.
Qed.

Lemma isSegmentLevel_phase (e : Event) :
  isSegmentLevel e = true <-> phase e = 4%nat \/ phase e = 5%nat \/ phase e = 6%nat.
Proof.
  destruct e; simpl; split; intros H; auto;
    try discriminate; destruct H as [H|[H|H]]; discriminate.
Qed.

(** Every segment-level event comes from a change that was still pending
    after the rundown-level loops. *)
Lemma segmentLevel_event_change (h : Helpers) (pid : string) (p : Prepared) (e : Event) :
  e ∈ emitChanges h pid p -> isSegmentLevel e = true ->
  exists c, rundownExternalId c = eventRundownId e
    /\ (c ∈ playlistChangedSegments (remaining h pid p)
        \/ c ∈ playlistCreatedSegments (remaining h pid p)
        \/ c ∈ playlistMovedSegments (remaining h pid p)).
Proof.
  intros He Hs. apply isSegmentLevel_phase in Hs.
  unfold emitChanges in He. rewrite !elem_of_app in He.
  pose proof (phase_deleted_rundowns p) as H0.
  pose proof (phase_deleted_segments p) as H1.
  pose proof (phase_created_rundowns h pid p) as H2.
  pose proof (phase_updated_rundowns h pid p) as H3.
  rewrite Forall_forall in H0, H1, H2, H3.
  destruct He as [He|[He|[He|[He|[He|[He|He]]]]]].
  - apply H0 in He. lia.
  - apply H1 in He. lia.
  - apply H2 in He. lia.
  - apply H3 in He. lia.
  - apply emitSegment_elem in He as (c & d & Hc & _ & ->). exists c. auto.
  - apply emitSegment_elem in He as (c & d & Hc & _ & ->). exists c. auto.
  - unfold emitUpdatedRanks in He. apply list_elem_of_fmap in He as ([k m] & -> & Hkm).
    destruct (collectMovedRanks_spec (pr_assignedRanks p) (pr_ingestCacheData p)
                (playlistMovedSegments (remaining h pid p))) as (_ & Hkeys & _).
    destruct (proj1 (Hkeys k)) as (c & Hc & Hk).
    { apply list_elem_of_fmap. by exists (k, m). }
    exists c. auto.
Qed.

Lemma isRundownCreateOrUpdate_level (e : Event) :
  isRundownCreateOrUpdate e = true -> isRundownLevel e = true.
Proof. by destruct e. Qed.

Lemma ranksUpdates_app (l1 l2 : list Event) :
  ranksUpdates (l1 ++ l2) = ranksUpdates l1 ++ ranksUpdates l2.
Proof. unfold ranksUpdates. apply omap_app. Qed.

Lemma ranksUpdates_other_phase (k : nat) (l : list Event) :
  k <> 6%nat -> Forall (fun e => phase e = k) l -> ranksUpdates l = [].
Proof.
  intros Hk H. induction H as [|e l He H IH]; [done|].
  destruct e; simpl in He; try exact IH. lia.
Qed.

Lemma ranksUpdates_emitUpdatedRanks (U : list (string * gmap string Q)) :
  ranksUpdates (emitUpdatedRanks U) = U.
Proof.
  induction U as [|[k m] U IH]; [done|].
  change (ranksUpdates (emitUpdatedRanks ((k, m) :: U)))
    with ((k, m) :: ranksUpdates (emitUpdatedRanks U)).
  by rewrite IH.
Qed.

Lemma ranksUpdates_emitChanges (h : Helpers) (pid : string) (p : Prepared) :
  ranksUpdates (emitChanges h pid p) =
  collectMovedRanks (pr_assignedRanks p) (pr_ingestCacheData p)
    (playlistMovedSegments (remaining h pid p)).
Proof.
  unfold emitChanges. rewrite !ranksUpdates_app.
  rewrite (ranksUpdates_other_phase 0 _ ltac:(lia) (phase_deleted_rundowns p)).
  rewrite (ranksUpdates_other_phase 1 _ ltac:(lia) (phase_deleted_segments p)).
  rewrite (ranksUpdates_other_phase 2 _ ltac:(lia) (phase_created_rundowns h pid p)).
  rewrite (ranksUpdates_other_phase 3 _ ltac:(lia) (phase_updated_rundowns h pid p)).
  rewrite (ranksUpdates_other_phase 4 _ ltac:(lia) (phase_updated_segments p _)).
  rewrite (ranksUpdates_other_phase 5 _ ltac:(lia) (phase_created_segments p _)).
  simpl. apply ranksUpdates_emitUpdatedRanks.
Qed.

Lemma ranksUpdates_elem (l : list Event) (rid : string) (m : gmap string Q) :
  segment_ranks_update rid m ∈ l <-> (rid, m) ∈ ranksUpdates l.
Proof.
  unfold ranksUpdates. rewrite list_elem_of_omap. split.
  - intros H. eexists. split; [exact H|done].
  - intros (e & He & E). destruct e; try done. by injection E as -> ->.
Qed.

(** C2. The events of one poll of one queue come out in the order of the
    phases: every [rundown_delete], then every [segment_delete], then every
    [rundown_create], then every [rundown_update], then every
    [segment_update], then every [segment_create], then every
    [segment_ranks_update]. *)
Theorem events_follow_emission_order (h : Helpers) (w : RundownWatcher)
    (io : Collaborators) (pid : string) (listing : ReducedRundown) (queue : string) :
  StronglySorted (fun a b => (phase a <= phase b)%nat)
    (out_events (processUpdatedRundown h w io pid listing))
  /\ StronglySorted (fun a b => (phase a <= phase b)%nat)
       (out_events (checkINewsRundownById h w io queue)).
Proof.
  assert (H : forall pid listing,
            StronglySorted (fun a b => (phase a <= phase b)%nat)
              (out_events (processUpdatedRundown h w io pid listing))).
  { intros pid0 listing0.
    destruct (processUpdatedRundown_events h w io pid0 listing0) as [E|(p & _ & E)];
      rewrite E; [constructor | apply emitChanges_sorted]. }
  split; [apply H|].
  unfold checkINewsRundownById.
  destruct (downloadRundown io queue) as [rundown|]; simpl; [|constructor].
  destruct (decide _); simpl; [apply H | constructor].
Qed.

(** C3. In the events of one poll, a [segment_create], a [segment_update]
    or a [segment_ranks_update] is never addressed to a rundown that
    received a [rundown_create] or a [rundown_update] in the same poll. *)
Theorem segment_events_outside_created_or_updated (h : Helpers) (w : RundownWatcher)
    (io : Collaborators) (pid : string) (listing : ReducedRundown) (e e' : Event) :
  let events := out_events (processUpdatedRundown h w io pid listing) in
  e ∈ events -> isSegmentLevel e = true ->
  e' ∈ events -> isRundownCreateOrUpdate e' = true ->
  eventRundownId e' <> eventRundownId e.
Proof.
  intros events. unfold events.
  destruct (processUpdatedRundown_events h w io pid listing) as [E|(p & _ & E)];
    rewrite E; [by intros ?%elem_of_nil|].
  intros He Hs He' Hr%isRundownCreateOrUpdate_level.
  destruct (segmentLevel_event_change h pid p e He Hs) as (c & <- & Hc).
  destruct (remaining_spec h pid p c) as (R1 & R2 & R3).
  destruct Hc as [Hc|[Hc|Hc]];
    [apply R1 in Hc as [_ Hun] | apply R2 in Hc as [_ Hun] | apply R3 in Hc as [_ Hun]];
    by apply Hun.
Qed.

(** The ranks updates of a completed poll.  At most one
    [segment_ranks_update] is emitted for a rundown; one is emitted for
    every rundown that has a moved segment left, that is a [SegmentMoved]
    change of the differ whose rundown received no [rundown_delete],
    [rundown_create] or [rundown_update] in this poll; and the payload has
    as keys exactly those segments of the rundown whose identifier is not
    [__proto__], each mapped to the rank the assigner gave it. *)
Theorem ranks_updates_coalesced (h : Helpers) (w : RundownWatcher) (io : Collaborators)
    (pid : string) (listing : ReducedRundown) (p : Prepared) :
  prepare h w io pid listing = Ready p ->
  let events := out_events (processUpdatedRundown h w io pid listing) in
  let movedLeft rid sid :=
    PlaylistChangeSegmentMoved rid sid ∈ pr_changes p
    /\ forall e, e ∈ events -> isRundownLevel e = true -> eventRundownId e <> rid in
  NoDup (map fst (ranksUpdates events))
  /\ (forall rid sid, movedLeft rid sid ->
        exists newRanks, segment_ranks_update rid newRanks ∈ events)
  /\ (forall rid newRanks sid, segment_ranks_update rid newRanks ∈ events ->
        (is_Some (newRanks !! sid) <-> movedLeft rid sid /\ sid <> "__proto__")
        /\ (forall r, movedLeft rid sid -> sid <> "__proto__" ->
                      pr_assignedRanks p !! sid = Some r ->
                      newRanks !! sid = Some r)).
Proof.
  intros Hp events movedLeft.
  destruct (processUpdatedRundown_Ready h w io pid listing p Hp) as (Hev & _).
  unfold movedLeft, events. rewrite Hev. clear events movedLeft Hev.
  destruct (collectMovedRanks_spec (pr_assignedRanks p) (pr_ingestCacheData p)
              (playlistMovedSegments (remaining h pid p))) as (Hnd & Hkeys & Hval).
  rewrite <- (ranksUpdates_emitChanges h pid p) in Hnd, Hkeys, Hval.
  assert (Hleft : forall rid sid,
            mkSegmentChange rid sid ∈ playlistMovedSegments (remaining h pid p) <->
            PlaylistChangeSegmentMoved rid sid ∈ pr_changes p
            /\ forall e, e ∈ emitChanges h pid p -> isRundownLevel e = true ->
                         eventRundownId e <> rid).
  { intros rid sid.
    destruct (remaining_spec h pid p (mkSegmentChange rid sid)) as (_ & _ & R3).
    exact R3. }
  split_and!.
  - exact Hnd.
  - intros rid sid Hm%Hleft.
    pose proof (proj2 (Hkeys rid)
                  (ex_intro _ (mkSegmentChange rid sid) (conj Hm eq_refl))) as Hk.
    apply list_elem_of_fmap in Hk as ([k m] & -> & Hkm). exists m.
    by apply ranksUpdates_elem.
  - intros rid m sid Hev%ranksUpdates_elem. split.
    + rewrite <- Hleft. split.
      * intros [r Hr]. apply (Hval rid m sid r Hev) in Hr as (? & ? & _). done.
      * intros [Hm Hnp].
        exists (rankFor (pr_assignedRanks p) (pr_ingestCacheData p) sid).
        by apply (Hval rid m sid _ Hev).
    + intros r Hm%Hleft Hnp Hr. apply (Hval rid m sid r Hev). split_and!; [done|done|].
      unfold rankFor. by rewrite Hr.
Qed.

(** A rundown payload holds no segment without an assigned rank. *)
Lemma playlistRundownToIngestRundown_ranked (h : Helpers) (pid rid : string)
    (segs : list string) (inews : gmap string UnrankedSegment) (ranks : gmap string Q)
    (bt : option string) (sid : string) :
  ranks !! sid = None ->
  sid ∉ map is_externalId
          (ir_segments (playlistRundownToIngestRundown h pid rid segs inews ranks bt)).
Proof.
  intros Hnone Hin. simpl in Hin.
  apply list_elem_of_fmap in Hin as (seg & -> & Hseg).
  apply list_elem_of_omap in Hseg as (x & _ & Hx).
  destruct (inews !! x) as [d|]; [|done].
  destruct (ranks !! x) as [r|] eqn:Hr; [|done].
  injection Hx as <-. simpl in Hnone. congruence.
Qed.

(** C7, as the code has it. Take a segment that the rank assigner gave no
    rank.  If it is changed, created or moved and left for the segment
    loops (its rundown received no [rundown_delete], [rundown_create] or
    [rundown_update] in this poll), it is emitted with the rank of its
    entry in the Core cache fetched in this poll, or with rank [0] when
    there is no entry: changed and created segments in their
    [segment_update] or [segment_create], provided their iNews data is
    cached, and moved segments, other than one with the identifier
    [__proto__], in the [segment_ranks_update] of their rundown.  No
    [rundown_create] or [rundown_update] carries it: it is dropped from
    the payload of its rundown. *)
Theorem unranked_segment_falls_back (h : Helpers) (w : RundownWatcher) (io : Collaborators)
    (pid : string) (listing : ReducedRundown) (p : Prepared) (rid sid : string) :
  prepare h w io pid listing = Ready p ->
  pr_assignedRanks p !! sid = None ->
  let events := out_events (processUpdatedRundown h w io pid listing) in
  let rank :=
    match pr_ingestCacheData p !! sid with
    | Some cachedData => seg_rank cachedData
    | None => 0
    end in
  ((forall e, e ∈ events -> isRundownLevel e = true -> eventRundownId e <> rid) ->
   (forall inews,
      PlaylistChangeSegmentChanged rid sid ∈ pr_changes p ->
      cachedINewsData (pr_watcher p) !! sid = Some inews ->
      segment_update rid sid (inewsToIngestSegment rid sid inews rank) ∈ events)
   /\ (forall inews,
         PlaylistChangeSegmentCreated rid sid ∈ pr_changes p ->
         cachedINewsData (pr_watcher p) !! sid = Some inews ->
         segment_create rid sid (inewsToIngestSegment rid sid inews rank) ∈ events)
   /\ (PlaylistChangeSegmentMoved rid sid ∈ pr_changes p ->
       sid <> "__proto__" ->
       exists newRanks,
         segment_ranks_update rid newRanks ∈ events /\ newRanks !! sid = Some rank))
  /\ (forall e, e ∈ events -> isRundownCreateOrUpdate e = true ->
                carriesSegment sid e = false).
Proof.
  intros Hp Hnone events rank.
  destruct (processUpdatedRundown_Ready h w io pid listing p Hp) as (Hev & _).
  unfold events in *. rewrite Hev in *. clear events Hev.
  assert (Hrank : rankFor (pr_assignedRanks p) (pr_ingestCacheData p) sid = rank).
  { unfold rankFor. by rewrite Hnone. }
  split.
  - intros Hun.
    destruct (remaining_spec h pid p (mkSegmentChange rid sid)) as (R1 & R2 & R3).
    simpl in R1, R2, R3.
    unfold emitChanges. split_and!.
    + intros inews Hc Hi. rewrite !elem_of_app. do 4 right. left.
      apply emitSegment_elem. exists (mkSegmentChange rid sid), inews. simpl.
      rewrite Hrank. split_and!; [|done|done]. apply R1. done.
    + intros inews Hc Hi. rewrite !elem_of_app. do 5 right. left.
      apply emitSegment_elem. exists (mkSegmentChange rid sid), inews. simpl.
      rewrite Hrank. split_and!; [|done|done]. apply R2. done.
    + intros Hc Hnp.
      destruct (collectMovedRanks_spec (pr_assignedRanks p) (pr_ingestCacheData p)
                  (playlistMovedSegments (remaining h pid p))) as (_ & Hkeys & Hval).
      assert (Hin : mkSegmentChange rid sid ∈ playlistMovedSegments (remaining h pid p)).
      { apply R3. done. }
      pose proof (proj2 (Hkeys rid)
                    (ex_intro _ (mkSegmentChange rid sid) (conj Hin eq_refl))) as Hk.
      apply list_elem_of_fmap in Hk as ([k m] & -> & Hkm). exists m. split.
      * rewrite !elem_of_app. do 6 right. unfold emitUpdatedRanks.
        apply list_elem_of_fmap. by exists (k, m).
      * apply (Hval _ _ _ _ Hkm). by rewrite Hrank.
  - intros e He Hcu.
    destruct (proj1 (rundownLevel_events h pid p e)
                (conj He (isRundownCreateOrUpdate_level e Hcu))) as [H0|[H0|H0]].
    + unfold afterDeleted in H0. rewrite emitDeletedRundowns_events in H0.
      apply list_elem_of_fmap in H0 as (r & -> & _). done.
    + apply emitRundowns_events in H0 as (a & _ & _ & ->). simpl.
      apply bool_decide_eq_false.
      exact (playlistRundownToIngestRundown_ranked h pid (rundownId a) (res_segments a)
               (cachedINewsData (pr_watcher p)) (pr_assignedRanks p) (backTime a) sid
               Hnone).
    + apply emitRundowns_events in H0 as (a & _ & _ & ->). simpl.
      apply bool_decide_eq_false.
      exact (playlistRundownToIngestRundown_ranked h pid (rundownId a) (res_segments a)
               (cachedINewsData (pr_watcher p)) (pr_assignedRanks p) (backTime a) sid
               Hnone).
Qed.

(** ** The story fetch *)

Lemma setAdd_elem (x y : string) (s : list string) :
  x ∈ setAdd y s <-> x = y \/ x ∈ s.
Proof.
  unfold setAdd. destruct (decide (y ∈ s)) as [Hy|Hy].
  - split; [auto|]. by intros [->|?].
  - rewrite elem_of_app, list_elem_of_singleton. tauto.
Qed.

Lemma setAdd_NoDup (y : string) (s : list string) : NoDup s -> NoDup (setAdd y s).
Proof.
  intros Hs. unfold setAdd. destruct (decide (y ∈ s)) as [Hy|Hy]; [done|].
  apply NoDup_app. split_and!; [done | | apply NoDup_singleton].
  intros x Hx ->%list_elem_of_singleton. done.
Qed.

Lemma addWhere_elem {A} (test : A -> bool) (key : A -> string) (l : list A)
    (s : list string) (x : string) :
  x ∈ addWhere test key l s <->
  x ∈ s \/ exists a, a ∈ l /\ test a = true /\ key a = x.
Proof.
  unfold addWhere. revert s. induction l as [|a l IH]; intros s; simpl.
  - split; [auto|]. intros [?|(a & ?%elem_of_nil & _)]; done.
  - rewrite IH. destruct (test a) eqn:Ht.
    + rewrite setAdd_elem. split.
      * intros [[->|?]|(b & ? & ? & ?)]; [right; exists a | by left | right; exists b];
          split_and!; try done; [by left | by right].
      * intros [?|(b & [->|?]%elem_of_cons & ? & <-)]; [auto | auto | right; eauto].
    + split.
      * intros [?|(b & ? & ? & ?)]; [by left|]. right. exists b. split_and!; [by right|done|done].
      * intros [?|(b & [->|?]%elem_of_cons & ? & ?)]; [by left | congruence | right; eauto].
Qed.

Lemma addWhere_NoDup {A} (test : A -> bool) (key : A -> string) (l : list A)
    (s : list string) :
  NoDup s -> NoDup (addWhere test key l s).
Proof.
  unfold addWhere. revert s. induction l as [|a l IH]; intros s Hs; simpl; [done|].
  apply IH. destruct (test a); [by apply setAdd_NoDup | done].
Qed.

(** C5, as the code has it. The ids passed to [fetchINewsStoriesById] are,
    without repetition, the listed ids that have no cached iNews data, and,
    when the playlist is already in [playlists], also the listed ids that
    have no entry in [segments] or whose locator in [segments] differs from
    the listed one.  It is the only story fetch of the poll, and every
    story it returns is in the iNews data cache afterwards. *)
Theorem stale_segments_are_fetched (h : Helpers) (w : RundownWatcher) (io : Collaborators)
    (pid : string) (listing : ReducedRundown) :
  let ids := uncachedINewsData w pid listing in
  let o := processUpdatedRundown h w io pid listing in
  NoDup ids
  /\ (forall id, id ∈ ids <->
        exists s, s ∈ rr_segments listing /\ rs_externalId s = id /\
          (cachedINewsData w !! id = None
           \/ (is_Some (playlists w !! pid)
               /\ forall cached, segments w !! id = Some cached ->
                                 rs_locator cached <> rs_locator s)))
  /\ (forall q sids, ReqFetchINewsStoriesById q sids ∈ out_requests o <->
                     q = pid /\ sids = ids)
  /\ (forall iNewsData, fetchINewsStoriesById io pid ids = Some iNewsData ->
        forall id story, iNewsData !! id = Some story ->
                         cachedINewsData (out_watcher o) !! id = Some story).
Proof.
  intros ids o. split_and!.
  - unfold ids, uncachedINewsData.
    destruct (playlists w !! pid); repeat apply addWhere_NoDup; apply NoDup_nil_2.
  - intros id. unfold ids, uncachedINewsData.
    destruct (playlists w !! pid) as [cp|] eqn:Hpl.
    + rewrite !addWhere_elem, elem_of_nil. split.
      * intros [[[]|(s & Hs & Ht & <-)]|(s & Hs & Ht & <-)].
        -- apply bool_decide_eq_true in Ht. exists s. auto.
        -- exists s. split_and!; [done|done|]. right. split; [by eexists|].
           intros cached Hc. rewrite Hc in Ht. by apply bool_decide_eq_true in Ht.
      * intros (s & Hs & <- & [Hn|[_ Hc]]).
        -- left. right. exists s. split_and!; [done| |done]. by apply bool_decide_eq_true.
        -- right. exists s. split_and!; [done| |done].
           destruct (segments w !! rs_externalId s) as [cached|]; [|done].
           apply bool_decide_eq_true. by apply Hc.
    + rewrite addWhere_elem, elem_of_nil. split.
      * intros [[]|(s & Hs & Ht%bool_decide_eq_true & <-)]. exists s. auto.
      * intros (s & Hs & <- & [Hn|[[? [=]] _]]).
        right. exists s. split_and!; [done| |done]. by apply bool_decide_eq_true.
  - intros q sids. unfold o, processUpdatedRundown, prepare. fold ids.
    destruct (fetchINewsStoriesById io pid ids) as [iNewsData|]; simpl.
    + destruct (fetchIngestCache io _); simpl;
        rewrite elem_of_cons, list_elem_of_fmap;
        (split; [intros [[= -> ->]|(c & [=] & _)]; done | intros [-> ->]; by left]).
    + rewrite list_elem_of_singleton. split; [by intros [= -> ->] | by intros [-> ->]].
  - intros iNewsData Hf id story Hs.
    destruct (processUpdatedRundown_requests h w io pid listing iNewsData Hf)
      as (_ & _ & Hc).
    unfold o. rewrite Hc. unfold setAll. by apply lookup_union_Some_l.
Qed.

(** C4. When the resolver returns no rundown for a playlist, the poll goes
    on with one rundown, [<playlist>_1] without segments: it is what the
    differ and the caches get, nothing is logged for it and the poll does
    not fail. *)
Theorem empty_resolution_is_one_empty_rundown (h : Helpers) (w : RundownWatcher)
    (io : Collaborators) (pid : string) (listing : ReducedRundown)
    (iNewsData : gmap string UnrankedSegment) (p : Prepared) :
  fetchINewsStoriesById io pid (uncachedINewsData w pid listing) = Some iNewsData ->
  ResolveRundownIntoPlaylist h pid
    (segmentsToResolve (setAll iNewsData (cachedINewsData w)) listing) = [] ->
  prepare h w io pid listing = Ready p ->
  let empty := {| rundownId := pid +:+ "_1"; res_segments := []; backTime := None |} in
  let assigned := mkINewsRundown (pid +:+ "_1") (pid +:+ "_1") (gatewayVersion w) [] None in
  let o := processUpdatedRundown h w io pid listing in
  pr_playlistAssignments p = [empty]
  /\ pr_changes p =
       (DiffPlaylist h [assigned] (default [] (cachedAssignedRundowns w !! pid))).1
  /\ out_failed o = false
  /\ pr_errors p =
       segmentsToResolve_errors (setAll iNewsData (cachedINewsData w)) pid listing
  /\ playlists (out_watcher o) !! pid = Some [pid +:+ "_1"]
  /\ rundowns (out_watcher o) !! (pid +:+ "_1") = Some []
  /\ cachedPlaylistAssignments (out_watcher o) !! pid = Some [empty]
  /\ cachedAssignedRundowns (out_watcher o) !! pid = Some [assigned].
Proof.
  intros Hf Hres Hp empty assigned o.
  destruct (processUpdatedRundown_Ready h w io pid listing p Hp) as (_ & Hw & _ & Hfail).
  fold o in Hw, Hfail. rewrite Hw.
  pose proof Hp as Hp'. unfold prepare in Hp'. rewrite Hf in Hp'.
  unfold resolveAssignments in Hp'. rewrite Hres in Hp'. simpl in Hp'.
  destruct (fetchIngestCache io _) as [ic|]; [|done].
  injection Hp' as <-. simpl. rewrite !lookup_insert_eq.
  split_and!; try done. by rewrite app_nil_r.
Qed.

(** ** The poll cycle *)

(** Only a rejected download rejects the check of a queue; what
    [processUpdatedRundown] throws is caught. *)
Lemma checkINewsRundownById_failed (h : Helpers) (w : RundownWatcher)
    (io : Collaborators) (queue : string) :
  out_failed (checkINewsRundownById h w io queue) = false <->
  is_Some (downloadRundown io queue).
Proof.
  unfold checkINewsRundownById.
  destruct (downloadRundown io queue) as [rundown|]; simpl.
  - split; [by eexists|]. intros _. by destruct (decide _).
  - split; [done|]. by intros [? [=]].
Qed.

Lemma checkQueues_failed (h : Helpers) (io : Collaborators) (qs : list INewsQueue)
    (w : RundownWatcher) :
  out_failed (checkQueues h w io qs) = false <->
  forall q, q ∈ qs -> is_Some (downloadRundown io (queues q)).
Proof.
  revert w. induction qs as [|q qs IH]; intros w; simpl.
  - split; [|done]. by intros _ q ?%elem_of_nil.
  - destruct (out_failed (checkINewsRundownById h w io (queues q))) eqn:E; simpl.
    + split.
      * intros H. rewrite H in E. done.
      * intros H. apply checkINewsRundownById_failed.
        apply H. by left.
    + rewrite IH. apply checkINewsRundownById_failed in E. split.
      * intros H q' [->|?]%elem_of_cons; [done | by apply H].
      * intros H q' Hq'. apply H. by right.
Qed.

(** C1, as the code has it. When the downloaded listing carries another
    gateway version than the watcher's, the check of that queue emits no
    event, returns the watcher with every cache as it was, logs no error
    and does not fail.  The cycle then reports [GOOD] when the handler is
    connected and reports nothing when it is not, provided every download
    of the cycle succeeds. *)
Theorem version_mismatch_is_skipped (h : Helpers) (w : RundownWatcher)
    (io : Collaborators) (queue : string) (rundown : ReducedRundown) :
  downloadRundown io queue = Some rundown ->
  rr_gatewayVersion rundown <> gatewayVersion w ->
  let o := checkINewsRundownById h w io queue in
  out_events o = [] /\ out_watcher o = w /\ out_errors o = []
  /\ out_requests o = [ReqDownloadRundown queue] /\ out_failed o = false
  /\ ((forall q, q ∈ iNewsQueue w -> is_Some (downloadRundown io (queues q))) ->
      cy_status (watch h w io) = if isConnected io then [(GOOD, [])] else []).
Proof.
  intros Hd Hv o. unfold o, checkINewsRundownById. rewrite Hd.
  destruct (decide (rr_gatewayVersion rundown = gatewayVersion w)) as [E|_]; [done|].
  simpl. split_and!; try done.
  intros Hall. unfold watch, checkINewsRundowns.
  apply (checkQueues_failed h io (iNewsQueue w) w) in Hall. by rewrite Hall.
Qed.

(** C9, as the code has it. A cycle fails exactly when a download is
    rejected.  After a cycle that did not fail the watcher reports [GOOD]
    if the handler is connected and reports nothing if it is not; after a
    cycle that failed it reports [WARNING_MAJOR]. *)
Theorem status_after_cycle (h : Helpers) (w : RundownWatcher) (io : Collaborators) :
  let c := watch h w io in
  (out_failed (cy_check c) = false <->
     forall q, q ∈ iNewsQueue w -> is_Some (downloadRundown io (queues q)))
  /\ cy_status c =
       if out_failed (cy_check c)
       then [(WARNING_MAJOR, ["Check INews rundows failed"])]
       else if isConnected io then [(GOOD, [])] else [].
Proof.
  unfold watch, checkINewsRundowns.
  destruct (out_failed (checkQueues h w io (iNewsQueue w))) eqn:E; simpl; rewrite E.
  - split; [|done]. rewrite <- (checkQueues_failed h io (iNewsQueue w) w), E. done.
  - split; [|done]. rewrite <- (checkQueues_failed h io (iNewsQueue w) w), E. done.
Qed.

(** * The properties on the scenarios *)

Module ScenarioFacts.
Import Scenario.

(** A listing of gateway version [x] polled by a watcher of version [y]. *)
Lemma version_mismatch_is_skipped_witness :
  let w := fresh "y" ["Q"] in
  let io := nrcs "x" twoSegments twoStories true in
  out_events (checkINewsRundownById coldStart w io "Q") = []
  /\ out_watcher (checkINewsRundownById coldStart w io "Q") = w
  /\ cy_status (watch coldStart w io) = [(GOOD, [])].
Proof.
  intros w io.
  destruct (version_mismatch_is_skipped coldStart w io "Q" (listing "Q" "x" twoSegments))
    as (Hev & Hw & _ & _ & _ & Hst).
  - reflexivity.
  - simpl. discriminate.
  - split_and!; [exact Hev | exact Hw |].
    apply Hst. intros q _. simpl. by eexists.
Defined.

(** C1 as stated fails when the handler is not connected: the listing is
    skipped, the cycle does not fail, and no status is reported at all. *)
Lemma version_mismatch_reports_nothing_when_disconnected :
  let w := fresh "y" ["Q"] in
  let io := nrcs "x" twoSegments twoStories false in
  (rr_gatewayVersion <$> downloadRundown io "Q") = Some "x"
  /\ gatewayVersion w = "y"
  /\ out_events (cy_check (watch coldStart w io)) = []
  /\ out_watcher (cy_check (watch coldStart w io)) = w
  /\ cy_status (watch coldStart w io) = [].
Proof. vm_compute. split_and!; reflexivity. Qed.

(** The poll of [splitAtB]: the update of [A] in [Q_1] next to the creation
    of [Q_2]. *)
Lemma segment_events_outside_created_or_updated_witness :
  let events :=
    out_events (processUpdatedRundown splitAtB afterColdStart
                  (nrcs "v" changedA changedStories true) "Q" (listing "Q" "v" changedA)) in
  updateOfA ∈ events /\ createOfQ2 ∈ events
  /\ eventRundownId createOfQ2 <> eventRundownId updateOfA.
Proof.
  intros events.
  assert (H1 : updateOfA ∈ events) by (vm_compute; repeat constructor).
  assert (H2 : createOfQ2 ∈ events) by (vm_compute; repeat constructor).
  split_and!; [exact H1 | exact H2 |].
  exact (segment_events_outside_created_or_updated splitAtB afterColdStart
           (nrcs "v" changedA changedStories true) "Q" (listing "Q" "v" changedA)
           updateOfA createOfQ2 H1 eq_refl H2 eq_refl).
Defined.

(** The poll of an empty queue. *)
Lemma empty_resolution_is_one_empty_rundown_witness :
  let o := processUpdatedRundown emptyQueue (fresh "v" ["Q"]) (nrcs "v" [] [] true)
             "Q" (listing "Q" "v" []) in
  out_failed o = false
  /\ playlists (out_watcher o) !! "Q" = Some ["Q_1"]
  /\ rundowns (out_watcher o) !! "Q_1" = Some []
  /\ out_errors o = [].
Proof.
  intros o.
  edestruct (empty_resolution_is_one_empty_rundown emptyQueue (fresh "v" ["Q"])
               (nrcs "v" [] [] true) "Q" (listing "Q" "v" []))
    as (_ & _ & Hf & _ & Hp & Hr & _).
  - vm_compute. reflexivity.
  - reflexivity.
  - vm_compute. reflexivity.
  - split_and!; [exact Hf | exact Hp | exact Hr | vm_compute; reflexivity].
Defined.

(** C5 as stated fails when a story is listed by a queue that has not been
    polled yet: [A] was cached by the poll of [Q]; [P] lists it under
    another locator than every cache holds, so the specification counts it
    as stale, and the poll of [P] fetches nothing. *)
Lemma listed_under_new_locator_not_fetched :
  (us_locator <$> cachedINewsData afterColdStart !! "A") = Some "L1"
  /\ (rs_locator <$> segments afterColdStart !! "A") = Some "L1"
  /\ map rs_locator (rr_segments otherQueue) = ["L2"]
  /\ staleBySpec afterColdStart otherQueue = ["A"]
  /\ uncachedINewsData afterColdStart "P" otherQueue = []
  /\ out_requests
       (processUpdatedRundown coldStartOfP afterColdStart
          (nrcs "v" [listed "A" "L2"] [story "A" "L2"] true) "P" otherQueue)
     = [ReqFetchINewsStoriesById "P" []; ReqGetSegmentsCacheById "P_1" []].
Proof. vm_compute. split_and!; reflexivity. Qed.

(** The other way round: [C] has cached iNews data with the listed locator,
    so the specification does not count it as stale, and it is fetched
    again because [segments] has no entry for it. *)
Lemma cached_story_without_segment_entry_refetched :
  (us_locator <$> cachedINewsData afterCoreDown !! "C") = Some "L1"
  /\ segments afterCoreDown !! "C" = None
  /\ staleBySpec afterCoreDown (listing "Q" "v" threeSegments) = []
  /\ uncachedINewsData afterCoreDown "Q" (listing "Q" "v" threeSegments) = ["C"].
Proof. vm_compute. split_and!; reflexivity. Qed.

(** The poll in which [A] and [B] swap places. *)
Lemma ranks_updates_coalesced_witness :
  let events :=
    out_events (processUpdatedRundown swapped afterColdStart
                  (nrcs "v" (reverse twoSegments) twoStories true) "Q"
                  (listing "Q" "v" (reverse twoSegments))) in
  NoDup (map fst (ranksUpdates events))
  /\ segment_ranks_update "Q_1" {[ "A" := 2%Q; "B" := 1%Q ]} ∈ events.
Proof.
  intros events. split.
  - refine (proj1 (ranks_updates_coalesced swapped afterColdStart
                     (nrcs "v" (reverse twoSegments) twoStories true) "Q"
                     (listing "Q" "v" (reverse twoSegments)) _ _)).
    vm_compute. reflexivity.
  - vm_compute. repeat constructor.
Defined.

(** C6 fails for a moved segment with the identifier [__proto__]: [B],
    [__proto__] and [A] are moved and left for the ranks loop, the rank
    assigner gives them the ranks [1], [2] and [3], and the payload of the
    one [segment_ranks_update] of the poll holds [B] and [A] only. *)
Lemma moved_proto_segment_missing_from_ranks_update :
  let w := afterColdStartProto in
  let io := nrcs "v" reorderedSegments protoStories true in
  let l := listing "Q" "v" reorderedSegments in
  exists p,
    prepare reorderedProto w io "Q" l = Ready p
    /\ PlaylistChangeSegmentMoved "Q_1" "__proto__" ∈ pr_changes p
    /\ pr_assignedRanks p !! "__proto__" = Some 2%Q
    /\ out_events (processUpdatedRundown reorderedProto w io "Q" l)
       = [segment_ranks_update "Q_1" {[ "B" := 1%Q; "A" := 3%Q ]}].
Proof.
  intros w io l. eexists. split; [vm_compute; reflexivity|].
  split_and!.
  - vm_compute. repeat constructor.
  - vm_compute. reflexivity.
  - vm_compute. reflexivity.
Qed.

(** The same swap when the rank assigner gives no rank: [A] is sent with
    rank [0], Core having been asked for no moved segment. *)
Lemma unranked_segment_falls_back_witness :
  let events :=
    out_events (processUpdatedRundown swappedUnranked afterColdStart
                  (nrcs "v" (reverse twoSegments) twoStories true) "Q"
                  (listing "Q" "v" (reverse twoSegments))) in
  exists newRanks,
    segment_ranks_update "Q_1" newRanks ∈ events /\ newRanks !! "A" = Some 0%Q.
Proof.
  intros events.
  destruct (prepare swappedUnranked afterColdStart
              (nrcs "v" (reverse twoSegments) twoStories true) "Q"
              (listing "Q" "v" (reverse twoSegments))) as [|p] eqn:Hp.
  { vm_compute in Hp. discriminate Hp. }
  pose proof Hp as Hp'. vm_compute in Hp'. injection Hp' as <-.
  destruct (unranked_segment_falls_back swappedUnranked afterColdStart
              (nrcs "v" (reverse twoSegments) twoStories true) "Q"
              (listing "Q" "v" (reverse twoSegments)) _ "Q_1" "A" Hp)
    as (Hleft & _).
  - vm_compute. reflexivity.
  - destruct Hleft as (_ & _ & Hm).
    + intros e He Hl. vm_compute in He.
      apply list_elem_of_singleton in He. subst e. discriminate Hl.
    + destruct Hm as (newRanks & H1 & H2);
        [vm_compute; repeat constructor|discriminate|].
      exists newRanks. split; [exact H1 | exact H2].
Defined.

(** C7 as stated fails for the segments of a created rundown: [A] is
    created, its story is cached and the rank assigner gave it no rank; the
    rundown is created without it and no other event carries it. *)
Lemma unranked_segment_of_created_rundown_dropped :
  let w := fresh "v" ["Q"] in
  let io := nrcs "v" [listed "A" "L1"] [story "A" "L1"] true in
  let l := listing "Q" "v" [listed "A" "L1"] in
  exists p,
    prepare coldStartUnranked w io "Q" l = Ready p
    /\ PlaylistChangeSegmentCreated "Q_1" "A" ∈ pr_changes p
    /\ pr_assignedRanks p !! "A" = None
    /\ cachedINewsData (pr_watcher p) !! "A" = Some (story "A" "L1")
    /\ out_events (processUpdatedRundown coldStartUnranked w io "Q" l) =
         [rundown_create "Q_1"
            {| ir_externalId := "Q_1"; ir_name := "Q"; ir_type := "inews";
               ir_segments := []; ir_playlistExternalId := "Q"; ir_backTime := None |}]
    /\ Forall (fun e => carriesSegment "A" e = false)
         (out_events (processUpdatedRundown coldStartUnranked w io "Q" l)).
Proof.
  intros w io l. eexists. split; [vm_compute; reflexivity|].
  split_and!.
  - vm_compute. repeat constructor.
  - vm_compute. reflexivity.
  - vm_compute. reflexivity.
  - vm_compute. reflexivity.
  - vm_compute. repeat constructor.
Qed.

(** Resync of [Q_1] after the cold start, then the next poll of [Q]. *)
Lemma ResyncRundown_invalidates_and_arms_witness :
  let w1 := (ResyncRundown afterColdStart "Q_1").1 in
  let o := processUpdatedRundown coldStart w1 (nrcs "v" twoSegments twoStories true)
             "Q" (listing "Q" "v" twoSegments) in
  segments w1 !! "A" = None /\ cachedINewsData w1 !! "A" = None
  /\ rundowns w1 !! "Q_1" = None
  /\ playlists w1 !! "Q" = Some []
  /\ "Q_1" ∈ skipCacheForRundown w1
  /\ ("Q_1" ∉ skipCacheForRundown (out_watcher o))
  /\ forall ids, ReqGetSegmentsCacheById "Q_1" ids ∉ out_requests o.
Proof.
  intros w1 o.
  destruct (ResyncRundown_invalidates_and_arms coldStart afterColdStart "Q_1"
              ["Q_1"] ["A"; "B"])
    as (Hseg & Hr & Hp & _ & _ & _ & _ & Harmed & Hpoll).
  - vm_compute. reflexivity.
  - vm_compute. reflexivity.
  - destruct (Hseg "A") as [Hs Hc]; [by left|].
    edestruct (Hpoll (nrcs "v" twoSegments twoStories true) "Q"
                 (listing "Q" "v" twoSegments)) as [Hflag Hreq].
    + vm_compute. reflexivity.
    + vm_compute. repeat constructor.
    + vm_compute. apply NoDup_singleton.
    + split_and!; [exact Hs | exact Hc | exact Hr | exact Hp | exact Harmed
                   | exact Hflag | exact Hreq].
Defined.

(** C9 as stated fails when the handler is not connected: the cycle
    completes, its events are emitted, and no status is reported. *)
Lemma completed_cycle_reports_nothing_when_disconnected :
  let c := watch coldStart (fresh "v" ["Q"]) (nrcs "v" twoSegments twoStories false) in
  out_failed (cy_check c) = false
  /\ length (out_events (cy_check c)) = 1%nat
  /\ cy_status c = [].
Proof. vm_compute. split_and!; reflexivity. Qed.

(** Resync of a rundown the watcher has never seen. *)
Lemma ResyncRundown_unknown_rundown_witness :
  ResyncRundown (fresh "v" ["Q"]) "Q_1"
  = (fresh "v" ["Q"], [ErrRundownNotInPlaylist "Q_1" "Q"]).
Proof.
  apply (ResyncRundown_unknown_rundown (fresh "v" ["Q"]) "Q_1").
  left. reflexivity.
Defined.

End ScenarioFacts.

(** * Further properties of the watcher *)

(** ** The playlist of a rundown id *)

Lemma list_ascii_of_string_app (a b : string) :
  String.list_ascii_of_string (a +:+ b) =
  String.list_ascii_of_string a ++ String.list_ascii_of_string b.
Proof. induction a as [|c a IH]; simpl; [done|]. by rewrite IH. Qed.

Lemma take_while_app_stop {A} (p : A -> bool) (l1 l2 : list A) (x : A) :
  forallb p l1 = true -> p x = false -> take_while p (l1 ++ x :: l2) = l1.
Proof.
  induction l1 as [|y l1 IH]; simpl; intros Hall Hx.
  - by rewrite Hx.
  - apply andb_true_iff in Hall as [Hy Hall]. rewrite Hy. by rewrite IH.
Qed.

Lemma take_while_split {A} (p : A -> bool) (l : list A) :
  l = take_while p l ++ drop (length (take_while p l)) l.
Proof.
  induction l as [|x l IH]; simpl; [done|].
  destruct (p x); simpl; [by rewrite <- IH | done].
Qed.

Lemma take_while_all {A} (p : A -> bool) (l : list A) :
  forallb p (take_while p l) = true.
Proof.
  induction l as [|x l IH]; simpl; [done|].
  destruct (p x) eqn:E; simpl; [by rewrite E, IH | done].
Qed.

Lemma forallb_reverse {A} (p : A -> bool) (l : list A) :
  forallb p (reverse l) = forallb p l.
Proof.
  induction l as [|x l IH]; simpl; [done|].
  rewrite reverse_cons, forallb_app, IH. simpl. rewrite andb_true_r. apply andb_comm.
Qed.

(** The id of the [n]-th rundown of a playlist leads back to the playlist:
    stripping the ordinal undoes [`${playlistId}_${n}`], whatever the
    playlist id is. *)
Theorem playlistIdOfRundown_of_ordinal (playlistId digits : string) :
  digits <> "" ->
  forallb is_digit (String.list_ascii_of_string digits) = true ->
  playlistIdOfRundown (playlistId +:+ "_" +:+ digits) = playlistId.
Proof.
  intros Hne Hall. unfold playlistIdOfRundown.
  rewrite !list_ascii_of_string_app. simpl.
  rewrite reverse_app, reverse_cons, <- app_assoc. simpl.
  rewrite take_while_app_stop; [| by rewrite forallb_reverse | done].
  destruct (reverse (String.list_ascii_of_string digits)) as [|d ds] eqn:E.
  - exfalso. apply Hne. apply (f_equal reverse) in E.
    rewrite reverse_involutive in E. simpl in E.
    rewrite <- (String.string_of_list_ascii_of_string digits), E. done.
  - change (S (length ds)) with (length (d :: ds)). rewrite drop_app_length.
    by rewrite reverse_involutive, String.string_of_list_ascii_of_string.
Qed.

(** What the derivation returns in general: the id itself, or the id
    without a last underscore and the digits that end it. *)
Theorem playlistIdOfRundown_strips_ordinal (rundownExternalId : string) :
  playlistIdOfRundown rundownExternalId = rundownExternalId
  \/ exists digits,
       digits <> ""
       /\ forallb is_digit (String.list_ascii_of_string digits) = true
       /\ rundownExternalId = playlistIdOfRundown rundownExternalId +:+ "_" +:+ digits.
Proof.
  unfold playlistIdOfRundown.
  set (r := reverse (String.list_ascii_of_string rundownExternalId)).
  pose proof (take_while_split is_digit r) as Hsplit.
  pose proof (take_while_all is_digit r) as Hall.
  destruct (take_while is_digit r) as [|d ds] eqn:Hd; [by left|].
  destruct (drop (length (d :: ds)) r) as [|c rest] eqn:Hr; [by left|].
  destruct (Ascii.eqb_spec c "_"%char) as [->|Hc].
  - right. exists (String.string_of_list_ascii (reverse (d :: ds))). split_and!.
    + intros E. apply (f_equal String.list_ascii_of_string) in E.
      rewrite String.list_ascii_of_string_of_list_ascii in E. simpl in E.
      apply (f_equal reverse) in E. rewrite reverse_involutive in E. done.
    + rewrite String.list_ascii_of_string_of_list_ascii. by rewrite forallb_reverse.
    + rewrite <- (String.string_of_list_ascii_of_string rundownExternalId) at 1.
      rewrite <- (reverse_involutive (String.list_ascii_of_string rundownExternalId)).
      fold r. rewrite Hsplit, reverse_app, reverse_cons.
      rewrite <- (String.string_of_list_ascii_of_string
                    (String.string_of_list_ascii (reverse rest) +:+ "_" +:+
                     String.string_of_list_ascii (reverse (d :: ds)))).
      rewrite !list_ascii_of_string_app, !String.list_ascii_of_string_of_list_ascii.
      simpl. by rewrite <- app_assoc.
  - left. destruct c as [[] [] [] [] [] [] [] []]; try done.
Qed.

(** ** Resync, seen from the next poll *)

(** A second [ResyncRundown] of the same rundown finds it gone: it changes
    nothing and logs the error. *)
Theorem ResyncRundown_twice (w : RundownWatcher) (rid : string)
    (playlist rundown : list string) :
  playlists w !! playlistIdOfRundown rid = Some playlist ->
  rundowns w !! rid = Some rundown ->
  ResyncRundown (ResyncRundown w rid).1 rid =
  ((ResyncRundown w rid).1, [ErrRundownNotInPlaylist rid (playlistIdOfRundown rid)]).
Proof.
  intros Hp Hr. unfold ResyncRundown at 1.
  assert (Hgone : rundowns (ResyncRundown w rid).1 !! rid = None).
  { unfold ResyncRundown. rewrite Hp, Hr. simpl. apply lookup_delete_eq. }
  rewrite Hgone.
  destruct (playlists (ResyncRundown w rid).1 !! playlistIdOfRundown rid); reflexivity.
Qed.

(** After [ResyncRundown], every segment of the rundown that the next
    listing still contains is fetched again from iNews, whichever queue
    lists it. *)
Theorem ResyncRundown_forces_refetch (w : RundownWatcher) (rid : string)
    (playlist rundown : list string) (pid : string) (listing : ReducedRundown)
    (s : ReducedSegment) :
  playlists w !! playlistIdOfRundown rid = Some playlist ->
  rundowns w !! rid = Some rundown ->
  s ∈ rr_segments listing ->
  rs_externalId s ∈ rundown ->
  rs_externalId s ∈ uncachedINewsData (ResyncRundown w rid).1 pid listing.
Proof.
  intros Hp Hr Hs Hin.
  assert (Hnone : cachedINewsData (ResyncRundown w rid).1 !! rs_externalId s = None).
  { unfold ResyncRundown. rewrite Hp, Hr. simpl. rewrite deleteAll_lookup.
    by destruct (decide _). }
  assert (Hfirst : rs_externalId s ∈
            addWhere (fun s => bool_decide
                        (cachedINewsData (ResyncRundown w rid).1 !! rs_externalId s = None))
              rs_externalId (rr_segments listing) []).
  { apply addWhere_elem. right. exists s. split_and!; [done| |done].
    by apply bool_decide_eq_true. }
  unfold uncachedINewsData.
  destruct (playlists (ResyncRundown w rid).1 !! pid); [|done].
  apply addWhere_elem. by left.
Qed.

(** ** What a poll leaves in the caches *)

Lemma foldl_insert_lookup_ne {A V} (key : A -> string) (val : A -> V) (l : list A)
    (m : gmap string V) (k : string) :
  k ∉ map key l ->
  foldl (fun acc a => <[key a := val a]> acc) m l !! k = m !! k.
Proof.
  revert m. induction l as [|a l IH]; intros m Hk; simpl; [done|].
  apply not_elem_of_cons in Hk as [Hne Hk].
  rewrite IH by done. by rewrite lookup_insert_ne.
Qed.

Lemma foldl_insert_lookup {A V} (key : A -> string) (val : A -> V) (l : list A)
    (m : gmap string V) (x : A) :
  NoDup (map key l) -> x ∈ l ->
  foldl (fun acc a => <[key a := val a]> acc) m l !! key x = Some (val x).
Proof.
  revert m. induction l as [|a l IH]; intros m Hnd Hx; simpl.
  - by apply elem_of_nil in Hx.
  - apply NoDup_cons in Hnd as [Ha Hnd].
    apply elem_of_cons in Hx as [->|Hx].
    + rewrite foldl_insert_lookup_ne by done. apply lookup_insert_eq.
    + by apply IH.
Qed.

Lemma foldl_insert_is_Some {A V} (key : A -> string) (val : A -> V) (l : list A)
    (m : gmap string V) (k : string) :
  k ∈ map key l \/ is_Some (m !! k) ->
  is_Some (foldl (fun acc a => <[key a := val a]> acc) m l !! k).
Proof.
  revert m. induction l as [|a l IH]; intros m H; simpl.
  - destruct H as [H|H]; [by apply elem_of_nil in H | done].
  - apply IH. destruct H as [[->|H]%elem_of_cons|H]; [right | by left | right].
    + rewrite lookup_insert_eq. by eexists.
    + destruct (decide (key a = k)) as [->|Hne].
      * rewrite lookup_insert_eq. by eexists.
      * by rewrite lookup_insert_ne.
Qed.

(** The watcher that a completed poll hands to the emission. *)
Lemma prepare_Ready_watcher (h : Helpers) (w : RundownWatcher) (io : Collaborators)
    (pid : string) (listing : ReducedRundown) (p : Prepared) :
  prepare h w io pid listing = Ready p ->
  exists iNewsData,
    fetchINewsStoriesById io pid (uncachedINewsData w pid listing) = Some iNewsData
    /\ let inews := setAll iNewsData (cachedINewsData w) in
       let resolved := resolveAssignments h pid inews listing in
       let assigned := map (assignRundown inews (gatewayVersion w)) resolved in
       let diff := DiffPlaylist h assigned (default [] (cachedAssignedRundowns w !! pid)) in
       let segmentRanks :=
         AssignRanksToSegments h resolved diff.1 diff.2 (previousRanks w)
           (lastForcedRankRecalculation w) in
       pr_playlistAssignments p = resolved
       /\ pr_changes p = diff.1
       /\ pr_assignedRanks p = collectAssignedRanks segmentRanks
       /\ pr_watcher p =
          {| gatewayVersion := gatewayVersion w;
             iNewsQueue := iNewsQueue w;
             previousRanks := recordPreviousRanks segmentRanks (previousRanks w);
             lastForcedRankRecalculation :=
               recordForcedRecalculations (now io) segmentRanks
                 (lastForcedRankRecalculation w);
             cachedINewsData := inews;
             cachedPlaylistAssignments :=
               <[pid := resolved]> (cachedPlaylistAssignments w);
             cachedAssignedRundowns := <[pid := assigned]> (cachedAssignedRundowns w);
             skipCacheForRundown :=
               (planIngestCache (skipCacheForRundown w) (uncachedINewsData w pid listing)
                  resolved).1;
             playlists := <[pid := map rundownId resolved]> (playlists w);
             rundowns :=
               foldl (fun acc rundown => <[rundownId rundown := res_segments rundown]> acc)
                     (rundowns w) resolved;
             segments :=
               foldl (fun acc segment => <[rs_externalId segment := segment]> acc)
                     (segments w) (rr_segments listing) |}.
Proof.
  unfold prepare.
  destruct (fetchINewsStoriesById io pid (uncachedINewsData w pid listing))
    as [iNewsData|] eqn:Hf; [|done].
  destruct (fetchIngestCache io _) as [ic|] eqn:Hc; [|done].
  intros [= <-]. exists iNewsData. split; [done|]. simpl. done.
Qed.

(** Polling the same listing again fetches no story: after a completed
    poll in which every listed story ended up cached, a listing with the
    same ids and locators has nothing stale. *)
Theorem same_listing_fetches_nothing (h : Helpers) (w : RundownWatcher)
    (io : Collaborators) (pid : string) (listing : ReducedRundown) (p : Prepared) :
  prepare h w io pid listing = Ready p ->
  NoDup (map rs_externalId (rr_segments listing)) ->
  (forall s, s ∈ rr_segments listing ->
             is_Some (cachedINewsData (pr_watcher p) !! rs_externalId s)) ->
  uncachedINewsData (pr_watcher p) pid listing = [].
Proof.
  intros Hp Hnd Hcached.
  destruct (prepare_Ready_watcher h w io pid listing p Hp)
    as (iNewsData & _ & _ & _ & _ & Hw).
  assert (Hseg : forall s, s ∈ rr_segments listing ->
                           segments (pr_watcher p) !! rs_externalId s = Some s).
  { intros s Hs. rewrite Hw. simpl.
    by apply (foldl_insert_lookup rs_externalId (fun s => s)). }
  apply elem_of_nil_inv. intros x Hx. unfold uncachedINewsData in Hx.
  assert (Hfirst : x ∉ addWhere
            (fun s => bool_decide (cachedINewsData (pr_watcher p) !! rs_externalId s = None))
            rs_externalId (rr_segments listing) []).
  { rewrite addWhere_elem, elem_of_nil.
    intros [[]|(s & Hs & Ht%bool_decide_eq_true & _)].
    destruct (Hcached s Hs) as [? E]. congruence. }
  destruct (playlists (pr_watcher p) !! pid); [|done].
  apply addWhere_elem in Hx as [Hx|(s & Hs & Ht & _)]; [done|].
  rewrite (Hseg s Hs) in Ht. by apply bool_decide_eq_true in Ht.
Qed.

(** ** Polls that are given up *)

(** A rejected story fetch is caught inside the check of the queue: the
    watcher is left as it was, nothing is emitted, the error is logged and
    the check does not fail. *)
Theorem rejected_story_fetch_is_caught (h : Helpers) (w : RundownWatcher)
    (io : Collaborators) (queue : string) (rundown : ReducedRundown) :
  downloadRundown io queue = Some rundown ->
  rr_gatewayVersion rundown = gatewayVersion w ->
  fetchINewsStoriesById io (rr_externalId rundown)
    (uncachedINewsData w (rr_externalId rundown) rundown) = None ->
  let o := checkINewsRundownById h w io queue in
  out_watcher o = w /\ out_events o = []
  /\ out_errors o = [ErrProcessingFailed (rr_externalId rundown)]
  /\ out_failed o = false.
Proof.
  intros Hd Hv Hf. unfold checkINewsRundownById. rewrite Hd.
  destruct (decide _) as [_|Hn]; [|done].
  unfold processUpdatedRundown, prepare. rewrite Hf. simpl. done.
Qed.

Lemma fetchIngestCache_rejected (io : Collaborators)
    (calls : list (string * list string)) (c : string * list string) :
  c ∈ calls -> GetSegmentsCacheById io c.1 c.2 = None ->
  fetchIngestCache io calls = None.
Proof.
  intros Hc Hnone. unfold fetchIngestCache.
  destruct (mapM _ calls) as [l|] eqn:E; [|done].
  apply mapM_Some in E. apply list_elem_of_lookup in Hc as [i Hi].
  destruct (Forall2_lookup_l _ _ _ _ _ E Hi) as (y & _ & Hy). congruence.
Qed.

(** A poll in which Core rejects a cache request emits nothing and leaves
    the playlists, rundowns, segments, assignments and ranks as they were;
    the stories fetched before stay cached. *)
Theorem rejected_core_request_keeps_caches (h : Helpers) (w : RundownWatcher)
    (io : Collaborators) (pid : string) (listing : ReducedRundown)
    (iNewsData : gmap string UnrankedSegment) (rid : string) (ids : list string) :
  fetchINewsStoriesById io pid (uncachedINewsData w pid listing) = Some iNewsData ->
  let o := processUpdatedRundown h w io pid listing in
  ReqGetSegmentsCacheById rid ids ∈ out_requests o ->
  GetSegmentsCacheById io rid ids = None ->
  out_failed o = true /\ out_events o = []
  /\ playlists (out_watcher o) = playlists w
  /\ rundowns (out_watcher o) = rundowns w
  /\ segments (out_watcher o) = segments w
  /\ cachedPlaylistAssignments (out_watcher o) = cachedPlaylistAssignments w
  /\ cachedAssignedRundowns (out_watcher o) = cachedAssignedRundowns w
  /\ previousRanks (out_watcher o) = previousRanks w
  /\ lastForcedRankRecalculation (out_watcher o) = lastForcedRankRecalculation w
  /\ cachedINewsData (out_watcher o) = setAll iNewsData (cachedINewsData w).
Proof.
  intros Hf o Hreq Hnone.
  destruct (processUpdatedRundown_requests h w io pid listing iNewsData Hf)
    as (Hrs & _ & _).
  fold o in Hrs. rewrite Hrs in Hreq.
  apply elem_of_cons in Hreq as [Hreq|Hreq]; [done|].
  apply list_elem_of_fmap in Hreq as (c & [= -> ->] & Hc).
  pose proof (fetchIngestCache_rejected io _ c Hc Hnone) as Hrej.
  unfold o, processUpdatedRundown, prepare. rewrite Hf, Hrej. simpl. done.
Qed.

(** ** What a poll never does to the caches *)

(** Whatever its outcome, a poll removes no entry from any cache and arms
    no skip flag: entries are only evicted by [ResyncRundown]. *)
Theorem poll_never_evicts (h : Helpers) (w : RundownWatcher) (io : Collaborators)
    (pid : string) (listing : ReducedRundown) (k : string) :
  let w' := out_watcher (processUpdatedRundown h w io pid listing) in
  (is_Some (playlists w !! k) -> is_Some (playlists w' !! k))
  /\ (is_Some (rundowns w !! k) -> is_Some (rundowns w' !! k))
  /\ (is_Some (segments w !! k) -> is_Some (segments w' !! k))
  /\ (is_Some (cachedINewsData w !! k) -> is_Some (cachedINewsData w' !! k))
  /\ (is_Some (cachedPlaylistAssignments w !! k) ->
      is_Some (cachedPlaylistAssignments w' !! k))
  /\ (is_Some (cachedAssignedRundowns w !! k) -> is_Some (cachedAssignedRundowns w' !! k))
  /\ (k ∈ skipCacheForRundown w' -> k ∈ skipCacheForRundown w).
Proof.
  unfold processUpdatedRundown, prepare.
  destruct (fetchINewsStoriesById io pid _) as [iNewsData|]; simpl; [|tauto].
  assert (Hins : forall {V} (m : gmap string V) (v : V),
            is_Some (m !! k) -> is_Some (<[pid := v]> m !! k)).
  { intros V m v H. destruct (decide (pid = k)) as [->|Hne].
    - rewrite lookup_insert_eq. by eexists.
    - by rewrite lookup_insert_ne. }
  assert (Hdata : is_Some (cachedINewsData w !! k) ->
                  is_Some (setAll iNewsData (cachedINewsData w) !! k)).
  { intros H. unfold setAll. apply lookup_union_is_Some. by right. }
  assert (Hskip : forall l u, k ∈ (planIngestCache (skipCacheForRundown w) u l).1 ->
                              k ∈ skipCacheForRundown w).
  { intros l u. rewrite planIngestCache_skip. by intros [? _]%elem_of_difference. }
  destruct (fetchIngestCache io _); simpl.
  - split_and!; try (by apply Hins); try done; try (by apply Hskip).
    + intros H. apply foldl_insert_is_Some. by right.
    + intros H. apply foldl_insert_is_Some. by right.
  - split_and!; try done. by apply Hskip.
Qed.

(** A poll of one playlist leaves the entries of every other playlist, the
    cached segments it does not list and the configuration as they were. *)
Theorem poll_touches_its_playlist_only (h : Helpers) (w : RundownWatcher)
    (io : Collaborators) (pid : string) (listing : ReducedRundown) :
  let w' := out_watcher (processUpdatedRundown h w io pid listing) in
  (forall other, other <> pid ->
     playlists w' !! other = playlists w !! other
     /\ cachedPlaylistAssignments w' !! other = cachedPlaylistAssignments w !! other
     /\ cachedAssignedRundowns w' !! other = cachedAssignedRundowns w !! other)
  /\ (forall id, id ∉ map rs_externalId (rr_segments listing) ->
                 segments w' !! id = segments w !! id)
  /\ gatewayVersion w' = gatewayVersion w
  /\ iNewsQueue w' = iNewsQueue w.
Proof.
  unfold processUpdatedRundown, prepare.
  destruct (fetchINewsStoriesById io pid _) as [iNewsData|]; simpl; [|done].
  destruct (fetchIngestCache io _); simpl; [|done].
  split_and!; try done.
  - intros other Hne. by rewrite !lookup_insert_ne.
  - intros id Hid. by apply foldl_insert_lookup_ne.
Qed.

(** After a completed poll the rundown caches agree: [playlists] lists the
    ids of the cached assignment, every listed rundown has an entry in
    [rundowns] (its resolved segments when the ids are distinct), and every
    listed segment has an entry in [segments]. *)
Theorem completed_poll_caches_agree (h : Helpers) (w : RundownWatcher)
    (io : Collaborators) (pid : string) (listing : ReducedRundown) (p : Prepared) :
  prepare h w io pid listing = Ready p ->
  let w' := out_watcher (processUpdatedRundown h w io pid listing) in
  let resolved := pr_playlistAssignments p in
  cachedPlaylistAssignments w' !! pid = Some resolved
  /\ playlists w' !! pid = Some (map rundownId resolved)
  /\ (forall rid, rid ∈ map rundownId resolved -> is_Some (rundowns w' !! rid))
  /\ (NoDup (map rundownId resolved) ->
      forall r, r ∈ resolved -> rundowns w' !! rundownId r = Some (res_segments r))
  /\ (forall s, s ∈ rr_segments listing -> is_Some (segments w' !! rs_externalId s)).
Proof.
  intros Hp w' resolved.
  destruct (processUpdatedRundown_Ready h w io pid listing p Hp) as (_ & Hw' & _).
  destruct (prepare_Ready_watcher h w io pid listing p Hp)
    as (iNewsData & _ & Hres & _ & _ & Hw).
  unfold w', resolved. rewrite Hw', Hw, Hres. simpl. split_and!.
  - apply lookup_insert_eq.
  - apply lookup_insert_eq.
  - intros rid Hrid. apply foldl_insert_is_Some. by left.
  - intros Hnd r Hr. by apply (foldl_insert_lookup rundownId res_segments).
  - intros s Hs. apply foldl_insert_is_Some. left.
    apply list_elem_of_fmap. eauto.
Qed.

(** ** The requests of a poll *)

Lemma planIngestCache_calls (uncached : list string) (l : list ResolvedRundown)
    (skip : gset string) (c : string * list string) :
  c ∈ (planIngestCache skip uncached l).2 ->
  exists r, r ∈ l /\ c.1 = rundownId r
            /\ c.2 = filter (fun id => id ∈ uncached) (res_segments r).
Proof.
  revert skip. induction l as [|r l IH]; intros skip; simpl.
  - by intros ?%elem_of_nil.
  - destruct (decide (rundownId r ∈ skip)); simpl.
    + intros (r' & ? & ?)%IH. exists r'. split; [by right | done].
    + intros [->|(r' & ? & ?)%IH]%elem_of_cons.
      * exists r. split; [by left | done].
      * exists r'. split; [by right | done].
Qed.

(** Core is only asked about a resolved rundown, and only about those of
    its segments whose story had to be fetched in this poll; when the story
    fetch is rejected Core is not asked at all. *)
Theorem core_asked_only_for_stale_segments (h : Helpers) (w : RundownWatcher)
    (io : Collaborators) (pid : string) (listing : ReducedRundown)
    (rid : string) (ids : list string) :
  ReqGetSegmentsCacheById rid ids ∈ out_requests (processUpdatedRundown h w io pid listing) ->
  exists iNewsData r,
    fetchINewsStoriesById io pid (uncachedINewsData w pid listing) = Some iNewsData
    /\ r ∈ resolveAssignments h pid (setAll iNewsData (cachedINewsData w)) listing
    /\ rundownId r = rid
    /\ ids = filter (fun id => id ∈ uncachedINewsData w pid listing) (res_segments r).
Proof.
  intros Hreq.
  destruct (fetchINewsStoriesById io pid (uncachedINewsData w pid listing))
    as [iNewsData|] eqn:Hf.
  - destruct (processUpdatedRundown_requests h w io pid listing iNewsData Hf)
      as (Hrs & _ & _).
    rewrite Hrs in Hreq. apply elem_of_cons in Hreq as [Hreq|Hreq]; [done|].
    apply list_elem_of_fmap in Hreq as (c & [= -> ->] & Hc).
    apply planIngestCache_calls in Hc as (r & Hr & H1 & H2).
    exists iNewsData, r. done.
  - unfold processUpdatedRundown, prepare in Hreq. rewrite Hf in Hreq. simpl in Hreq.
    apply list_elem_of_singleton in Hreq. done.
Qed.

(** ** The delete events *)

Lemma deletedRundownsOf_elem (changes : list PlaylistChange) (rid : string) :
  rid ∈ deletedRundownsOf changes <-> PlaylistChangeRundownDeleted rid ∈ changes.
Proof.
  unfold deletedRundownsOf. rewrite list_elem_of_omap. split.
  - intros (x & Hx & E). destruct x; try done. by injection E as ->.
  - intros H. eexists. split; [exact H|done].
Qed.

Lemma deletedSegmentsOf_elem (changes : list PlaylistChange) (c : SegmentChange) :
  c ∈ deletedSegmentsOf changes <->
  PlaylistChangeSegmentDeleted (rundownExternalId c) (segmentExternalId c) ∈ changes.
Proof.
  unfold deletedSegmentsOf. rewrite list_elem_of_omap. destruct c as [r s]; simpl. split.
  - intros (x & Hx & E). destruct x; try done. by injection E as -> ->.
  - intros H. eexists. split; [exact H|done].
Qed.

(** An event of the poll is in the block of its phase. *)
Lemma emitChanges_by_phase (h : Helpers) (pid : string) (p : Prepared) (e : Event) :
  e ∈ emitChanges h pid p <->
  (phase e = 0%nat /\ e ∈ (afterDeleted p).1)
  \/ (phase e = 1%nat /\
      e ∈ emitDeletedSegments (playlistDeletedSegment (afterDeleted p).2))
  \/ (phase e = 2%nat /\ e ∈ (afterCreated h pid p).1.1)
  \/ (phase e = 3%nat /\ e ∈ (afterUpdated h pid p).1.1)
  \/ (phase e = 4%nat /\
      e ∈ playlistChangedSegments (remaining h pid p) ≫=
            emitSegment segment_update (cachedINewsData (pr_watcher p))
              (pr_assignedRanks p) (pr_ingestCacheData p))
  \/ (phase e = 5%nat /\
      e ∈ playlistCreatedSegments (remaining h pid p) ≫=
            emitSegment segment_create (cachedINewsData (pr_watcher p))
              (pr_assignedRanks p) (pr_ingestCacheData p))
  \/ (phase e = 6%nat /\
      e ∈ emitUpdatedRanks
            (collectMovedRanks (pr_assignedRanks p) (pr_ingestCacheData p)
               (playlistMovedSegments (remaining h pid p)))).
Proof.
  unfold emitChanges. rewrite !elem_of_app.
  pose proof (phase_deleted_rundowns p) as H0.
  pose proof (phase_deleted_segments p) as H1.
  pose proof (phase_created_rundowns h pid p) as H2.
  pose proof (phase_updated_rundowns h pid p) as H3.
  pose proof (phase_updated_segments p
                (playlistChangedSegments (remaining h pid p))) as H4.
  pose proof (phase_created_segments p
                (playlistCreatedSegments (remaining h pid p))) as H5.
  pose proof (phase_ranks
                (collectMovedRanks (pr_assignedRanks p) (pr_ingestCacheData p)
                   (playlistMovedSegments (remaining h pid p)))) as H6.
  rewrite Forall_forall in H0, H1, H2, H3, H4, H5, H6.
  split.
  - intros [He|[He|[He|[He|[He|[He|He]]]]]]; auto 20.
  - intros [[_ He]|[[_ He]|[[_ He]|[[_ He]|[[_ He]|[[_ He]|[_ He]]]]]]]; auto 20.
Qed.

(** A [rundown_delete] is emitted for exactly the rundowns the differ
    reports as deleted, and a [segment_delete] for exactly the deleted
    segments of the rundowns that are not themselves deleted, whether or not
    their rundown is created or updated in the same poll. *)
Theorem delete_events (h : Helpers) (w : RundownWatcher) (io : Collaborators)
    (pid : string) (listing : ReducedRundown) (p : Prepared) :
  prepare h w io pid listing = Ready p ->
  let events := out_events (processUpdatedRundown h w io pid listing) in
  (forall rid, rundown_delete rid ∈ events <->
               PlaylistChangeRundownDeleted rid ∈ pr_changes p)
  /\ (forall rid sid, segment_delete rid sid ∈ events <->
        PlaylistChangeSegmentDeleted rid sid ∈ pr_changes p
        /\ PlaylistChangeRundownDeleted rid ∉ pr_changes p).
Proof.
  intros Hp events.
  destruct (processUpdatedRundown_Ready h w io pid listing p Hp) as (Hev & _).
  unfold events. rewrite Hev. clear events Hev. split.
  - intros rid. rewrite emitChanges_by_phase. simpl.
    unfold afterDeleted. rewrite emitDeletedRundowns_events, <- deletedRundownsOf_elem.
    rewrite list_elem_of_fmap. split.
    + intros [[_ (r & [= ->] & Hr)]|[[? _]|[[? _]|[[? _]|[[? _]|[[? _]|[? _]]]]]]]; done.
    + intros H. left. split; [done|]. eauto.
  - intros rid sid. rewrite emitChanges_by_phase. simpl.
    destruct (emitDeletedRundowns_pending (deletedRundownsOf (pr_changes p))
                (pendingOf (pr_changes p)) (mkSegmentChange rid sid)) as (_ & D2 & _).
    simpl in D2. rewrite deletedSegmentsOf_elem, deletedRundownsOf_elem in D2.
    simpl in D2. rewrite <- D2. unfold emitDeletedSegments, afterDeleted.
    rewrite list_elem_of_fmap. split.
    + intros [[? _]|[[_ (c & [= -> ->] & Hc)]|[[? _]|[[? _]|[[? _]|[[? _]|[? _]]]]]]];
        try done. by destruct c.
    + intros H. right. left. split; [done|]. by exists (mkSegmentChange rid sid).
Qed.

(** ** The rundown events and their payload *)

(** The rundown loops emit, for each id in turn, the rundown built from the
    first assignment with that id, and nothing for an id without one. *)
Lemma emitRundowns_events_eq (h : Helpers) (emit : IngestRundown -> Event)
    (pid : string) (assignments : list ResolvedRundown)
    (inews : gmap string UnrankedSegment) (ranks : gmap string Q)
    (ids : list string) (p : Pending) :
  (emitRundowns h emit pid assignments inews ranks ids p).1.1 =
  ids ≫= fun id =>
    match List.find (fun r => bool_decide (rundownId r = id)) assignments with
    | Some a =>
        [emit (playlistRundownToIngestRundown h pid (rundownId a) (res_segments a)
                 inews ranks (backTime a))]
    | None => []
    end.
Proof.
  revert p. induction ids as [|id ids IH]; intros p; simpl; [done|].
  destruct (find _ assignments) as [a|]; simpl; by rewrite IH.
Qed.

Lemma emitRundowns_errors_missing (h : Helpers) (emit : IngestRundown -> Event)
    (pid : string) (assignments : list ResolvedRundown)
    (inews : gmap string UnrankedSegment) (ranks : gmap string Q)
    (ids : list string) (p : Pending) (id : string) :
  id ∈ ids ->
  List.find (fun r => bool_decide (rundownId r = id)) assignments = None ->
  ErrNoSegmentsForRundown id ∈ (emitRundowns h emit pid assignments inews ranks ids p).1.2.
Proof.
  revert p. induction ids as [|x ids IH]; intros p Hid Hnone; simpl.
  - by apply elem_of_nil in Hid.
  - apply elem_of_cons in Hid as [->|Hid].
    + rewrite Hnone. simpl. by left.
    + destruct (find (fun r => bool_decide (rundownId r = x)) assignments) as [a|]; simpl.
      * apply elem_of_app. right. by apply IH.
      * right. by apply IH.
Qed.

Lemma rundown_event_elem (h : Helpers) (mk : string -> IngestRundown -> Event)
    (pid : string) (assignments : list ResolvedRundown)
    (inews : gmap string UnrankedSegment) (ranks : gmap string Q)
    (ids : list string) (p : Pending) (rid : string) (R : IngestRundown) :
  (forall r1 R1 r2 R2, mk r1 R1 = mk r2 R2 -> r1 = r2 /\ R1 = R2) ->
  mk rid R ∈ (emitRundowns h (fun R => mk (ir_externalId R) R) pid assignments inews
                ranks ids p).1.1 <->
  rid ∈ ids
  /\ exists a,
       List.find (fun r => bool_decide (rundownId r = rid)) assignments = Some a
       /\ R = playlistRundownToIngestRundown h pid rid (res_segments a) inews ranks
                (backTime a).
Proof.
  intros Hinj. rewrite emitRundowns_events_eq, list_elem_of_bind. split.
  - intros (id & Hin & Hids).
    destruct (find _ assignments) as [a|] eqn:Hfind; [|by apply elem_of_nil in Hin].
    apply list_elem_of_singleton, Hinj in Hin as [Hrid ->]. simpl in Hrid.
    pose proof (find_some _ _ Hfind) as [_ Ha%bool_decide_eq_true].
    rewrite Ha in Hrid. subst id. split; [done|]. exists a. by rewrite Ha.
  - intros (Hin & a & Hfind & ->). exists rid. split; [|done]. rewrite Hfind.
    pose proof (find_some _ _ Hfind) as [_ Ha%bool_decide_eq_true].
    apply list_elem_of_singleton. simpl. by rewrite Ha.
Qed.

(** A [rundown_create] is emitted for exactly the created rundowns that
    are among the resolved ones, with the rundown built from the first
    resolved rundown of that id; a created rundown that is not resolved is
    logged and emits nothing.  The same holds for [rundown_update]. *)
Theorem rundown_events (h : Helpers) (w : RundownWatcher) (io : Collaborators)
    (pid : string) (listing : ReducedRundown) (p : Prepared) :
  prepare h w io pid listing = Ready p ->
  let o := processUpdatedRundown h w io pid listing in
  let built rid R :=
    exists a,
      List.find (fun r => bool_decide (rundownId r = rid)) (pr_playlistAssignments p)
        = Some a
      /\ R = playlistRundownToIngestRundown h pid rid (res_segments a)
               (cachedINewsData (pr_watcher p)) (pr_assignedRanks p) (backTime a) in
  let unresolved rid :=
    List.find (fun r => bool_decide (rundownId r = rid)) (pr_playlistAssignments p)
      = None in
  (forall rid R, rundown_create rid R ∈ out_events o <->
                 PlaylistChangeRundownCreated rid ∈ pr_changes p /\ built rid R)
  /\ (forall rid R, rundown_update rid R ∈ out_events o <->
                    PlaylistChangeRundownUpdated rid ∈ pr_changes p /\ built rid R)
  /\ (forall rid,
        (PlaylistChangeRundownCreated rid ∈ pr_changes p
         \/ PlaylistChangeRundownUpdated rid ∈ pr_changes p) ->
        unresolved rid -> ErrNoSegmentsForRundown rid ∈ out_errors o).
Proof.
  intros Hp o built unresolved.
  assert (Ho : out_events o = emitChanges h pid p
               /\ out_errors o = pr_errors p ++ emitChanges_errors h pid p).
  { unfold o, processUpdatedRundown. by rewrite Hp. }
  destruct Ho as [Hev Her]. rewrite Hev, Her. clear Hev Her.
  assert (Hc : forall rid, rid ∈ createdRundownsOf (pr_changes p) <->
                           PlaylistChangeRundownCreated rid ∈ pr_changes p).
  { intros rid. unfold createdRundownsOf. rewrite list_elem_of_omap. split.
    - intros (x & Hx & E). destruct x; try done. by injection E as ->.
    - intros H. eexists. split; [exact H|done]. }
  assert (Hu : forall rid, rid ∈ updatedRundownsOf (pr_changes p) <->
                           PlaylistChangeRundownUpdated rid ∈ pr_changes p).
  { intros rid. unfold updatedRundownsOf. rewrite list_elem_of_omap. split.
    - intros (x & Hx & E). destruct x; try done. by injection E as ->.
    - intros H. eexists. split; [exact H|done]. }
  split_and!.
  - intros rid R. rewrite emitChanges_by_phase. simpl. rewrite <- Hc.
    unfold built.
    rewrite <- (rundown_event_elem h rundown_create pid (pr_playlistAssignments p)
                  (cachedINewsData (pr_watcher p)) (pr_assignedRanks p)
                  (createdRundownsOf (pr_changes p)) (afterDeleted p).2 rid R);
      [|by intros ???? [= -> ->]].
    split.
    + intros [[? _]|[[? _]|[[_ He]|[[? _]|[[? _]|[[? _]|[? _]]]]]]]; try done.
    + intros H. right. right. left. done.
  - intros rid R. rewrite emitChanges_by_phase. simpl. rewrite <- Hu.
    unfold built.
    rewrite <- (rundown_event_elem h rundown_update pid (pr_playlistAssignments p)
                  (cachedINewsData (pr_watcher p)) (pr_assignedRanks p)
                  (updatedRundownsOf (pr_changes p)) (afterCreated h pid p).2 rid R);
      [|by intros ???? [= -> ->]].
    split.
    + intros [[? _]|[[? _]|[[? _]|[[_ He]|[[? _]|[[? _]|[? _]]]]]]]; try done.
    + intros H. do 3 right. left. done.
  - intros rid Hch Hun. unfold emitChanges_errors. rewrite !elem_of_app.
    destruct Hch as [Hch%Hc|Hch%Hu].
    + right. left. by apply emitRundowns_errors_missing.
    + right. right. left. by apply emitRundowns_errors_missing.
Qed.

Lemma playlistRundownToIngestRundown_sublist (h : Helpers) (pid rid : string)
    (segs : list string) (inews : gmap string UnrankedSegment) (ranks : gmap string Q)
    (bt : option string) :
  map is_externalId
    (ir_segments (playlistRundownToIngestRundown h pid rid segs inews ranks bt))
  `sublist_of` segs.
Proof.
  simpl. induction segs as [|x segs IH]; simpl; [done|].
  destruct (inews !! x) as [d|]; [|by apply sublist_cons].
  destruct (ranks !! x) as [r|]; [|by apply sublist_cons].
  simpl. by apply sublist_skip.
Qed.

(** The rundown sent with a [rundown_create] or [rundown_update] names the
    playlist, and its segments are those of the resolved rundown that have
    cached iNews data and an assigned rank, in the resolved order, each
    with its cached story and its assigned rank. *)
Theorem rundown_payload (h : Helpers) (pid rid : string) (segs : list string)
    (inews : gmap string UnrankedSegment) (ranks : gmap string Q) (bt : option string) :
  let R := playlistRundownToIngestRundown h pid rid segs inews ranks bt in
  ir_externalId R = rid /\ ir_name R = pid /\ ir_playlistExternalId R = pid
  /\ ir_backTime R = bt
  /\ map is_externalId (ir_segments R) `sublist_of` segs
  /\ (forall sid, sid ∈ map is_externalId (ir_segments R) <->
        sid ∈ segs /\ is_Some (inews !! sid) /\ is_Some (ranks !! sid))
  /\ (forall seg, seg ∈ ir_segments R ->
        exists data rank,
          inews !! is_externalId seg = Some data
          /\ ranks !! is_externalId seg = Some rank
          /\ seg = inewsToIngestSegment rid (is_externalId seg) data rank).
Proof.
  intros R. split_and!; try done.
  - apply playlistRundownToIngestRundown_sublist.
  - intros sid. unfold R. simpl. rewrite list_elem_of_fmap. split.
    + intros (seg & -> & (x & Hx & E)%list_elem_of_omap).
      destruct (inews !! x) as [d|] eqn:Hd; [|done].
      destruct (ranks !! x) as [r|] eqn:Hr; [|done].
      injection E as <-. simpl. rewrite Hd, Hr. split_and!; [done|by eexists|by eexists].
    + intros (Hin & [d Hd] & [r Hr]).
      exists (inewsToIngestSegment rid sid d r). split; [done|].
      apply list_elem_of_omap. exists sid. by rewrite Hd, Hr.
  - intros seg (x & Hx & E)%list_elem_of_omap.
    destruct (inews !! x) as [d|] eqn:Hd; [|done].
    destruct (ranks !! x) as [r|] eqn:Hr; [|done].
    injection E as <-. simpl. exists d, r. done.
Qed.

(** A segment whose assigned rank is [0] is reported as having no rank
    data, and yet it is not dropped: it stays in the rundown with rank
    [0]. *)
Theorem rank_zero_is_logged_but_kept (h : Helpers) (pid rid : string)
    (segs : list string) (inews : gmap string UnrankedSegment) (ranks : gmap string Q)
    (bt : option string) (sid : string) (data : UnrankedSegment) (r : Q) :
  sid ∈ segs ->
  inews !! sid = Some data ->
  ranks !! sid = Some r ->
  Qeq_bool r 0 = true ->
  let errors := playlistRundownToIngestRundown_errors rid segs inews ranks in
  ErrNoRankDataFor sid ∈ errors
  /\ (ErrDroppingSegment sid rid ∉ errors)
  /\ inewsToIngestSegment rid sid data r
       ∈ ir_segments (playlistRundownToIngestRundown h pid rid segs inews ranks bt).
Proof.
  intros Hin Hd Hr Hz errors. unfold errors, playlistRundownToIngestRundown_errors.
  split_and!.
  - apply list_elem_of_bind. exists sid. split; [|done].
    rewrite Hd, Hr, Hz. simpl. by left.
  - intros (x & Hx & _)%list_elem_of_bind.
    rewrite !elem_of_app in Hx. destruct Hx as [Hx|[Hx|Hx]].
    + destruct (inews !! x); [by apply elem_of_nil in Hx|].
      by apply list_elem_of_singleton in Hx.
    + destruct (ranks !! x) as [r'|].
      * destruct (Qeq_bool r' 0); [by apply list_elem_of_singleton in Hx|].
        by apply elem_of_nil in Hx.
      * by apply list_elem_of_singleton in Hx.
    + destruct (inews !! x) as [d|] eqn:Hdx.
      * destruct (ranks !! x) as [r'|] eqn:Hrx; [by apply elem_of_nil in Hx|].
        apply list_elem_of_singleton in Hx. injection Hx as <-. congruence.
      * apply list_elem_of_singleton in Hx. injection Hx as <-. congruence.
  - simpl. apply list_elem_of_omap. exists sid. by rewrite Hd, Hr.
Qed.

(** ** The bookkeeping of ranks (lines 489-499) *)

Lemma collectAssignedRanks_snoc (l : list RundownRanks) (r : RundownRanks) :
  collectAssignedRanks (l ++ [r]) = setAll (rk_assignedRanks r) (collectAssignedRanks l).
Proof. unfold collectAssignedRanks. by rewrite foldl_snoc. Qed.

(** Every rank the poll works with was returned by the rank assigner for
    some rundown, and a segment has a rank as soon as one rundown's answer
    holds one; when two answers hold the same segment the later one
    wins. *)
Lemma assigned_ranks_come_from_the_assigner (segmentRanks : list RundownRanks)
    (sid : string) :
  (forall rank, collectAssignedRanks segmentRanks !! sid = Some rank ->
     exists r, r ∈ segmentRanks /\ rk_assignedRanks r !! sid = Some rank)
  /\ (is_Some (collectAssignedRanks segmentRanks !! sid) <->
      exists r, r ∈ segmentRanks /\ is_Some (rk_assignedRanks r !! sid))
  /\ (forall before r after rank,
        segmentRanks = before ++ r :: after ->
        rk_assignedRanks r !! sid = Some rank ->
        (forall r', r' ∈ after -> rk_assignedRanks r' !! sid = None) ->
        collectAssignedRanks segmentRanks !! sid = Some rank).
Proof.
  assert (H1 : forall l rank, collectAssignedRanks l !! sid = Some rank ->
                 exists r, r ∈ l /\ rk_assignedRanks r !! sid = Some rank).
  { induction l as [|r l IH] using rev_ind; intros rank.
    - unfold collectAssignedRanks. simpl. by rewrite lookup_empty.
    - rewrite collectAssignedRanks_snoc. unfold setAll.
      intros [H|[_ H]]%lookup_union_Some_raw.
      + exists r. split; [|done]. apply elem_of_app. right. by left.
      + destruct (IH rank H) as (r' & Hr' & E). exists r'. split; [|done].
        apply elem_of_app. by left. }
  assert (H2 : forall l r, r ∈ l -> is_Some (rk_assignedRanks r !! sid) ->
                 is_Some (collectAssignedRanks l !! sid)).
  { induction l as [|x l IH] using rev_ind; intros r Hr Hs.
    - by apply elem_of_nil in Hr.
    - rewrite collectAssignedRanks_snoc. unfold setAll. apply lookup_union_is_Some.
      apply elem_of_app in Hr as [Hr| ->%list_elem_of_singleton]; [right; eauto | by left]. }
  assert (H3 : forall after l, (forall r', r' ∈ after -> rk_assignedRanks r' !! sid = None) ->
                 collectAssignedRanks (l ++ after) !! sid = collectAssignedRanks l !! sid).
  { induction after as [|x after IH] using rev_ind; intros l Hnone.
    - by rewrite app_nil_r.
    - rewrite app_assoc, collectAssignedRanks_snoc. unfold setAll.
      rewrite lookup_union_r.
      + apply IH. intros r' Hr'. apply Hnone. apply elem_of_app. by left.
      + apply Hnone. apply elem_of_app. right. by left. }
  split_and!.
  - apply H1.
  - split.
    + intros [rank (r & Hr & E)%H1]. exists r. split; [done | by eexists].
    + intros (r & Hr & Hs). by eapply H2.
  - intros before r after rank -> Hr Hnone.
    change (before ++ r :: after) with (before ++ [r] ++ after).
    rewrite app_assoc, (H3 after (before ++ [r])) by done.
    rewrite collectAssignedRanks_snoc. unfold setAll. by apply lookup_union_Some_l.
Qed.

(** The time of the last forced recalculation of a rundown becomes the
    time of this poll when the assigner reports a recalculation for it, and
    is left as it was otherwise. *)
Lemma forced_recalculation_is_recorded (t : Z) (segmentRanks : list RundownRanks)
    (last : gmap string Z) (rid : string) :
  ((exists r, r ∈ segmentRanks /\ rk_rundownId r = rid
              /\ rk_recalculatedAsIntegers r = true) ->
   recordForcedRecalculations t segmentRanks last !! rid = Some t)
  /\ ((forall r, r ∈ segmentRanks -> rk_rundownId r = rid ->
                 rk_recalculatedAsIntegers r = false) ->
      recordForcedRecalculations t segmentRanks last !! rid = last !! rid).
Proof.
  unfold recordForcedRecalculations. split.
  - induction segmentRanks as [|x l IH] using rev_ind; intros (r & Hr & Hid & Hrec).
    + by apply elem_of_nil in Hr.
    + rewrite foldl_snoc.
      apply elem_of_app in Hr as [Hr| ->%list_elem_of_singleton].
      * destruct (rk_recalculatedAsIntegers x); [|by eauto].
        destruct (decide (rk_rundownId x = rid)) as [->|Hne].
        -- apply lookup_insert_eq.
        -- rewrite lookup_insert_ne by done. eauto.
      * rewrite Hrec, Hid. apply lookup_insert_eq.
  - induction segmentRanks as [|x l IH] using rev_ind; intros Hall; [done|].
    rewrite foldl_snoc.
    assert (Hl : forall r, r ∈ l -> rk_rundownId r = rid ->
                           rk_recalculatedAsIntegers r = false).
    { intros r Hr. apply Hall. apply elem_of_app. by left. }
    destruct (rk_recalculatedAsIntegers x) eqn:Hx; [|by apply IH].
    rewrite lookup_insert_ne; [by apply IH|].
    intros E. rewrite (Hall x) in Hx; [done| |done]. apply elem_of_app. right. by left.
Qed.

(** The previous ranks of a rundown are replaced by the answer of the
    assigner for it, and the previous ranks of the rundowns without an
    answer are kept. *)
Lemma previous_ranks_are_recorded (segmentRanks : list RundownRanks)
    (previous : gmap string (gmap string SegmentRankingsInner)) :
  (forall rid, rid ∉ map rk_rundownId segmentRanks ->
     recordPreviousRanks segmentRanks previous !! rid = previous !! rid)
  /\ (NoDup (map rk_rundownId segmentRanks) ->
      forall r, r ∈ segmentRanks ->
        recordPreviousRanks segmentRanks previous !! rk_rundownId r =
        Some (mkSegmentRankingsInner <$> rk_assignedRanks r)).
Proof.
  unfold recordPreviousRanks, updatePreviousRanks. split.
  - intros rid Hrid.
    by apply (foldl_insert_lookup_ne rk_rundownId
                (fun r => mkSegmentRankingsInner <$> rk_assignedRanks r)).
  - intros Hnd r Hr.
    by apply (foldl_insert_lookup rk_rundownId
                (fun r => mkSegmentRankingsInner <$> rk_assignedRanks r)).
Qed.

(** After a completed poll the watcher holds the answer of the rank
    assigner: every rank the events are built from comes from the answer
    for some rundown; the time of the last forced recalculation of a
    rundown is the time of this poll if the answer reports a recalculation
    for it and is unchanged if not; the previous ranks of a rundown are
    the ranks of its answer, and those of rundowns without an answer are
    kept. *)
Theorem ranks_of_a_completed_poll (h : Helpers) (w : RundownWatcher)
    (io : Collaborators) (pid : string) (listing : ReducedRundown) (p : Prepared) :
  prepare h w io pid listing = Ready p ->
  let w' := out_watcher (processUpdatedRundown h w io pid listing) in
  exists updated,
    let segmentRanks :=
      AssignRanksToSegments h (pr_playlistAssignments p) (pr_changes p) updated
        (previousRanks w) (lastForcedRankRecalculation w) in
    (forall sid rank, pr_assignedRanks p !! sid = Some rank ->
       exists r, r ∈ segmentRanks /\ rk_assignedRanks r !! sid = Some rank)
    /\ (forall rid,
          (exists r, r ∈ segmentRanks /\ rk_rundownId r = rid
                     /\ rk_recalculatedAsIntegers r = true) ->
          lastForcedRankRecalculation w' !! rid = Some (now io))
    /\ (forall rid,
          (forall r, r ∈ segmentRanks -> rk_rundownId r = rid ->
                     rk_recalculatedAsIntegers r = false) ->
          lastForcedRankRecalculation w' !! rid = lastForcedRankRecalculation w !! rid)
    /\ (forall rid, rid ∉ map rk_rundownId segmentRanks ->
          previousRanks w' !! rid = previousRanks w !! rid)
    /\ (NoDup (map rk_rundownId segmentRanks) ->
        forall r, r ∈ segmentRanks ->
          previousRanks w' !! rk_rundownId r =
          Some (mkSegmentRankingsInner <$> rk_assignedRanks r)).
Proof.
  intros Hp w'.
  destruct (processUpdatedRundown_Ready h w io pid listing p Hp) as (_ & Hw' & _).
  destruct (prepare_Ready_watcher h w io pid listing p Hp)
    as (iNewsData & _ & Hres & Hch & Hranks & Hw).
  unfold w'. rewrite Hw', Hw, Hranks, Hres, Hch. cbn zeta.
  cbn [previousRanks lastForcedRankRecalculation].
  eexists. split_and!.
  - intros sid rank. apply assigned_ranks_come_from_the_assigner.
  - intros rid. apply forced_recalculation_is_recorded.
  - intros rid. apply forced_recalculation_is_recorded.
  - apply previous_ranks_are_recorded.
  - apply previous_ranks_are_recorded.
Qed.

(** ** The cycle over the queues *)

(** The first rejected download ends the cycle: the queues before it are
    polled as usual, the rejected download is the last request, no later
    queue is downloaded, and the cycle reports [WARNING_MAJOR]. *)
Theorem cycle_stops_at_rejected_download (h : Helpers) (io : Collaborators)
    (before after : list INewsQueue) (q : INewsQueue) (w : RundownWatcher) :
  iNewsQueue w = before ++ q :: after ->
  (forall q', q' ∈ before -> is_Some (downloadRundown io (queues q'))) ->
  downloadRundown io (queues q) = None ->
  let o := checkINewsRundowns h w io in
  let done := checkQueues h w io before in
  out_failed o = true
  /\ out_watcher o = out_watcher done
  /\ out_events o = out_events done
  /\ out_errors o = out_errors done
  /\ out_requests o = out_requests done ++ [ReqDownloadRundown (queues q)]
  /\ cy_status (watch h w io) = [(WARNING_MAJOR, ["Check INews rundows failed"])].
Proof.
  intros Hq Hbefore Hrej o done.
  assert (H : forall w0,
            let o := checkQueues h w0 io (before ++ q :: after) in
            let done := checkQueues h w0 io before in
            out_failed o = true /\ out_watcher o = out_watcher done
            /\ out_events o = out_events done /\ out_errors o = out_errors done
            /\ out_requests o = out_requests done ++ [ReqDownloadRundown (queues q)]).
  { clear o done Hq. induction before as [|q0 before IH]; intros w0; simpl.
    - unfold checkINewsRundownById. rewrite Hrej. simpl. done.
    - assert (H0 : out_failed (checkINewsRundownById h w0 io (queues q0)) = false).
      { apply checkINewsRundownById_failed. apply Hbefore. by left. }
      rewrite H0. simpl.
      destruct (IH (fun q' Hq' => Hbefore q' (list_elem_of_further _ _ _ Hq'))
                  (out_watcher (checkINewsRundownById h w0 io (queues q0))))
        as (I1 & I2 & I3 & I4 & I5).
      rewrite I1, I2, I3, I4, I5. by rewrite <- app_assoc. }
  destruct (H w) as (H1 & H2 & H3 & H4 & H5).
  unfold o, done, watch, checkINewsRundowns. rewrite Hq.
  rewrite H1. simpl. done.
Qed.

(** ** Segments the loops cannot serve *)

(** A changed or created segment without cached iNews data is logged and
    gets no [segment_update] and no [segment_create]; for a moved one the
    ranks update of its rundown is still emitted, which needs no story, and
    it holds the segment unless its identifier is [__proto__]. *)
Theorem segment_without_data (h : Helpers) (w : RundownWatcher) (io : Collaborators)
    (pid : string) (listing : ReducedRundown) (p : Prepared) (rid sid : string) :
  prepare h w io pid listing = Ready p ->
  cachedINewsData (pr_watcher p) !! sid = None ->
  let o := processUpdatedRundown h w io pid listing in
  (forall r seg, segment_update r sid seg ∉ out_events o)
  /\ (forall r seg, segment_create r sid seg ∉ out_events o)
  /\ ((forall e, e ∈ out_events o -> isRundownLevel e = true -> eventRundownId e <> rid) ->
      (PlaylistChangeSegmentChanged rid sid ∈ pr_changes p ->
       ErrSegmentChangeWithoutData sid ∈ out_errors o)
      /\ (PlaylistChangeSegmentCreated rid sid ∈ pr_changes p ->
          ErrCreatedSegmentWithoutData sid ∈ out_errors o)
      /\ (PlaylistChangeSegmentMoved rid sid ∈ pr_changes p ->
          exists newRanks, segment_ranks_update rid newRanks ∈ out_events o
                           /\ (sid <> "__proto__" -> is_Some (newRanks !! sid)))).
Proof.
  intros Hp Hnone o.
  assert (Ho : out_events o = emitChanges h pid p
               /\ out_errors o = pr_errors p ++ emitChanges_errors h pid p).
  { unfold o, processUpdatedRundown. by rewrite Hp. }
  destruct Ho as [Hev Her]. rewrite Hev, Her. clear Hev Her o.
  split_and!.
  - intros r seg. rewrite emitChanges_by_phase. simpl.
    intros [[? _]|[[? _]|[[? _]|[[? _]|[[_ He]|[[? _]|[? _]]]]]]]; try done.
    apply emitSegment_elem in He as (c & d & _ & Hd & [= _ -> _]). congruence.
  - intros r seg. rewrite emitChanges_by_phase. simpl.
    intros [[? _]|[[? _]|[[? _]|[[? _]|[[? _]|[[_ He]|[? _]]]]]]]; try done.
    apply emitSegment_elem in He as (c & d & _ & Hd & [= _ -> _]). congruence.
  - intros Hun.
    destruct (remaining_spec h pid p (mkSegmentChange rid sid)) as (R1 & R2 & R3).
    simpl in R1, R2, R3. split_and!.
    + intros Hc. unfold emitChanges_errors. rewrite !elem_of_app. do 3 right. left.
      apply list_elem_of_bind. exists (mkSegmentChange rid sid). split.
      * unfold emitSegment_errors. simpl. rewrite Hnone. by left.
      * apply R1. done.
    + intros Hc. unfold emitChanges_errors. rewrite !elem_of_app. do 4 right. left.
      apply list_elem_of_bind. exists (mkSegmentChange rid sid). split.
      * unfold emitSegment_errors. simpl. rewrite Hnone. by left.
      * apply R2. done.
    + intros Hc.
      destruct (collectMovedRanks_spec (pr_assignedRanks p) (pr_ingestCacheData p)
                  (playlistMovedSegments (remaining h pid p))) as (_ & Hkeys & Hval).
      assert (Hin : mkSegmentChange rid sid ∈ playlistMovedSegments (remaining h pid p)).
      { apply R3. done. }
      pose proof (proj2 (Hkeys rid)
                    (ex_intro _ (mkSegmentChange rid sid) (conj Hin eq_refl))) as Hk.
      apply list_elem_of_fmap in Hk as ([k m] & -> & Hkm). exists m. split.
      * unfold emitChanges. rewrite !elem_of_app. do 6 right. unfold emitUpdatedRanks.
        apply list_elem_of_fmap. by exists (k, m).
      * intros Hnp. eexists. by apply (Hval _ _ _ _ Hkm).
Qed.

(** Every use of the fallback rank is logged: a segment left for the
    segment loops without an assigned rank gives one "could not assign
    rank" error, for a changed or created segment provided its story is
    cached. *)
Theorem fallback_is_logged (h : Helpers) (w : RundownWatcher) (io : Collaborators)
    (pid : string) (listing : ReducedRundown) (p : Prepared) (rid sid : string) :
  prepare h w io pid listing = Ready p ->
  pr_assignedRanks p !! sid = None ->
  let o := processUpdatedRundown h w io pid listing in
  (forall e, e ∈ out_events o -> isRundownLevel e = true -> eventRundownId e <> rid) ->
  (PlaylistChangeSegmentMoved rid sid ∈ pr_changes p
   \/ (is_Some (cachedINewsData (pr_watcher p) !! sid)
       /\ (PlaylistChangeSegmentChanged rid sid ∈ pr_changes p
           \/ PlaylistChangeSegmentCreated rid sid ∈ pr_changes p))) ->
  ErrCouldNotAssignRank sid ∈ out_errors o.
Proof.
  intros Hp Hnone o.
  assert (Ho : out_events o = emitChanges h pid p
               /\ out_errors o = pr_errors p ++ emitChanges_errors h pid p).
  { unfold o, processUpdatedRundown. by rewrite Hp. }
  destruct Ho as [Hev Her]. rewrite Hev, Her. clear Hev Her o.
  intros Hun Hch.
  destruct (remaining_spec h pid p (mkSegmentChange rid sid)) as (R1 & R2 & R3).
  simpl in R1, R2, R3.
  unfold emitChanges_errors. rewrite !elem_of_app.
  destruct Hch as [Hm|[[d Hd] [Hc|Hc]]].
  - do 5 right. apply list_elem_of_bind. exists (mkSegmentChange rid sid). split.
    + simpl. unfold rankFor_errors. rewrite Hnone. by left.
    + apply R3. done.
  - do 3 right. left. apply list_elem_of_bind. exists (mkSegmentChange rid sid). split.
    + unfold emitSegment_errors, rankFor_errors. simpl. rewrite Hd, Hnone. by left.
    + apply R1. done.
  - do 4 right. left. apply list_elem_of_bind. exists (mkSegmentChange rid sid). split.
    + unfold emitSegment_errors, rankFor_errors. simpl. rewrite Hd, Hnone. by left.
    + apply R2. done.
Qed.

(** * The further properties on the scenarios *)

Module MoreScenarioFacts.
Import Scenario MoreScenarios.

Lemma playlistIdOfRundown_of_ordinal_witness :
  playlistIdOfRundown ("Q" +:+ "_" +:+ "12") = "Q".
Proof.
  apply (playlistIdOfRundown_of_ordinal "Q" "12").
  - discriminate.
  - reflexivity.
Defined.

Lemma ResyncRundown_twice_witness :
  ResyncRundown (ResyncRundown afterColdStart "Q_1").1 "Q_1" =
  ((ResyncRundown afterColdStart "Q_1").1, [ErrRundownNotInPlaylist "Q_1" "Q"]).
Proof.
  apply (ResyncRundown_twice afterColdStart "Q_1" ["Q_1"] ["A"; "B"]).
  - vm_compute. reflexivity.
  - vm_compute. reflexivity.
Defined.

Lemma ResyncRundown_forces_refetch_witness :
  "A" ∈ uncachedINewsData (ResyncRundown afterColdStart "Q_1").1 "Q" twoListed.
Proof.
  apply (ResyncRundown_forces_refetch afterColdStart "Q_1" ["Q_1"] ["A"; "B"] "Q"
           twoListed (listed "A" "L1")).
  - vm_compute. reflexivity.
  - vm_compute. reflexivity.
  - vm_compute. repeat constructor.
  - repeat constructor.
Defined.

Lemma same_listing_fetches_nothing_witness :
  uncachedINewsData
    (out_watcher (processUpdatedRundown coldStart (fresh "v" ["Q"]) twoNrcs "Q" twoListed))
    "Q" twoListed = [].
Proof.
  destruct (prepare coldStart (fresh "v" ["Q"]) twoNrcs "Q" twoListed) as [|p] eqn:Hp.
  { vm_compute in Hp. discriminate Hp. }
  pose proof Hp as Hp'. vm_compute in Hp'. injection Hp' as <-.
  refine (same_listing_fetches_nothing coldStart (fresh "v" ["Q"]) twoNrcs "Q" twoListed
            _ Hp _ _).
  - compute_done.
  - apply Forall_forall. repeat constructor; vm_compute; by eexists.
Defined.

Lemma rejected_story_fetch_is_caught_witness :
  let o := checkINewsRundownById coldStart (fresh "v" ["Q"]) (storiesDown twoNrcs) "Q" in
  out_watcher o = fresh "v" ["Q"] /\ out_events o = []
  /\ out_errors o = [ErrProcessingFailed "Q"] /\ out_failed o = false.
Proof.
  apply (rejected_story_fetch_is_caught coldStart (fresh "v" ["Q"]) (storiesDown twoNrcs)
           "Q" twoListed); reflexivity.
Defined.

Lemma rejected_core_request_keeps_caches_witness :
  let o := processUpdatedRundown insertedC afterColdStart
             (coreDown (nrcs "v" threeSegments threeStories true)) "Q"
             (listing "Q" "v" threeSegments) in
  out_failed o = true /\ out_events o = []
  /\ playlists (out_watcher o) = playlists afterColdStart
  /\ segments (out_watcher o) = segments afterColdStart.
Proof.
  intros o.
  destruct (fetchINewsStoriesById (coreDown (nrcs "v" threeSegments threeStories true)) "Q"
              (uncachedINewsData afterColdStart "Q" (listing "Q" "v" threeSegments)))
    as [iNewsData|] eqn:Hf; [|vm_compute in Hf; discriminate Hf].
  destruct (rejected_core_request_keeps_caches insertedC afterColdStart
              (coreDown (nrcs "v" threeSegments threeStories true)) "Q"
              (listing "Q" "v" threeSegments) iNewsData "Q_1" ["C"] Hf)
    as (H1 & H2 & H3 & _ & H5 & _).
  - vm_compute. repeat constructor.
  - reflexivity.
  - split_and!; [exact H1 | exact H2 | exact H3 | exact H5].
Defined.

Lemma completed_poll_caches_agree_witness :
  let w' := out_watcher (processUpdatedRundown coldStart (fresh "v" ["Q"]) twoNrcs "Q"
                           twoListed) in
  playlists w' !! "Q" = Some ["Q_1"]
  /\ is_Some (rundowns w' !! "Q_1").
Proof.
  intros w'.
  destruct (prepare coldStart (fresh "v" ["Q"]) twoNrcs "Q" twoListed) as [|p] eqn:Hp.
  { vm_compute in Hp. discriminate Hp. }
  pose proof Hp as Hp'. vm_compute in Hp'. injection Hp' as <-.
  destruct (completed_poll_caches_agree coldStart (fresh "v" ["Q"]) twoNrcs "Q" twoListed
              _ Hp) as (_ & H2 & H3 & _).
  split; [exact H2|]. apply H3. repeat constructor.
Defined.

Lemma core_asked_only_for_stale_segments_witness :
  exists iNewsData r,
    fetchINewsStoriesById twoNrcs "Q" (uncachedINewsData (fresh "v" ["Q"]) "Q" twoListed)
      = Some iNewsData
    /\ r ∈ resolveAssignments coldStart "Q"
             (setAll iNewsData (cachedINewsData (fresh "v" ["Q"]))) twoListed
    /\ rundownId r = "Q_1"
    /\ ["A"; "B"] =
       filter (fun id => id ∈ uncachedINewsData (fresh "v" ["Q"]) "Q" twoListed)
         (res_segments r).
Proof.
  apply (core_asked_only_for_stale_segments coldStart (fresh "v" ["Q"]) twoNrcs "Q"
           twoListed "Q_1" ["A"; "B"]).
  vm_compute. repeat constructor.
Defined.

Lemma delete_events_witness :
  segment_delete "Q_1" "B"
    ∈ out_events (processUpdatedRundown splitAtB afterColdStart
                    (nrcs "v" changedA changedStories true) "Q" (listing "Q" "v" changedA)).
Proof.
  destruct (prepare splitAtB afterColdStart (nrcs "v" changedA changedStories true) "Q"
              (listing "Q" "v" changedA)) as [|p] eqn:Hp.
  { vm_compute in Hp. discriminate Hp. }
  pose proof Hp as Hp'. vm_compute in Hp'. injection Hp' as <-.
  destruct (delete_events splitAtB afterColdStart (nrcs "v" changedA changedStories true)
              "Q" (listing "Q" "v" changedA) _ Hp) as (_ & Hs).
  apply Hs. split.
  - vm_compute. repeat constructor.
  - simpl. intros H.
    repeat (apply elem_of_cons in H; destruct H as [H|H]; [discriminate H|]).
    by apply elem_of_nil in H.
Defined.

Lemma rundown_events_witness :
  exists R,
    rundown_create "Q_1" R
      ∈ out_events (processUpdatedRundown coldStart (fresh "v" ["Q"]) twoNrcs "Q" twoListed)
    /\ map is_externalId (ir_segments R) = ["A"; "B"].
Proof.
  destruct (prepare coldStart (fresh "v" ["Q"]) twoNrcs "Q" twoListed) as [|p] eqn:Hp.
  { vm_compute in Hp. discriminate Hp. }
  pose proof Hp as Hp'. vm_compute in Hp'. injection Hp' as <-.
  destruct (rundown_events coldStart (fresh "v" ["Q"]) twoNrcs "Q" twoListed _ Hp)
    as (Hc & _).
  eexists. split.
  - apply Hc. split.
    + vm_compute. repeat constructor.
    + eexists. split; [vm_compute; reflexivity | reflexivity].
  - vm_compute. reflexivity.
Defined.

Lemma rank_zero_is_logged_but_kept_witness :
  let inews : gmap string UnrankedSegment := {[ "A" := story "A" "L1" ]} in
  let ranks : gmap string Q := {[ "A" := 0%Q ]} in
  ErrNoRankDataFor "A" ∈ playlistRundownToIngestRundown_errors "Q_1" ["A"] inews ranks
  /\ inewsToIngestSegment "Q_1" "A" (story "A" "L1") 0
       ∈ ir_segments (playlistRundownToIngestRundown coldStart "Q" "Q_1" ["A"] inews ranks
                        None).
Proof.
  intros inews ranks.
  destruct (rank_zero_is_logged_but_kept coldStart "Q" "Q_1" ["A"] inews ranks None "A"
              (story "A" "L1") 0%Q) as (H1 & _ & H3).
  - repeat constructor.
  - vm_compute. reflexivity.
  - vm_compute. reflexivity.
  - reflexivity.
  - split; [exact H1 | exact H3].
Defined.

Lemma ranks_of_a_completed_poll_witness :
  let w' := out_watcher (processUpdatedRundown coldStart (fresh "v" ["Q"]) twoNrcs "Q"
                           twoListed) in
  lastForcedRankRecalculation w' !! "Q_1" = Some (now twoNrcs)
  /\ previousRanks w' !! "R" = None.
Proof.
  intros w'.
  destruct (prepare coldStart (fresh "v" ["Q"]) twoNrcs "Q" twoListed) as [|p] eqn:Hp.
  { vm_compute in Hp. discriminate Hp. }
  pose proof Hp as Hp'. vm_compute in Hp'. injection Hp' as <-.
  destruct (ranks_of_a_completed_poll coldStart (fresh "v" ["Q"]) twoNrcs "Q" twoListed
              _ Hp) as (updated & _ & H2 & _ & H4 & _).
  split.
  - apply H2. eexists. split; [apply list_elem_of_singleton; reflexivity|].
    split; reflexivity.
  - apply H4. simpl. intros H. apply list_elem_of_singleton in H. discriminate H.
Defined.

Lemma cycle_stops_at_rejected_download_witness :
  let w := fresh "v" ["Q"; "P"; "R"] in
  let o := checkINewsRundowns coldStart w (queueDown "P" twoNrcs) in
  out_failed o = true
  /\ out_requests o =
     out_requests (checkQueues coldStart w (queueDown "P" twoNrcs) [mkINewsQueue "Q"])
     ++ [ReqDownloadRundown "P"]
  /\ cy_status (watch coldStart w (queueDown "P" twoNrcs))
     = [(WARNING_MAJOR, ["Check INews rundows failed"])].
Proof.
  intros w o.
  destruct (cycle_stops_at_rejected_download coldStart (queueDown "P" twoNrcs)
              [mkINewsQueue "Q"] [mkINewsQueue "R"] (mkINewsQueue "P") w)
    as (H1 & _ & _ & _ & H5 & H6).
  - reflexivity.
  - intros q' Hq'. apply list_elem_of_singleton in Hq'. subst q'. vm_compute. by eexists.
  - reflexivity.
  - split_and!; [exact H1 | exact H5 | exact H6].
Defined.

Lemma segment_without_data_witness :
  ErrSegmentChangeWithoutData "Z"
    ∈ out_errors (processUpdatedRundown changedUnknown afterColdStart twoNrcs "Q" twoListed).
Proof.
  destruct (prepare changedUnknown afterColdStart twoNrcs "Q" twoListed) as [|p] eqn:Hp.
  { vm_compute in Hp. discriminate Hp. }
  pose proof Hp as Hp'. vm_compute in Hp'. injection Hp' as <-.
  destruct (segment_without_data changedUnknown afterColdStart twoNrcs "Q" twoListed _
              "Q_1" "Z" Hp) as (_ & _ & Hleft).
  - vm_compute. reflexivity.
  - destruct Hleft as (Hc & _).
    + intros e He. vm_compute in He. by apply elem_of_nil in He.
    + apply Hc. vm_compute. repeat constructor.
Defined.

Lemma fallback_is_logged_witness :
  ErrCouldNotAssignRank "A"
    ∈ out_errors (processUpdatedRundown swappedUnranked afterColdStart
                    (nrcs "v" (reverse twoSegments) twoStories true) "Q"
                    (listing "Q" "v" (reverse twoSegments))).
Proof.
  destruct (prepare swappedUnranked afterColdStart
              (nrcs "v" (reverse twoSegments) twoStories true) "Q"
              (listing "Q" "v" (reverse twoSegments))) as [|p] eqn:Hp.
  { vm_compute in Hp. discriminate Hp. }
  pose proof Hp as Hp'. vm_compute in Hp'. injection Hp' as <-.
  apply (fallback_is_logged swappedUnranked afterColdStart
           (nrcs "v" (reverse twoSegments) twoStories true) "Q"
           (listing "Q" "v" (reverse twoSegments)) _ "Q_1" "A" Hp).
  - vm_compute. reflexivity.
  - intros e He Hl. vm_compute in He.
    apply list_elem_of_singleton in He. subst e. discriminate Hl.
  - left. vm_compute. repeat constructor.
Defined.

End MoreScenarioFacts.

(** * The poll timer *)

Module PollTimerFacts.
Import PollTimer.

Lemma stopPollTimer_clears (t : Timers) :
  held t -> pending (stopPollTimer t) = ∅ /\ pollTimer (stopPollTimer t) = None.
Proof.
  intros Hh. unfold stopPollTimer. destruct (pollTimer t) as [h0|] eqn:E; simpl.
  - split; [|done]. apply set_eq. intros x. rewrite elem_of_difference, elem_of_singleton.
    split; [|by intros ?%not_elem_of_empty].
    intros [Hx Hne]. apply Hh in Hx. congruence.
  - split; [|done]. apply set_eq. intros x. split; [|by intros ?%not_elem_of_empty].
    intros Hx%Hh. congruence.
Qed.

Lemma startPollTimer_sets_one (t : Timers) :
  held t ->
  pending (startPollTimer t) = {[next (stopPollTimer t)]}
  /\ pollTimer (startPollTimer t) = Some (next (stopPollTimer t)).
Proof.
  intros Hh. unfold startPollTimer. simpl.
  destruct (stopPollTimer_clears t Hh) as [-> _]. split; [|done].
  apply set_eq. intros x. rewrite elem_of_union, elem_of_singleton.
  split; [intros [?|?%not_elem_of_empty]; done | auto].
Qed.

Lemma held_apply (op : Op) (t : Timers) : held t -> held (apply op t).
Proof.
  intros Hh. assert (Hstop : held (stopPollTimer t)).
  { intros x. destruct (stopPollTimer_clears t Hh) as [-> _]. by intros ?%not_elem_of_empty. }
  assert (Hstart : forall t0, held t0 -> held (startPollTimer t0)).
  { intros t0 H0 x. destruct (startPollTimer_sets_one t0 H0) as [-> ->].
    by intros ->%elem_of_singleton. }
  destruct op; simpl; unfold startWatcher, dispose, stopWatcher; auto.
  intros x [Hx _]%elem_of_difference. by apply Hh.
Qed.

Lemma held_run (ops : list Op) (t : Timers) : held t -> held (run ops t).
Proof.
  unfold run. revert t. induction ops as [|op ops IH]; intros t Hh; simpl; [done|].
  apply IH. by apply held_apply.
Qed.

Lemma held_construct (delayStart : bool) : held (construct delayStart).
Proof.
  assert (H0 : held initial) by (by intros x ?%not_elem_of_empty).
  destruct delayStart; simpl; [done|]. by apply (held_apply OpStartWatcher).
Qed.

(** However the public methods, the firing of timeouts and the two ends of
    [watch] interleave, at most one timeout of the watcher is pending, and
    it is the one whose handle the watcher holds; [stopWatcher] and
    [dispose] then leave none, and doing them again changes nothing. *)
Theorem at_most_one_timeout (delayStart : bool) (ops : list Op) :
  let t := run ops (construct delayStart) in
  (forall handle, handle ∈ pending t -> pollTimer t = Some handle)
  /\ (size (pending t) <= 1)%nat
  /\ pending (stopWatcher t) = ∅
  /\ pending (dispose t) = ∅
  /\ dispose (dispose t) = dispose t
  /\ size (pending (startWatcher t)) = 1%nat.
Proof.
  intros t.
  assert (Hh : held t) by apply held_run, held_construct.
  split_and!.
  - exact Hh.
  - destruct (pollTimer t) as [h0|] eqn:E.
    + transitivity (size ({[h0]} : gset nat)); [|rewrite size_singleton; lia].
      apply subseteq_size. intros x Hx%Hh. apply elem_of_singleton. congruence.
    + replace (pending t) with (∅ : gset nat); [rewrite size_empty; lia|].
      apply set_eq. intros x. split; [by intros ?%not_elem_of_empty|].
      intros Hx%Hh. congruence.
  - apply stopPollTimer_clears, Hh.
  - apply stopPollTimer_clears, Hh.
  - unfold dispose, stopWatcher.
    destruct (stopPollTimer_clears t Hh) as [_ Hn].
    unfold stopPollTimer at 1. by rewrite Hn.
  - unfold startWatcher.
    assert (Hs : held (stopWatcher t)) by (by apply (held_apply OpStopWatcher)).
    destruct (startPollTimer_sets_one _ Hs) as [-> _]. apply size_singleton.
Qed.

(** A [dispose] (or [stopWatcher]) that arrives while a check is running
    does not end the polling: when the check settles, [watch] sets a new
    timeout. *)
Theorem dispose_during_check_is_undone (delayStart : bool) (ops : list Op) :
  let t := run ops (construct delayStart) in
  let t' := run [OpWatchEntered; OpDispose; OpWatchSettled] t in
  size (pending t') = 1%nat /\ is_Some (pollTimer t').
Proof.
  intros t t'.
  assert (Hh : held t) by apply held_run, held_construct.
  assert (Hh2 : held (dispose (stopPollTimer t))).
  { apply (held_apply OpDispose), (held_apply OpWatchEntered), Hh. }
  change t' with (startPollTimer (dispose (stopPollTimer t))).
  destruct (startPollTimer_sets_one _ Hh2) as [-> ->].
  split; [apply size_singleton | by eexists].
Qed.

End PollTimerFacts.

(** * The watcher before playlists *)

Module LegacyFacts.
Import Legacy.

Lemma filter_bind_group {A} (test : A -> bool) (f : A -> list Event) (k : nat)
    (l : list A) :
  (forall a e, e ∈ f a -> eventGroup e = k) ->
  Forall (fun e => eventGroup e = k) (List.filter test l ≫= f).
Proof.
  intros Hf. apply Forall_forall. intros e (a & He & _)%list_elem_of_bind. by eapply Hf.
Qed.

Lemma emitSegmentUpdate_group (sz : Serializer) (rid : string)
    (ranks : gmap string SegmentRankingsInner) (cache : gmap string RundownSegment)
    (inews : gmap string UnrankedSegment) (sid : string) (e : Event) :
  e ∈ (emitSegmentUpdate sz rid ranks cache inews sid).1 -> eventGroup e = 2%nat.
Proof.
  unfold emitSegmentUpdate, diffSegment.
  destruct (newSegmentRankAssignement _ _ _); [|by intros ?%elem_of_nil].
  destruct (inews !! sid); [|by intros ?%elem_of_nil].
  destruct (cache !! sid); simpl.
  - destruct (isEqual _ _ _); simpl; [by intros ?%elem_of_nil|].
    by intros ->%list_elem_of_singleton.
  - by intros ->%list_elem_of_singleton.
Qed.

Lemma group_blocks_sorted (l0 l1 l2 : list Event) :
  Forall (fun e => eventGroup e = 0%nat) l0 ->
  Forall (fun e => eventGroup e = 1%nat) l1 ->
  Forall (fun e => eventGroup e = 2%nat) l2 ->
  StronglySorted (fun a b => (eventGroup a <= eventGroup b)%nat) (l0 ++ l1 ++ l2).
Proof.
  intros H0 H1 H2.
  assert (Hblock : forall k l, Forall (fun e => eventGroup e = k) l ->
            forall rest, StronglySorted (fun a b => (eventGroup a <= eventGroup b)%nat) rest ->
            Forall (fun e => (k <= eventGroup e)%nat) rest ->
            StronglySorted (fun a b => (eventGroup a <= eventGroup b)%nat) (l ++ rest)).
  { intros k l Hl rest Hs Hb. induction Hl as [|x l Hx Hl IH]; simpl; [done|].
    constructor; [done|]. apply Forall_app. split.
    - eapply Forall_impl; [exact Hl|]. simpl. intros. lia.
    - eapply Forall_impl; [exact Hb|]. simpl. intros. lia. }
  apply (Hblock 0%nat); [done| |].
  - apply (Hblock 1%nat); [done| |].
    + rewrite <- (app_nil_r l2). apply (Hblock 2%nat); [done|constructor|constructor].
    + eapply Forall_impl; [exact H2|]. simpl. intros. lia.
  - apply Forall_app. split; (eapply Forall_impl; [eassumption|]); simpl; intros; lia.
Qed.

(** The events of a poll come in three groups: the rundown and segment
    deletes, then the rundown creates and updates, then the segment
    creates and updates. *)
Theorem deletes_then_rundowns_then_segments (GetUpdatesAndRanks : UpdatesAndRanks)
    (sz : Serializer) (io : Collaborators) (w : Watcher) (rundownId : string)
    (rundown : ReducedRundown) :
  StronglySorted (fun a b => (eventGroup a <= eventGroup b)%nat)
    (out_events (processUpdatedRundown GetUpdatesAndRanks sz io w rundownId rundown).2).
Proof.
  unfold processUpdatedRundown. simpl. unfold processAndEmitRundownChanges.
  rewrite <- app_assoc. apply group_blocks_sorted.
  - apply filter_bind_group. intros a e. destruct a; simpl;
      try (by intros ?%elem_of_nil); by intros ->%list_elem_of_singleton.
  - apply filter_bind_group. intros a e. destruct a; simpl;
      try (by intros ?%elem_of_nil); by intros ->%list_elem_of_singleton.
  - unfold processAndEmitSegmentUpdates.
    destruct (updatedSegmentsOf _ ++ createdSegmentsOf _) as [|x l]; [constructor|].
    destruct (GetSegmentsCacheById io _ _) as [cache|]; [|constructor].
    destruct (fetchINewsStoriesById io _ _) as [inews|]; [|constructor].
    cbn [out_events]. apply Forall_forall. intros e He.
    apply list_elem_of_bind in He as (r & He & Hr).
    apply list_elem_of_fmap in Hr as (sid & -> & _).
    by eapply emitSegmentUpdate_group.
Qed.

(** Without an updated or created segment the poll asks neither Core nor
    iNews; with one it asks both, each once, for the updated ids followed
    by the created ids. *)
Theorem requests_only_for_segment_changes (sz : Serializer) (io : Collaborators)
    (rundownId : string) (changes : list RundownChange)
    (segmentRanks : gmap string SegmentRankingsInner) :
  let o := processAndEmitSegmentUpdates sz io rundownId changes segmentRanks in
  let ids := updatedSegmentsOf changes ++ createdSegmentsOf changes in
  ((forall c, c ∈ changes ->
      match c with SEGMENT_UPDATE _ _ | SEGMENT_CREATE _ _ => False | _ => True end) ->
   out_requests o = [] /\ out_events o = [] /\ out_log o = [] /\ out_failed o = false)
  /\ (ids <> [] ->
      out_requests o =
        [ReqGetSegmentsCacheById rundownId ids; ReqFetchINewsStoriesById rundownId ids]).
Proof.
  intros o ids. split.
  - intros Hnone.
    assert (Hu : updatedSegmentsOf changes = []).
    { apply elem_of_nil_inv. intros x (c & Hc & E)%list_elem_of_omap.
      specialize (Hnone c Hc). by destruct c. }
    assert (Hc : createdSegmentsOf changes = []).
    { apply elem_of_nil_inv. intros x (c & Hc & E)%list_elem_of_omap.
      specialize (Hnone c Hc). by destruct c. }
    unfold o, processAndEmitSegmentUpdates. by rewrite Hu, Hc.
  - intros Hne. unfold o, processAndEmitSegmentUpdates. fold ids.
    destruct ids as [|x l]; [done|].
    destruct (GetSegmentsCacheById io _ _); [|done].
    by destruct (fetchINewsStoriesById io _ _).
Qed.

(** Whether a segment is sent as created or as updated is decided by
    Core's cache alone, not by the kind of change the differ reported: a
    segment with a story and a rank is created when Core has no entry for
    it, updated when Core's entry serializes differently, and not sent when
    it serializes the same. *)
Theorem cache_decides_create_or_update (sz : Serializer) (rundownId segmentId : string)
    (segmentRanks : gmap string SegmentRankingsInner)
    (ingestCacheData : gmap string RundownSegment)
    (iNewsData : gmap string UnrankedSegment) (data : UnrankedSegment) (newRank : Q) :
  iNewsData !! segmentId = Some data ->
  newSegmentRankAssignement segmentRanks (ingestCacheData !! segmentId) segmentId
    = Some newRank ->
  let downloaded :=
    mkRundownSegment (us_rundownId data) (us_iNewsStory data) (us_modified data)
      (us_externalId data) newRank (us_name data) in
  let events :=
    (emitSegmentUpdate sz rundownId segmentRanks ingestCacheData iNewsData segmentId).1 in
  (ingestCacheData !! segmentId = None ->
   events = [segment_create rundownId segmentId downloaded])
  /\ (forall cached, ingestCacheData !! segmentId = Some cached ->
        serialize sz downloaded <> serialize sz cached ->
        events = [segment_update rundownId segmentId downloaded])
  /\ (forall cached, ingestCacheData !! segmentId = Some cached ->
        serialize sz downloaded = serialize sz cached -> events = []).
Proof.
  intros Hd Hr downloaded events. unfold events, emitSegmentUpdate.
  rewrite Hr, Hd. unfold diffSegment. fold downloaded. split_and!.
  - by intros ->.
  - intros cached -> Hne.
    destruct (isEqual sz _ _) eqn:E; [|done]. by apply isEqual_spec in E.
  - intros cached -> Heq.
    destruct (isEqual sz _ _) eqn:E; [done|].
    apply (proj2 (isEqual_spec sz _ _)) in Heq. congruence.
Qed.

(** An assigned rank of [0] counts as no rank: the segment takes the rank
    of Core's entry, and without such an entry it is reported as not
    assigned a rank and nothing is sent for it, story or not. *)
Theorem rank_zero_counts_as_missing (sz : Serializer) (rundownId segmentId : string)
    (segmentRanks : gmap string SegmentRankingsInner)
    (ingestCacheData : gmap string RundownSegment)
    (iNewsData : gmap string UnrankedSegment) (inner : SegmentRankingsInner) :
  segmentRanks !! segmentId = Some inner ->
  Qeq_bool (rank inner) 0 = true ->
  newSegmentRankAssignement segmentRanks (ingestCacheData !! segmentId) segmentId
    = (seg_rank <$> ingestCacheData !! segmentId)
  /\ (ingestCacheData !! segmentId = None ->
      emitSegmentUpdate sz rundownId segmentRanks ingestCacheData iNewsData segmentId
      = ([], [ErrNotAssignedRank segmentId])).
Proof.
  intros Hs Hz. unfold emitSegmentUpdate, newSegmentRankAssignement. rewrite Hs, Hz.
  split; [done|]. by intros ->.
Qed.

(** The new ranks and the new listing are stored before Core and iNews are
    asked: when one of the two requests is rejected the poll fails with the
    rundown-level events emitted, no segment event, and the watcher already
    holding the state that hides the lost changes from the next poll. *)
Theorem state_is_stored_before_the_fetch (GetUpdatesAndRanks : UpdatesAndRanks)
    (sz : Serializer) (io : Collaborators) (w : Watcher) (rundownId : string)
    (rundown : ReducedRundown) :
  let r := GetUpdatesAndRanks rundownId rundown (rr_segments rundown) (previousRanks w)
             (rundowns w !! rundownId) in
  let ids := updatedSegmentsOf r.2 ++ createdSegmentsOf r.2 in
  ids <> [] ->
  GetSegmentsCacheById io rundownId ids = None
  \/ fetchINewsStoriesById io rundownId ids = None ->
  let res := processUpdatedRundown GetUpdatesAndRanks sz io w rundownId rundown in
  out_failed res.2 = true
  /\ out_events res.2 = processAndEmitRundownChanges rundown r.2
  /\ rundowns res.1 !! rundownId = Some rundown
  /\ previousRanks res.1 !! rundownId = Some (ranksMapOf r.1).
Proof.
  intros r ids Hne Hrej res. unfold res, processUpdatedRundown. fold r. simpl.
  rewrite !lookup_insert_eq. unfold processAndEmitSegmentUpdates. fold ids.
  destruct ids as [|x l]; [done|].
  destruct Hrej as [-> | Hrej].
  - simpl. by rewrite app_nil_r.
  - rewrite Hrej. destruct (GetSegmentsCacheById io _ _); simpl; by rewrite app_nil_r.
Qed.

Lemma ticks_from (pollInterval : nat) (connected : bool) (n m : nat) :
  let r := ticks pollInterval connected n
             {| currentlyChecking := true; passoverTimings := m |} in
  r.1 = {| currentlyChecking := true; passoverTimings := (m + n)%nat |}
  /\ forall i, (i < n)%nat ->
       r.2 !! i =
       Some (if (10 <? m + i)%nat
             then SkippedWithWarning (S (m + i))
                    (if connected
                     then Some (WARNING_MINOR, (S (m + i) * pollInterval)%nat)
                     else None)
             else Skipped).
Proof.
  revert m. induction n as [|n IH]; intros m; simpl.
  - split; [by rewrite Nat.add_0_r | intros i Hi; lia].
  - destruct (IH (S m)) as [I1 I2].
    assert (Hstep : (tick pollInterval connected
                       {| currentlyChecking := true; passoverTimings := m |}).1
                    = {| currentlyChecking := true; passoverTimings := S m |}).
    { unfold tick. simpl. by destruct (10 <? m)%nat. }
    rewrite Hstep. split.
    + rewrite I1. f_equal. lia.
    + intros [|i] Hi; simpl.
      * rewrite Nat.add_0_r. unfold tick. simpl. by destruct (10 <? m)%nat.
      * rewrite I2 by lia. replace (S m + i)%nat with (m + S i)%nat by lia. done.
Qed.

(** While a check is running, the first eleven ticks are passed over in
    silence; from the twelfth on every tick warns with the number of ticks
    passed over so far and, when connected, reports [WARNING_MINOR] for
    that many poll intervals.  No tick starts a second check. *)
Theorem passed_over_ticks (pollInterval : nat) (connected : bool) (n i : nat) :
  (i < n)%nat ->
  let r := ticks pollInterval connected n
             {| currentlyChecking := true; passoverTimings := 0 |} in
  r.1 = {| currentlyChecking := true; passoverTimings := n |}
  /\ r.2 !! i =
     Some (if (i <? 11)%nat
           then Skipped
           else SkippedWithWarning (S i)
                  (if connected
                   then Some (WARNING_MINOR, (S i * pollInterval)%nat)
                   else None)).
Proof.
  intros Hi r. destruct (ticks_from pollInterval connected n 0) as [H1 H2].
  split; [exact H1|]. unfold r. rewrite (H2 i Hi). simpl.
  destruct (Nat.ltb_spec 10 i), (Nat.ltb_spec i 11); try lia; done.
Qed.

End LegacyFacts.

(** * The earlier watcher on a scenario *)

Module LegacyScenarioFacts.
Import Legacy LegacyScenario.

Lemma cache_decides_create_or_update_witness :
  (emitSegmentUpdate structural "Q" {[ "A" := mkSegmentRankingsInner 1 ]} ∅
     {[ "A" := storyOf "A" ]} "A").1
  = [segment_create "Q" "A"
       (mkRundownSegment "Q" {| meta_float := None; story_body := "A" |} 0 "A" 1 "A")].
Proof.
  apply (LegacyFacts.cache_decides_create_or_update structural "Q" "A"
           {[ "A" := mkSegmentRankingsInner 1 ]} ∅ {[ "A" := storyOf "A" ]}
           (storyOf "A") 1).
  - vm_compute. reflexivity.
  - vm_compute. reflexivity.
  - vm_compute. reflexivity.
Defined.

Lemma rank_zero_counts_as_missing_witness :
  emitSegmentUpdate structural "Q" {[ "A" := mkSegmentRankingsInner 0 ]} ∅
    {[ "A" := storyOf "A" ]} "A"
  = ([], [ErrNotAssignedRank "A"]).
Proof.
  apply (LegacyFacts.rank_zero_counts_as_missing structural "Q" "A"
           {[ "A" := mkSegmentRankingsInner 0 ]} ∅ {[ "A" := storyOf "A" ]}
           (mkSegmentRankingsInner 0)).
  - vm_compute. reflexivity.
  - reflexivity.
  - vm_compute. reflexivity.
Defined.

Lemma state_is_stored_before_the_fetch_witness :
  let res := processUpdatedRundown created structural storiesRejected noWatcher "Q" queueQ in
  out_failed res.2 = true
  /\ out_events res.2 = [rundown_create "Q" queueQ]
  /\ rundowns res.1 !! "Q" = Some queueQ
  /\ previousRanks res.1 !! "Q" = Some (ranksMapOf (rr_segments queueQ)).
Proof.
  apply (LegacyFacts.state_is_stored_before_the_fetch created structural storiesRejected noWatcher
           "Q" queueQ).
  - discriminate.
  - right. reflexivity.
Defined.

Lemma passed_over_ticks_witness :
  let r := ticks 20 true 13 {| currentlyChecking := true; passoverTimings := 0 |} in
  r.1 = {| currentlyChecking := true; passoverTimings := 13 |}
  /\ r.2 !! 11%nat = Some (SkippedWithWarning 12 (Some (WARNING_MINOR, 240%nat))).
Proof.
  apply (LegacyFacts.passed_over_ticks 20 true 13 11). lia.
Defined.

End LegacyScenarioFacts.

(** * Stories to elements *)

Module ManusFacts.
Import Manus.

Lemma prefix_spec (p s : string) :
  String.prefix p s = true <-> exists post, s = p +:+ post.
Proof.
  revert s. induction p as [|a p IH]; intros [|b s]; simpl.
  - split; [intros _; by exists "" | done].
  - split; [intros _; by exists (String b s) | done].
  - split; [done | intros [post H]; discriminate H].
  - destruct (Ascii.ascii_dec a b) as [->|Hne].
    + rewrite IH. split; intros [post H]; exists post; [by rewrite H | by injection H].
    + split; [done | intros [post H]; injection H as H1 H2; congruence].
Qed.

(** [includes] is the search for a substring. *)
Lemma includes_spec (needle hay : string) :
  includes needle hay = true <-> exists pre post, hay = pre +:+ needle +:+ post.
Proof.
  induction hay as [|a hay IH].
  - cbn [includes]. rewrite orb_false_r, prefix_spec. split.
    + intros [post H]. by exists "", post.
    + intros [[|b pre] [post H]]; [by exists post | discriminate H].
  - cbn [includes]. rewrite orb_true_iff, prefix_spec, IH. split.
    + intros [[post H]|(pre & post & H)].
      * by exists "", post.
      * exists (String a pre), post. simpl. by rewrite H.
    + intros [[|b pre] [post H]].
      * left. by exists post.
      * right. exists pre, post. simpl in H. by injection H.
Qed.

Lemma find_first {A} (test : A -> bool) (before after : list A) (x : A) :
  Forall (fun y => test y = false) before -> test x = true ->
  List.find test (before ++ x :: after) = Some x.
Proof.
  intros Hb Hx. induction Hb as [|y before Hy _ IH]; simpl.
  - by rewrite Hx.
  - by rewrite Hy.
Qed.

Lemma find_none {A} (test : A -> bool) (l : list A) :
  Forall (fun y => test y = false) l -> List.find test l = None.
Proof.
  intros Hl. induction Hl as [|y l Hy _ IH]; simpl; [done | by rewrite Hy].
Qed.

(** An element code is converted once, as the type of the first entry of
    the table whose code it contains, whatever later entries it contains
    as well. *)
Theorem first_matching_type_decides (im : Imports) (s : Story) (script : string)
    (index : nat) (code : string) (before after : list (string * nat))
    (ty : string * nat) :
  ELEMENT_CODE_TYPES im = before ++ ty :: after ->
  Forall (fun t => includes t.1 code = false) before ->
  includes ty.1 code = true ->
  convertCode im s script index code = convertAs im ty.2 s script index.
Proof.
  intros Htable Hbefore Hcode. unfold convertCode. rewrite Htable.
  by rewrite (find_first _ before after ty).
Qed.

Lemma convertCode_unmatched (im : Imports) (s : Story) (script : string)
    (index : nat) (code : string) :
  Forall (fun t => includes t.1 code = false) (ELEMENT_CODE_TYPES im) ->
  convertCode im s script index code = [].
Proof.
  intros H. unfold convertCode. by rewrite find_none.
Qed.

Lemma concat_imap_nil {A B} (f : nat -> A -> list B) (l : list A) :
  (forall i x, x ∈ l -> f i x = []) -> concat (imap f l) = [].
Proof.
  revert f. induction l as [|x l IH]; intros f Hf; simpl; [done|].
  rewrite Hf by (apply elem_of_cons; by left). simpl. apply IH.
  intros i y Hy. apply Hf. apply elem_of_cons; by right.
Qed.

(** When no element code of a rundown contains a code of the table, every
    story is converted to its section element, followed by the placeholder
    of the empty converter only if the story has no element codes at all:
    a story whose codes are all unknown gives its section and nothing
    else. *)
Theorem unknown_codes_give_the_section_only (im : Imports) (rundownRaw : list Root) :
  (forall root code t, root ∈ rundownRaw ->
     code ∈ (extract im (story_body (story root))).1 ->
     t ∈ ELEMENT_CODE_TYPES im -> includes t.1 code = false) ->
  (convert im rundownRaw).1
  = rundownRaw ≫= fun root =>
      section (story root)
      :: (if (extract im (story_body (story root))).1 is []
          then ManusTypeEmpty im (story root) "Manus Segment Not Implemented" 0
          else []).
Proof.
  unfold convert. cbn [fst]. induction rundownRaw as [|root l IH]; intros H; [done|].
  change ((root :: l) ≫= convertStory im) with (convertStory im root ++ (l ≫= convertStory im)).
  rewrite IH; [|intros r code t Hr; apply H; apply elem_of_cons; by right].
  match goal with |- _ = (root :: l) ≫= ?f => change ((root :: l) ≫= f) with (f root ++ (l ≫= f)) end.
  f_equal. unfold convertStory. cbn zeta. cbn beta.
  rewrite concat_imap_nil; [done|].
  intros i x Hx. apply convertCode_unmatched, Forall_forall. intros t Ht.
  apply (H root); [apply elem_of_cons; by left|done|done].
Qed.

Import ManusScenario.

Lemma first_matching_type_decides_witness :
  convertCode table (story (storyWith "SERVER 1")) "SERVER 1" 0 "SERVER 1"
  = named "SERVER" (story (storyWith "SERVER 1")) "SERVER 1" 0.
Proof.
  apply (first_matching_type_decides table (story (storyWith "SERVER 1")) "SERVER 1" 0
           "SERVER 1" [("KAM", 1%nat)] [("KAMERA", 3%nat)] ("SERVER", 2%nat)).
  - reflexivity.
  - repeat constructor.
  - reflexivity.
Defined.

Lemma unknown_codes_give_the_section_only_witness :
  (convert table [storyWith "LIVE"; storyWith ""]).1
  = [section (story (storyWith "LIVE")); section (story (storyWith ""))]
    ++ named "EMPTY" (story (storyWith "")) "Manus Segment Not Implemented" 0.
Proof.
  apply (unknown_codes_give_the_section_only table [storyWith "LIVE"; storyWith ""]).
  intros root code t Hroot Hcode Ht.
  repeat (apply elem_of_cons in Hroot as [->|Hroot]);
    [| |by apply elem_of_nil in Hroot].
  - apply list_elem_of_singleton in Hcode as ->.
    repeat (apply elem_of_cons in Ht as [->|Ht]); [reflexivity..|by apply elem_of_nil in Ht].
  - by apply elem_of_nil in Hcode.
Defined.

End ManusFacts.

(** * The settings observer of the connector *)

Module ConnectorFacts.
Import Connector.

Section Device.

Context {Queue Other : Type} `{EqDecision Queue} `{EqDecision Other}.
Variable queueName : Queue -> string.
Variable noOther : Other.

Lemma filter_named_twice (qs : list Queue) :
  List.filter (named queueName) (List.filter (named queueName) qs)
  = List.filter (named queueName) qs.
Proof.
  induction qs as [|q qs IH]; simpl; [done|].
  destruct (Connector.named queueName q) eqn:E; simpl; [|done].
  by rewrite E, IH.
Qed.

Lemma sameButDebug_refl (a : INewsDeviceSettings (Queue := Queue) (Other := Other)) :
  sameButDebug a a = true.
Proof. unfold sameButDebug. by apply bool_decide_eq_true. Qed.

(** Handling the same device document a second time does nothing: the
    handler is not restarted, the log level is not set and the fields stay
    as the first handling left them.  This holds for the document as it was
    received and for the document as the first handling left it, its
    queues without a name removed.  Without a device document nothing is
    done at all. *)
Theorem same_document_twice (envLevel : option string)
    (found : option INewsDeviceSettings) (c : State) :
  let first := addedChanged queueName noOther envLevel (Device found) c in
  let nothing := {| restartsHandler := false; setLogLevel := None; threw := false |} in
  addedChanged queueName noOther envLevel (Device found) first.1 = (first.1, nothing)
  /\ addedChanged queueName noOther envLevel (Device (_settings first.1)) first.1
     = (first.1, nothing)
  /\ addedChanged queueName noOther envLevel NoDevice c = (c, nothing).
Proof.
  intros first nothing. unfold first, nothing. split_and!; [| |done].
  - destruct c as [s d], found as [[q [[]|] o]|], d;
      cbn -[sameButDebug]; by rewrite ?sameButDebug_refl.
  - destruct c as [s d], found as [[[q|] [[]|] o]|], d;
      cbn -[sameButDebug]; rewrite ?filter_named_twice;
      by rewrite ?sameButDebug_refl.
Qed.

(** Once settings are stored, the handler is restarted exactly when the
    document differs from them in its queues with a name or in its other
    settings: a change of the debug flag or of queues without a name
    restarts nothing. *)
Theorem restart_ignores_debug_and_unnamed_queues (envLevel : option string)
    (received stored : INewsDeviceSettings) (c : State) :
  _settings c = Some stored ->
  restartsHandler (addedChanged queueName noOther envLevel (Device (Some received)) c).2
  = false
  <-> (List.filter (named queueName) <$> queues received) = queues stored
      /\ other received = other stored.
Proof.
  intros Hs. unfold addedChanged. cbn [snd restartsHandler default]. rewrite Hs.
  rewrite negb_false_iff. unfold sameButDebug. by rewrite bool_decide_eq_true.
Qed.

Lemma first_document_restarts (envLevel : option string)
    (found : option INewsDeviceSettings) (c : State) :
  _settings c = None ->
  restartsHandler (addedChanged queueName noOther envLevel (Device found) c).2 = true.
Proof.
  intros Hs. unfold addedChanged. cbn [snd restartsHandler]. by rewrite Hs.
Qed.

End Device.

Import ConnectorScenario.

Lemma restart_ignores_debug_and_unnamed_queues_witness :
  restartsHandler
    (addedChanged queueName "" (Some "info") (Device (Some debugOn)) configured).2 = false
  /\ setLogLevel
       (addedChanged queueName "" (Some "info") (Device (Some debugOn)) configured).2
     = Some "debug".
Proof.
  split; [|reflexivity].
  apply (restart_ignores_debug_and_unnamed_queues queueName "" (Some "info") debugOn
           {| queues := Some [("1", "Q")]; debug := Some false; other := "host" |}
           configured).
  - reflexivity.
  - split; reflexivity.
Defined.

End ConnectorFacts.
